(** * ENiGMA½ "latest files announce" event: a shallow embedding

    The module [latest_files_announce_evt.js] exports one function,
    [latestFilesAnnounceEvent(args, cb)], an [async.waterfall] of four
    stages: [loadOptions], [readTemplates], [findNewFiles], [buildMessages].

    The embedding keeps that shape.  Every call that leaves the module (file
    system, stat log, file base, ANSI prep, string formatting, message base)
    is a primitive of a small state-and-error monad; each primitive records
    one [Event], so that the order of the calls can be stated.  The
    collaborators themselves live in the ENiGMA½ core and are taken as the
    fields of an environment record [Env]. *)

From Stdlib Require Import ZArith String Ascii.
From stdpp Require Import gmap strings list.

Open Scope string_scope.
Open Scope list_scope.
Open Scope Z_scope.

(** ** Data model *)

(** Errors handed to callbacks.  [HostError] is any error object produced
    outside the module (node's [fs], [hjson], the file base, the message
    base); node's system errors carry a [code].  [General] and
    [MissingParam] are the two [Errors.*] factories the module calls. *)
Inductive Error : Type :=
| HostError (code : string) (message : string)
| General (message : string)
| MissingParam (message : string).

Definition err_code (e : Error) : string :=
  match e with
  | HostError c _ => c
  | General _ | MissingParam _ => ""
  end.

Definition err_message (e : Error) : string :=
  match e with
  | HostError _ m | General m | MissingParam m => m
  end.

(** The [(err, value)] pair of a node callback that either fails or
    produces a value. *)
Inductive Result (A : Type) : Type :=
| Ok (a : A)
| Err (e : Error).
Arguments Ok {A} a.
Arguments Err {A} e.

(** JavaScript values stored in [formatObj]. *)
Inductive JsVal : Type :=
| VUndef
| VNum (n : Z)
| VStr (s : string).

(** [formatObj]: a plain object used as a string-keyed map. *)
Abbreviation FormatObj := (gmap string JsVal).

(** Truthiness of the values the module tests with [!x], [if(x)], [x || d]. *)
Definition truthy_str (s : string) : bool :=
  match s with
  | EmptyString => false
  | String _ _ => true
  end.

Definition truthy_ostr (o : option string) : bool :=
  match o with
  | Some s => truthy_str s
  | None => false
  end.

(** [o || d] for a possibly absent string. *)
Definition or_str (o : option string) (d : string) : string :=
  if truthy_ostr o then default d o else d.

(** [o || d] for a possibly absent number ([0] is falsy). *)
Definition or_num (o : option Z) (d : Z) : Z :=
  match o with
  | Some n => if n =? 0 then d else n
  | None => d
  end.

Module Area.
Record t : Type := mk {
  areaTag : string;
  name : string;
  desc : string;
}.
End Area.

Module FileEntry.
Record Meta : Type := mkMeta {
  byte_size : Z;
  file_crc32 : JsVal;
  file_md5 : JsVal;
  file_sha1 : JsVal;
  upload_by_username : option string;
}.

Record t : Type := mk {
  fileId : Z;
  fileName : string;
  desc : option string;
  fileSha256 : string;
  uploadTimestamp : string;
  hashTags : list string;
  meta : Meta;
}.

(** [fileInfo.desc = d] *)
Definition set_desc (d : string) (f : t) : t :=
  mk (fileId f) (fileName f) (Some d) (fileSha256 f) (uploadTimestamp f)
     (hashTags f) (meta f).
End FileEntry.

(** What [hjson.parse] yields for options.hjson: any subset of the keys.
    The parsed object is the [options] object itself: [loadOptions] assigns
    the documented keys (and [nowTs]) and leaves the rest alone, so a
    [sinceTs] the file holds stays in it until [findNewFiles] assigns it. *)
Module RawOptions.
Record t : Type := mk {
  areaTagsRegEx : option string;
  maxFilesPerArea : option Z;
  postMaxSizeTarget : option Z;
  header : option string;
  areaHeader : option string;
  areaFooter : option string;
  entry : option string;
  footer : option string;
  to : option string;
  from : option string;
  tsFormat : option string;
  subjectFormat : option string;
  templateEncoding : option string;
  sinceTs : option string;
}.

(** [{}] *)
Definition empty : t :=
  mk None None None None None None None None None None None None None None.
End RawOptions.

(** The [options] object once [loadOptions] has filled in the defaults. *)
Module Options.
Record t : Type := mk {
  areaTagsRegEx : string;
  maxFilesPerArea : Z;
  postMaxSizeTarget : Z;
  header : string;
  areaHeader : string;
  areaFooter : string;
  entry : string;
  footer : string;
  to : string;
  from : string;
  tsFormat : string;
  nowTs : string;
  subjectFormat : string;
  templateEncoding : string;
  sinceTs : option string;
}.

(** [options.sinceTs = s] *)
Definition set_sinceTs (s : string) (o : t) : t :=
  mk (areaTagsRegEx o) (maxFilesPerArea o) (postMaxSizeTarget o) (header o)
     (areaHeader o) (areaFooter o) (entry o) (footer o) (to o) (from o)
     (tsFormat o) (nowTs o) (subjectFormat o) (templateEncoding o) (Some s).
End Options.

(** The object handed to [nextArea] for one area. *)
Module AreaFiles.
Record t : Type := mk {
  areaInfo : Area.t;
  files : list FileEntry.t;
  areaFileBytes : Z;
  remainingFiles : Z;
}.
End AreaFiles.

(** The fields given to [new Message({...})]. *)
Module Message.
Record t : Type := mk {
  areaTag : string;
  toUserName : string;
  fromUserName : string;
  subject : string;
  message : string;
  explicit_encoding : string;
}.
End Message.

(** Calls that leave the module, in the order they are made. *)
Inductive Event : Type :=
| EvReadFile (path : string)
| EvGetSystemStat (key : string)
| EvSetSystemStat (key : string) (value : string)
| EvGetAreas
| EvFindFiles (newerThanTimestamp : string) (areaTag : string)
| EvLoadFile (fileId : Z)
| EvAnsiPrep (input : option string) (cols indent : Z)
| EvStringFormat (template : string) (formatObj : FormatObj)
| EvPersistMessage (msg : Message.t).

(** The state a run can change: the system stat log and the message base. *)
Record Store : Type := mkStore {
  systemStats : gmap string string;
  msgBase : list Message.t;
}.

(** The collaborators of the ENiGMA½ core and of node, as seen by one run. *)
Record Env : Type := mkEnv {
  dirname : string;                               (* __dirname *)
  path_isAbsolute : string -> bool;
  path_join : string -> string -> string;
  fs_readFile : string -> Result string;
  hjson_parse : string -> Result RawOptions.t;    (* throws on bad input *)
  moment_now_format : string -> string;           (* moment().format(f) *)
  moment_format : string -> string -> string;     (* moment(ts).format(f) *)
  getISOTimestampString : string;                 (* the run's "now" *)
  iconv_decode : string -> string -> string;
  splitTextAtTerms : string -> list string;
  boardName : string;                             (* Config.general.boardName *)
  getSortedAvailableFileAreas : list Area.t;
  regex_match : string -> string -> bool;         (* str.match(re) is truthy *)
  findFiles : string -> string -> Result (list Z);
  loadFile : Z -> Result FileEntry.t;
  AnsiPrep : option string -> Z -> Z -> option Error * option string;
  stringFormat : string -> FormatObj -> string;
  persistMessage : list Message.t -> Message.t -> option Error;
}.

(** ** The monad: state, errors, and the log of calls *)

Definition M (A : Type) : Type := Store -> Result A * Store * list Event.

Definition ret {A} (a : A) : M A := fun s => (Ok a, s, []).

Definition throw {A} (e : Error) : M A := fun s => (Err e, s, []).

Definition bind {A B} (m : M A) (k : A -> M B) : M B :=
  fun s =>
    match m s with
    | (Ok a, s1, ev1) =>
        match k a s1 with
        | (r, s2, ev2) => (r, s2, ev1 ++ ev2)
        end
    | (Err e, s1, ev1) => (Err e, s1, ev1)
    end.

Declare Scope M_scope.
Delimit Scope M_scope with M.
Notation "x <- m ;; k" := (bind m (fun x => k))
  (at level 100, m at next level, right associativity) : M_scope.
Notation "m ;;; k" := (bind m (fun _ => k))
  (at level 100, right associativity) : M_scope.
Open Scope M_scope.

Definition result_of {A} (x : Result A * Store * list Event) : Result A := x.1.1.
Definition store_of {A} (x : Result A * Store * list Event) : Store := x.1.2.
Definition events_of {A} (x : Result A * Store * list Event) : list Event := x.2.

(** One outside call: log it, then hand its outcome to the callback. *)
Definition call {A} (e : Event) (r : Result A) : M A :=
  fun s => (r, s, [e]).

(** [async.map(coll, iteratee, cb)]: the results come back in the order of
    [coll]; the first error is the error of the whole.  The iteratees are run
    one after the other here, which is the schedule [async] follows when
    every callback fires in turn. *)
Fixpoint async_map {A B} (iteratee : A -> M B) (coll : list A) : M (list B) :=
  match coll with
  | [] => ret []
  | x :: rest =>
      y <- iteratee x ;;
      ys <- async_map iteratee rest ;;
      ret (y :: ys)
  end.

(** [async.eachSeries(coll, iteratee, cb)]: strictly one at a time, stopping
    at the first error. *)
Fixpoint async_eachSeries {A} (iteratee : A -> M unit) (coll : list A) : M unit :=
  match coll with
  | [] => ret tt
  | x :: rest => iteratee x ;;; async_eachSeries iteratee rest
  end.

(** [coll.forEach(x => ...)] over a body that mutates the state [S]. *)
Fixpoint forEach {A S} (body : S -> A -> M S) (coll : list A) (st : S) : M S :=
  match coll with
  | [] => ret st
  | x :: rest => st' <- body st x ;; forEach body rest st'
  end.

(** ** String helpers the module relies on *)

(** [s.split(',')] for a single-character separator: always at least one
    piece, empty pieces kept. *)
Fixpoint js_split (sep : ascii) (s : string) : list string :=
  match s with
  | EmptyString => [EmptyString]
  | String c rest =>
      if Ascii.eqb c sep then EmptyString :: js_split sep rest
      else match js_split sep rest with
           | [] => [String c EmptyString]
           | piece :: pieces => String c piece :: pieces
           end
  end.

(** [pieces.join(sep)] *)
Fixpoint js_join (sep : string) (pieces : list string) : string :=
  match pieces with
  | [] => ""
  | [p] => p
  | p :: rest => p +:+ sep +:+ js_join sep rest
  end.

Definition CR : ascii := ascii_of_nat 13.
Definition LF : ascii := ascii_of_nat 10.

(** [s.replace(/\r?\n/g, '\r\n')]: DOS line ends everywhere. *)
Fixpoint crlf (s : string) : string :=
  match s with
  | EmptyString => EmptyString
  | String c rest =>
      if Ascii.eqb c LF then String CR (String LF (crlf rest))
      else if Ascii.eqb c CR then
        match rest with
        | String c' rest' =>
            if Ascii.eqb c' LF then String CR (String LF (crlf rest'))
            else String c (crlf rest)
        | EmptyString => String c EmptyString
        end
      else String c (crlf rest)
  end.

(** [line.indexOf(needle)], with [None] for [-1]. *)
Definition indexOf (needle line : string) : option nat :=
  String.index 0 needle line.

(** The [.some(line => ...)] scan of [readTemplates]: the column of the
    first [{fileDesc}], [0] when there is none. *)
Fixpoint findDescIndent (lines : list string) : Z :=
  match lines with
  | [] => 0
  | line :: rest =>
      match indexOf "{fileDesc}" line with
      | Some pos => Z.of_nat pos
      | None => findDescIndent rest
      end
  end.

(** [arr.slice(0, e)] for an integer [e]: a negative [e] counts from the
    end. *)
Definition js_slice0 {A} (arr : list A) (e : Z) : list A :=
  let len := Z.of_nat (length arr) in
  let k := if e <? 0 then Z.max (len + e) 0 else Z.min e len in
  take (Z.to_nat k) arr.

(** JavaScript numbers are IEEE-754 doubles.  The numbers the module adds
    are integers (array lengths, byte sizes and their sums); they are kept
    in [Z], and [to_double] is the rounding a double operation ends with:
    an integer below 2^53 in magnitude is a double as it is, a larger one is
    rounded to 53 significant bits, to the nearest, ties to even.  (Finite
    doubles only: magnitudes from 2^1024 on are not modelled.) *)
Definition to_double (z : Z) : Z :=
  let a := Z.abs z in
  if a <? 2 ^ 53 then z
  else
    let e := Z.log2 a - 52 in
    let q := Z.shiftr a e in
    let r := Z.land a (Z.ones e) in
    let half := Z.shiftl 1 (e - 1) in
    let q' := if r <? half then q
              else if half <? r then q + 1
              else if Z.even q then q else q + 1 in
    Z.sgn z * Z.shiftl q' e.

(** [x + y] on numbers. *)
Definition js_add (x y : Z) : Z := to_double (x + y).

(** [Number.MAX_SAFE_INTEGER]: up to here sums of non-negative integers are
    exact. *)
Definition MAX_SAFE_INTEGER : Z := 2 ^ 53 - 1.

(** [formatObj[key] += n] on a numeric field. *)
Definition plus_assign (key : string) (n : Z) (formatObj : FormatObj) : FormatObj :=
  match formatObj !! key with
  | Some (VNum m) => <[key := VNum (js_add m n)]> formatObj
  | _ => <[key := VUndef]> formatObj
  end.

(** [formatObj[key] > 0] *)
Definition num_gt0 (key : string) (formatObj : FormatObj) : bool :=
  match formatObj !! key with
  | Some (VNum m) => 0 <? m
  | _ => false
  end.

(** ** The event handler *)

Section LatestFilesAnnounce.

Variable E : Env.

Definition STAT_KEY_LAST_TS : string := "latest_files_announce_evt__last_timestamp".

Definition TEMPLATE_NAMES : list (Options.t -> string) :=
  [ Options.header; Options.areaHeader; Options.entry;
    Options.areaFooter; Options.footer ].

(** *** Primitives: the calls into node and the ENiGMA½ core *)

Definition readFile (path : string) : M string :=
  call (EvReadFile path) (fs_readFile E path).

Definition getSystemStat (key : string) : M (option string) :=
  fun s => (Ok (systemStats s !! key), s, [EvGetSystemStat key]).

Definition setSystemStat (key value : string) : M unit :=
  fun s => (Ok tt, mkStore (<[key := value]> (systemStats s)) (msgBase s),
            [EvSetSystemStat key value]).

Definition getAreas : M (list Area.t) :=
  call EvGetAreas (Ok (getSortedAvailableFileAreas E)).

Definition FileEntry_findFiles (newerThanTimestamp areaTag : string) : M (list Z) :=
  call (EvFindFiles newerThanTimestamp areaTag)
       (findFiles E newerThanTimestamp areaTag).

Definition FileEntry_load (fileId : Z) : M FileEntry.t :=
  call (EvLoadFile fileId) (loadFile E fileId).

Definition ansiPrep (input : option string) (cols indent : Z)
  : M (option Error * option string) :=
  call (EvAnsiPrep input cols indent) (Ok (AnsiPrep E input cols indent)).

Definition format (template : string) (formatObj : FormatObj) : M string :=
  call (EvStringFormat template formatObj) (Ok (stringFormat E template formatObj)).

Definition persist (msg : Message.t) : M unit :=
  fun s =>
    match persistMessage E (msgBase s) msg with
    | None => (Ok tt, mkStore (systemStats s) (msgBase s ++ [msg]),
               [EvPersistMessage msg])
    | Some e => (Err e, s, [EvPersistMessage msg])
    end.

Definition resolve (p : string) : string :=
  if path_isAbsolute E p then p else path_join E (dirname E) p.

(** *** Stage 1: [loadOptions] *)

Definition optionsPath (args : list string) : string :=
  match args with
  | _ :: p :: _ => resolve p
  | _ => path_join E (dirname E) "options.hjson"
  end.

Definition withDefaults (o : RawOptions.t) : Options.t :=
  let tsFormat := or_str (RawOptions.tsFormat o) "ddd, MMMM Do, YYYY" in
  Options.mk
    (or_str (RawOptions.areaTagsRegEx o) "^(?!uploads).*$")
    (or_num (RawOptions.maxFilesPerArea o) 20)
    (or_num (RawOptions.postMaxSizeTarget o) 512000)
    (or_str (RawOptions.header o) "LFASTAR.ASC")
    (or_str (RawOptions.areaHeader o) "LFAASTAR.ASC")
    (or_str (RawOptions.areaFooter o) "LFAAEND.ASC")
    (or_str (RawOptions.entry o) "LFAENTRY.ASC")
    (or_str (RawOptions.footer o) "LFAEND.ASC")
    (or_str (RawOptions.to o) "All")
    (or_str (RawOptions.from o) "ENiGMA-Bot")
    tsFormat
    (moment_now_format E tsFormat)
    (or_str (RawOptions.subjectFormat o) "New files on {boardName}")
    (or_str (RawOptions.templateEncoding o) "utf8")
    (RawOptions.sinceTs o).

Definition loadOptions (args : list string) : M Options.t :=
  fun s =>
    let path := optionsPath args in
    let ev := [EvReadFile path] in
    match fs_readFile E path with
    | Err err =>
        if negb (String.eqb "ENOENT" (err_code err)) then (Err err, s, ev)
        else (Ok (withDefaults RawOptions.empty), s, ev)
    | Ok optionsData =>
        if truthy_str optionsData then
          match hjson_parse E optionsData with
          | Err e => (Err e, s, ev)
          | Ok options => (Ok (withDefaults options), s, ev)
          end
        else (Ok (withDefaults RawOptions.empty), s, ev)
    end.

(** *** Stage 2: [readTemplates] *)

Definition readTemplate (options : Options.t) (templateName : Options.t -> string)
  : M string :=
  readFile (resolve (templateName options)).

Definition readTemplates (options : Options.t)
  : M (Options.t * list string * Z) :=
  fun s =>
    match async_map (readTemplate options) TEMPLATE_NAMES s with
    | (Err err, s1, ev) => (Err (General (err_message err)), s1, ev)
    | (Ok templates, s1, ev) =>
        let templates :=
          map (fun tmp => crlf (iconv_decode E tmp (Options.templateEncoding options)))
              templates in
        let descIndent := findDescIndent (splitTextAtTerms E (templates !!! 2%nat)) in
        (Ok (options, templates, descIndent), s1, ev)
    end.

(** *** Stage 3: [findNewFiles] *)

(** The iteratee of the inner [async.map]: load one file, add its size to
    the closure variable [areaFileBytes], clean its description. *)
Definition loadFileInfo (descIndent : Z) (fileId : Z) (areaFileBytes : Z)
  : M (FileEntry.t * Z) :=
  fileInfo <- FileEntry_load fileId ;;
  let areaFileBytes :=
    js_add areaFileBytes (FileEntry.byte_size (FileEntry.meta fileInfo)) in
  r <- ansiPrep (FileEntry.desc fileInfo) (79 - descIndent) descIndent ;;
  let desc := r.2 in
  let fileInfo :=
    if truthy_ostr desc then FileEntry.set_desc (default "" desc) fileInfo
    else fileInfo in
  ret (fileInfo, areaFileBytes).

(** The inner [async.map] over the capped ids, with [areaFileBytes]
    threaded through the iteratees. *)
Fixpoint loadFileInfos (descIndent : Z) (fileIds : list Z) (areaFileBytes : Z)
  : M (list FileEntry.t * Z) :=
  match fileIds with
  | [] => ret ([], areaFileBytes)
  | fileId :: rest =>
      r <- loadFileInfo descIndent fileId areaFileBytes ;;
      rs <- loadFileInfos descIndent rest r.2 ;;
      ret (r.1 :: rs.1, rs.2)
  end.

Definition remainingOf (fileIds : list Z) (maxFilesPerArea : Z) : Z :=
  let n := Z.of_nat (length fileIds) in
  if n >? maxFilesPerArea then n - maxFilesPerArea else 0.

(** The iteratee of the outer [async.map]: one area. *)
Definition scanArea (options : Options.t) (descIndent : Z) (lastTimestamp : string)
           (area : Area.t) : M AreaFiles.t :=
  fileIds <- FileEntry_findFiles lastTimestamp (Area.areaTag area) ;;
  let remainingFiles := remainingOf fileIds (Options.maxFilesPerArea options) in
  r <- loadFileInfos descIndent
         (js_slice0 fileIds (Options.maxFilesPerArea options)) 0 ;;
  ret (AreaFiles.mk area r.1 r.2 remainingFiles).

Definition findNewFiles (options : Options.t) (templates : list string) (descIndent : Z)
  : M (Options.t * list string * list AreaFiles.t * Z) :=
  lastTimestamp <- getSystemStat STAT_KEY_LAST_TS ;;
  setSystemStat STAT_KEY_LAST_TS (getISOTimestampString E) ;;;
  if negb (truthy_ostr lastTimestamp) then
    throw (General "Last timestamp not set; Set to now for next event run time")
  else
    let lastTimestamp := default "" lastTimestamp in
    let options :=
      Options.set_sinceTs (moment_format E lastTimestamp (Options.tsFormat options))
                          options in
    areas <- getAreas ;;
    let allAreas :=
      filter (fun area => Is_true (regex_match E (Area.areaTag area)
                                               (Options.areaTagsRegEx options)))
             areas in
    allAreasFiles <- async_map (scanArea options descIndent lastTimestamp) allAreas ;;
    ret (options, templates, allAreasFiles, descIndent).

(** *** Stage 4: [buildMessages] *)

Definition initialFormatObj (options : Options.t) : FormatObj :=
  <["totalFileBytes" := VNum 0]>
  (<["totalFileCount" := VNum 0]>
  (<["sinceTs" := from_option VStr VUndef (Options.sinceTs options)]>
  (<["nowTs" := VStr (Options.nowTs options)]>
  (<["boardName" := VStr (boardName E)]> ∅)))).

(** The assignments made for one area before its header is formatted. *)
Definition setAreaFields (areaInfo : AreaFiles.t) (formatObj : FormatObj) : FormatObj :=
  let areaFiles := AreaFiles.files areaInfo in
  <["areaDesc" := VStr (Area.desc (AreaFiles.areaInfo areaInfo))]>
  (<["areaName" := VStr (Area.name (AreaFiles.areaInfo areaInfo))]>
  (plus_assign "totalFileBytes" (AreaFiles.areaFileBytes areaInfo)
  (plus_assign "totalFileCount" (Z.of_nat (length areaFiles))
  (<["areaFileBytes" := VNum (AreaFiles.areaFileBytes areaInfo)]>
  (<["areaRemainingFiles" := VNum (AreaFiles.remainingFiles areaInfo)]>
  (<["areaFileCount" := VNum (Z.of_nat (length areaFiles))]> formatObj)))))).

(** The assignments made for one file before its entry is formatted. *)
Definition setFileFields (fileInfo : FileEntry.t) (formatObj : FormatObj) : FormatObj :=
  let meta := FileEntry.meta fileInfo in
  <["fileHashTags" := VStr (js_join ", " (FileEntry.hashTags fileInfo))]>
  (<["fileUploadTs" := VStr (FileEntry.uploadTimestamp fileInfo)]>
  (<["uploadBy" := VStr (or_str (FileEntry.upload_by_username meta) "N/A")]>
  (<["fileSha1" := FileEntry.file_sha1 meta]>
  (<["fileMd5" := FileEntry.file_md5 meta]>
  (<["fileCrc32" := FileEntry.file_crc32 meta]>
  (<["fileSha256" := VStr (FileEntry.fileSha256 fileInfo)]>
  (<["fileDesc" := VStr (or_str (FileEntry.desc fileInfo) "")]>
  (<["fileSize" := VNum (FileEntry.byte_size meta)]>
  (<["fileName" := VStr (FileEntry.fileName fileInfo)]> formatObj))))))))).

(** The render state: the one [formatObj] and the growing [msgBody]. *)
Definition renderEntry (templates : list string) (st : FormatObj * string)
           (fileInfo : FileEntry.t) : M (FormatObj * string) :=
  let formatObj := setFileFields fileInfo st.1 in
  text <- format (templates !!! 2%nat) formatObj ;;
  ret (formatObj, st.2 +:+ text).

Definition renderArea (templates : list string) (st : FormatObj * string)
           (areaInfo : AreaFiles.t) : M (FormatObj * string) :=
  let areaFiles := AreaFiles.files areaInfo in
  if (0 =? Z.of_nat (length areaFiles)) then ret st
  else
    let formatObj := setAreaFields areaInfo st.1 in
    text <- format (templates !!! 1%nat) formatObj ;;
    st <- forEach (renderEntry templates) areaFiles (formatObj, st.2 +:+ text) ;;
    text <- format (templates !!! 3%nat) st.1 ;;
    ret (st.1, st.2 +:+ text).

Definition mkMessage (options : Options.t) (msgBody : string)
           (subject : string) (areaTag : string) : Message.t :=
  Message.mk areaTag (Options.to options) (Options.from options)
             subject msgBody "cp437".

(** The iteratee of [async.eachSeries]: build one message, persist it. *)
Definition postTo (options : Options.t) (formatObj : FormatObj) (msgBody : string)
           (areaTag : string) : M unit :=
  subject <- format (Options.subjectFormat options) formatObj ;;
  persist (mkMessage options msgBody subject areaTag).

Definition buildMessages (args : list string) (options : Options.t)
           (templates : list string) (allFileInfos : list AreaFiles.t)
           (descIndent : Z) : M unit :=
  let formatObj := initialFormatObj options in
  msgBody <- format (templates !!! 0%nat) formatObj ;;
  st <- forEach (renderArea templates) allFileInfos (formatObj, msgBody) ;;
  text <- format (templates !!! 4%nat) st.1 ;;
  let formatObj := st.1 in
  let msgBody := st.2 +:+ text in
  if num_gt0 "totalFileCount" formatObj then
    let areaTags := js_split "," (args !!! 0%nat) in
    async_eachSeries (postTo options formatObj msgBody) areaTags
  else ret tt.

(** *** The waterfall *)

Definition latestFilesAnnounceEvent (args : list string) : M unit :=
  if (Z.of_nat (length args) <? 1) then
    throw (MissingParam "At least [areaTag] required in args")
  else
    options <- loadOptions args ;;
    r <- readTemplates options ;;
    let '(options, templates, descIndent) := r in
    r <- findNewFiles options templates descIndent ;;
    let '(options, templates, allAreasFiles, descIndent) := r in
    buildMessages args options templates allAreasFiles descIndent.

End LatestFilesAnnounce.

(** ** Classifying the calls *)

(** The catalog scan: area enumeration, file queries, file loads and the
    description clean-up done per loaded file. *)
Definition is_scan (e : Event) : bool :=
  match e with
  | EvGetAreas | EvFindFiles _ _ | EvLoadFile _ | EvAnsiPrep _ _ _ => true
  | _ => false
  end.

Definition is_stat (e : Event) : bool :=
  match e with
  | EvGetSystemStat _ | EvSetSystemStat _ _ => true
  | _ => false
  end.

Definition is_read (e : Event) : bool :=
  match e with
  | EvReadFile _ => true
  | _ => false
  end.

Definition is_render (e : Event) : bool :=
  match e with
  | EvStringFormat _ _ => true
  | _ => false
  end.

Definition is_persist (e : Event) : bool :=
  match e with
  | EvPersistMessage _ => true
  | _ => false
  end.

(** The messages handed to [persistMessage], in order. *)
Definition attempted (evs : list Event) : list Message.t :=
  omap (fun e => match e with EvPersistMessage m => Some m | _ => None end) evs.

(** The [stringFormat] calls, in order. *)
Definition formatted (evs : list Event) : list (string * FormatObj) :=
  omap (fun e => match e with EvStringFormat t fo => Some (t, fo) | _ => None end) evs.

Definition sumZ (l : list Z) : Z := foldr Z.add 0 l.

Definition fileBytes (f : FileEntry.t) : Z := FileEntry.byte_size (FileEntry.meta f).

(** Included files and bytes of a list of per-area results. *)
Definition includedCount (rs : list AreaFiles.t) : Z :=
  sumZ (map (fun r => Z.of_nat (length (AreaFiles.files r))) rs).

Definition includedBytes (rs : list AreaFiles.t) : Z :=
  sumZ (map (fun r => sumZ (map fileBytes (AreaFiles.files r))) rs).

(** ** Vocabulary of the statements *)

(** [frame I P m]: from any store, [m] ends in a store related to the
    initial one by [I], having made only calls that satisfy [P]. *)
Definition frame (I : Store -> Store -> Prop) (P : Event -> Prop) {A} (m : M A) : Prop :=
  forall s, I s (store_of (m s)) /\ Forall P (events_of (m s)).

(** The store relation of the delivery stage: the stat log is left alone. *)
Definition same_stats (s s' : Store) : Prop := systemStats s' = systemStats s.

(** Calls that produce the report or send it. *)
Definition is_output (e : Event) : bool := is_render e || is_persist e.

(** [sees key v e]: [e] is a [stringFormat] call whose context has [v]
    under [key]. *)
Definition sees (key : string) (v : JsVal) (e : Event) : Prop :=
  match e with
  | EvStringFormat _ fo => fo !! key = Some v
  | _ => False
  end.

(** The per-file assignments touch none of the area or total fields. *)
Definition is_file_key (k : string) : bool :=
  bool_decide (k ∈ ["fileName"; "fileSize"; "fileDesc"; "fileSha256"; "fileCrc32";
                    "fileMd5"; "fileSha1"; "uploadBy"; "fileUploadTs"; "fileHashTags"]).

(** The contexts the entry template is formatted against, file by file. *)
Fixpoint entryContexts (fo : FormatObj) (files : list FileEntry.t) : list FormatObj :=
  match files with
  | [] => []
  | f :: rest => setFileFields f fo :: entryContexts (setFileFields f fo) rest
  end.

(** [formatObj] once all entries of an area are done. *)
Definition afterEntries (fo : FormatObj) (files : list FileEntry.t) : FormatObj :=
  foldl (fun fo f => setFileFields f fo) fo files.

(** The calls made for one area that has files: header, one entry per
    file, footer. *)
Definition areaBlock (T : list string) (fo : FormatObj) (r : AreaFiles.t) : list Event :=
  let fo1 := setAreaFields r fo in
  EvStringFormat (T !!! 1%nat) fo1
    :: map (EvStringFormat (T !!! 2%nat)) (entryContexts fo1 (AreaFiles.files r))
    ++ [EvStringFormat (T !!! 3%nat) (afterEntries fo1 (AreaFiles.files r))].

(** Numbers added one after the other, from [0], as the module adds them. *)
Definition js_sum (l : list Z) : Z := foldl js_add 0 l.

(** [areaFileBytes] is what adding up the sizes of the files listed with it
    gives; this is what [findNewFiles] hands over. *)
Definition bytes_consistent (r : AreaFiles.t) : Prop :=
  AreaFiles.areaFileBytes r = js_sum (map fileBytes (AreaFiles.files r)).

(** Sizes that JavaScript adds exactly: none negative, and the sum within
    the safe integer range. *)
Definition safe_sizes (files : list FileEntry.t) : Prop :=
  Forall (fun f => 0 <= fileBytes f) files
  /\ sumZ (map fileBytes files) <= MAX_SAFE_INTEGER.

(** The same for the per-area results of a run: no negative size, and both
    the number of listed files and their bytes within the safe range. *)
Definition safe_totals (rs : list AreaFiles.t) : Prop :=
  Forall (fun r => Forall (fun f => 0 <= fileBytes f) (AreaFiles.files r)) rs
  /\ includedCount rs <= MAX_SAFE_INTEGER
  /\ includedBytes rs <= MAX_SAFE_INTEGER.

(** An area that lists at least one file. *)
Definition lists_files (r : AreaFiles.t) : Prop := AreaFiles.files r <> [].

(** What the [AnsiPrep] callback leaves in [fileInfo]. *)
Definition cleaned (E : Env) (d : Z) (f : FileEntry.t) : FileEntry.t :=
  let desc := (AnsiPrep E (FileEntry.desc f) (79 - d) d).2 in
  if truthy_ostr desc then FileEntry.set_desc (default "" desc) f else f.

(** A file that made it into an area's list: loaded from the catalog id,
    then cleaned. *)
Definition loaded_from (E : Env) (d : Z) (fileId : Z) (info : FileEntry.t) : Prop :=
  exists f, loadFile E fileId = Ok f /\ info = cleaned E d f.

(** The store in which the scan runs: the checkpoint already advanced. *)
Definition advanced (E : Env) (s : Store) : Store :=
  mkStore (<[STAT_KEY_LAST_TS := getISOTimestampString E]> (systemStats s)) (msgBase s).

(** The areas the scan goes through: those whose tag matches the pattern. *)
Definition scannedAreas (E : Env) (options : Options.t) : list Area.t :=
  filter (fun area => Is_true (regex_match E (Area.areaTag area)
                                           (Options.areaTagsRegEx options)))
         (getSortedAvailableFileAreas E).

(** The error of a run that finds no checkpoint. *)
Definition NOT_SET : Error :=
  General "Last timestamp not set; Set to now for next event run time".

(** The [AnsiPrep] callback reports a failure in node's way: an error and
    no text. *)
Definition reflow_failed (r : option Error * option string) : Prop :=
  is_Some r.1 /\ r.2 = None.

(** The [AnsiPrep] callback hands back no text or empty text. *)
Definition reflow_empty (r : option Error * option string) : Prop :=
  truthy_ostr r.2 = false.

(** The arguments are there and the first two stages succeed. *)
Definition reaches_scan (E : Env) (args : list string) (s : Store) : bool :=
  negb (Z.of_nat (length args) <? 1)
  && match result_of (loadOptions E args s) with
     | Ok options =>
         match result_of (readTemplates E options s) with
         | Ok _ => true
         | Err _ => false
         end
     | Err _ => false
     end.

(** The three ways the first two stages fail. *)
Definition options_unreadable (E : Env) (args : list string) : Prop :=
  exists err, fs_readFile E (optionsPath E args) = Err err
              /\ err_code err <> "ENOENT".

Definition options_malformed (E : Env) (args : list string) : Prop :=
  exists data e, fs_readFile E (optionsPath E args) = Ok data
                 /\ truthy_str data = true
                 /\ hjson_parse E data = Err e.

Definition template_unreadable (E : Env) (options : Options.t) : Prop :=
  exists templateName e,
    templateName ∈ TEMPLATE_NAMES
    /\ fs_readFile E (resolve E (templateName options)) = Err e.

(** Whether a string has the character [c] in it. *)
Fixpoint contains (c : ascii) (s : string) : bool :=
  match s with
  | EmptyString => false
  | String c' rest => Ascii.eqb c' c || contains c rest
  end.

(** The calls made to deliver [msgs]: for each, the subject is formatted,
    then the message is handed to the message base. *)
Definition deliveryCalls (options : Options.t) (fo : FormatObj)
           (msgs : list Message.t) : list Event :=
  flat_map (fun msg => [EvStringFormat (Options.subjectFormat options) fo;
                        EvPersistMessage msg]) msgs.

(** ** A small board to run the handler on *)

Module Demo.

Definition NOW : string := "2017-02-02T03:30:00.000Z".
Definition LAST : string := "2017-02-01T03:30:00.000Z".

Definition areas : list Area.t :=
  [ Area.mk "games" "Games" "DOS games";
    Area.mk "utils" "Utilities" "Tools";
    Area.mk "uploads" "Uploads" "Unsorted" ].

Definition file (fileId : Z) : FileEntry.t :=
  FileEntry.mk fileId "FILE.ZIP" (if fileId =? 0 then None else Some "A file")
    "sha256" LAST ["dos"; "zip"]
    (FileEntry.mkMeta (100 * fileId) (VStr "crc") VUndef VUndef None).

(** A board whose catalog returns [newIds areaTag] as the new files of an
    area, whose options.hjson parses to [raw] (or is absent), whose
    template [missing] cannot be read, and whose message base refuses the
    messages for area tag [refused]. *)
Definition board (newIds : string -> list Z) (raw : option RawOptions.t)
           (missing refused : string) : Env :=
  {| dirname := "/mods/lfa";
     path_isAbsolute := fun p => String.prefix "/" p;
     path_join := fun a b => a +:+ "/" +:+ b;
     fs_readFile := fun p =>
       if String.eqb p "/mods/lfa/options.hjson" then
         match raw with
         | Some _ => Ok "{ }"
         | None => Err (HostError "ENOENT" "no such file or directory")
         end
       else if String.eqb p ("/mods/lfa/" +:+ missing) then
         Err (HostError "ENOENT" "no such file or directory")
       else Ok ("<" +:+ p +:+ ">  {fileDesc}");
     hjson_parse := fun data =>
       match raw with
       | Some o => Ok o
       | None => Err (HostError "" "unexpected end of input")
       end;
     moment_now_format := fun _ => "Thu, February 2nd, 2017";
     moment_format := fun ts _ => ts;
     getISOTimestampString := NOW;
     iconv_decode := fun bytes _ => bytes;
     splitTextAtTerms := fun text => [text];
     boardName := "Demo BBS";
     getSortedAvailableFileAreas := areas;
     regex_match := fun tag _ => negb (String.prefix "uploads" tag);
     findFiles := fun _ tag => Ok (newIds tag);
     loadFile := fun fileId =>
       if fileId <? 0 then Err (HostError "" "No file entry found")
       else Ok (file fileId);
     AnsiPrep := fun input _ _ =>
       match input with
       | Some text => (None, Some text)
       | None => (Some (HostError "" "no input"), None)
       end;
     stringFormat := fun template _ => template;
     persistMessage := fun _ msg =>
       if String.eqb (Message.areaTag msg) refused
       then Some (HostError "" "Invalid area tag")
       else None |}.

Definition threeInGames (areaTag : string) : list Z :=
  if String.eqb areaTag "games" then [1; 2; 3] else [].

Definition gamesAndUtils (areaTag : string) : list Z :=
  if String.eqb areaTag "games" then [1; 2; 3]
  else if String.eqb areaTag "utils" then [4] else [].

Definition nothingNew (areaTag : string) : list Z := [].

Definition capTwo : RawOptions.t :=
  RawOptions.mk None (Some 2) None None None None None None None None None None None
                None.

Definition capMinusOne : RawOptions.t :=
  RawOptions.mk None (Some (-1)) None None None None None None None None None None None
                None.

(** A fresh board: no stats yet, an empty message base. *)
Definition fresh : Store := mkStore ∅ [].

(** A board that has run the event before. *)
Definition seasoned : Store := mkStore {[ STAT_KEY_LAST_TS := LAST ]} [].

End Demo.

(** ** Vocabulary of the further properties *)

(** Every LF of the text comes right after a CR; [prevCR] tells whether the
    character before the text was a CR. *)
Fixpoint dos_lines_from (prevCR : bool) (s : string) : bool :=
  match s with
  | EmptyString => true
  | String c rest =>
      if Ascii.eqb c LF then prevCR && dos_lines_from false rest
      else dos_lines_from (Ascii.eqb c CR) rest
  end.

Definition dos_lines (s : string) : bool := dos_lines_from false s.

(** How many times the character [c] occurs in [s]. *)
Fixpoint count_char (c : ascii) (s : string) : nat :=
  match s with
  | EmptyString => 0%nat
  | String c' rest => ((if Ascii.eqb c' c then 1 else 0) + count_char c rest)%nat
  end.

(** What a call made while scanning one area looks like: the query is for
    this area and the given timestamp, a load is for an id of the capped
    slice of the query's answer, a description clean-up uses the given
    indent. *)
Definition scan_call (E : Env) (options : Options.t) (d : Z) (ts : string)
           (area : Area.t) (e : Event) : Prop :=
  match e with
  | EvFindFiles t tag => t = ts /\ tag = Area.areaTag area
  | EvLoadFile fileId =>
      exists fileIds,
        findFiles E ts (Area.areaTag area) = Ok fileIds
        /\ fileId ∈ js_slice0 fileIds (Options.maxFilesPerArea options)
  | EvAnsiPrep _ cols indent => indent = d /\ cols = 79 - d
  | _ => False
  end.

(** The same for a whole run: whatever scan call is made belongs to some
    scanned area; calls that are not part of the scan are not constrained. *)
Definition run_scan_call (E : Env) (options : Options.t) (d : Z) (ts : string)
           (e : Event) : Prop :=
  is_scan e = true ->
  e = EvGetAreas
  \/ exists area, area ∈ scannedAreas E options /\ scan_call E options d ts area e.

(** The texts [stringFormat] returns for a sequence of calls, one after
    the other. *)
Definition textOf (E : Env) (calls : list (string * FormatObj)) : string :=
  foldr (fun c text => stringFormat E c.1 c.2 +:+ text) "" calls.

(** The keys assigned once per area. *)
Definition is_area_key (k : string) : bool :=
  bool_decide (k ∈ ["areaFileCount"; "areaRemainingFiles"; "areaFileBytes";
                    "totalFileCount"; "totalFileBytes"; "areaName"; "areaDesc"]).

(** What a call of the delivery looks like: the subject is formatted against
    [fo], or a message with the given body is handed over for one of the
    destination tags. *)
Definition delivery_call (E : Env) (options : Options.t) (fo : FormatObj)
           (msgBody : string) (tags : list string) (e : Event) : Prop :=
  match e with
  | EvStringFormat template formatObj =>
      template = Options.subjectFormat options /\ formatObj = fo
  | EvPersistMessage msg =>
      exists tag,
        tag ∈ tags
        /\ msg = mkMessage options msgBody
                          (stringFormat E (Options.subjectFormat options) fo) tag
  | _ => False
  end.

(** A board like [E], but whose every file reads as a text that the
    options parser rejects. *)
Definition withBrokenOptions (E : Env) : Env :=
  mkEnv (dirname E) (path_isAbsolute E) (path_join E)
        (fun _ => Ok "{ maxFilesPerArea: ")
        (fun _ => Err (HostError "" "End of input while parsing a value"))
        (moment_now_format E) (moment_format E) (getISOTimestampString E)
        (iconv_decode E) (splitTextAtTerms E) (boardName E)
        (getSortedAvailableFileAreas E) (regex_match E) (findFiles E) (loadFile E)
        (AnsiPrep E) (stringFormat E) (persistMessage E).

(** A board like [E], but whose description reflow always fails: an
    error and no text, whatever it is given. *)
Definition withFailingPrep (E : Env) : Env :=
  mkEnv (dirname E) (path_isAbsolute E) (path_join E) (fs_readFile E) (hjson_parse E)
        (moment_now_format E) (moment_format E) (getISOTimestampString E)
        (iconv_decode E) (splitTextAtTerms E) (boardName E)
        (getSortedAvailableFileAreas E) (regex_match E) (findFiles E) (loadFile E)
        (fun _ _ _ => (Some (HostError "" "Reflow failed"), None))
        (stringFormat E) (persistMessage E).

(** The totals an accumulation in area-then-entry order would show at the
    [j]-th entry of area [r], with [before] the areas rendered before it:
    what those areas list, and the files of [r] up to and including that
    entry. *)
Definition entryOrderCount (before : list AreaFiles.t) (j : nat) : Z :=
  includedCount before + Z.of_nat (S j).

Definition entryOrderBytes (before : list AreaFiles.t) (r : AreaFiles.t) (j : nat) : Z :=
  includedBytes before + sumZ (map fileBytes (take (S j) (AreaFiles.files r))).

(** A file record that is loaded has its description cleaned, with the
    indent and the width of the run. *)
Definition load_then_prep (E : Env) (d : Z) (e e' : Event) : Prop :=
  exists fileId f, e = EvLoadFile fileId /\ loadFile E fileId = Ok f
                   /\ e' = EvAnsiPrep (FileEntry.desc f) (79 - d) d.

(** * Proofs *)

(** ** Running the monad *)

Lemma bind_run_Ok {A B} (m : M A) (k : A -> M B) s a s1 ev1 r s2 ev2 :
  m s = (Ok a, s1, ev1) -> k a s1 = (r, s2, ev2) ->
  bind m k s = (r, s2, ev1 ++ ev2).
Proof. intros Hm Hk. unfold bind. by rewrite Hm, Hk. Qed.

Lemma bind_ret_run {A B} (m : M A) (f : A -> B) s a s1 ev1 :
  m s = (Ok a, s1, ev1) -> bind m (fun x => ret (f x)) s = (Ok (f a), s1, ev1).
Proof. intros Hm. unfold bind, ret. by rewrite Hm, app_nil_r. Qed.

Lemma attempted_app evs1 evs2 :
  attempted (evs1 ++ evs2) = attempted evs1 ++ attempted evs2.
Proof. apply omap_app. Qed.

Lemma attempted_none evs :
  Forall (fun e => is_persist e = false) evs -> attempted evs = [].
Proof.
  induction 1 as [|e evs He _ IH]; [done|].
  destruct e; try discriminate He; exact IH.
Qed.

Lemma formatted_app evs1 evs2 :
  formatted (evs1 ++ evs2) = formatted evs1 ++ formatted evs2.
Proof. apply omap_app. Qed.

Lemma formatted_cons t fo evs :
  formatted (EvStringFormat t fo :: evs) = (t, fo) :: formatted evs.
Proof. reflexivity. Qed.

Lemma formatted_map t fos :
  formatted (map (EvStringFormat t) fos) = map (pair t) fos.
Proof. induction fos as [|fo fos IH]; [done|]. simpl. by rewrite <- IH. Qed.

(** *** Numbers: where the sums are exact *)

Lemma to_double_exact z : 0 <= z <= MAX_SAFE_INTEGER -> to_double z = z.
Proof.
  intros Hz. unfold to_double, MAX_SAFE_INTEGER in *. cbn zeta.
  replace (Z.abs z <? 2 ^ 53) with true; [done|].
  symmetry. apply Z.ltb_lt. lia.
Qed.

Lemma to_double_pos z : 0 < z -> 0 < to_double z.
Proof.
  intros Hz. unfold to_double. cbn zeta.
  destruct (Z.abs z <? 2 ^ 53) eqn:Hsmall; [done|].
  apply Z.ltb_ge in Hsmall. rewrite Z.abs_eq in * by lia.
  rewrite (Z.sgn_pos z) by lia. rewrite Z.mul_1_l.
  assert (Hlog : 53 <= Z.log2 z) by (apply Z.log2_le_pow2; lia).
  set (e := Z.log2 z - 52) in *.
  assert (He : 0 <= e) by lia.
  assert (Hq : 0 < Z.shiftr z e).
  { rewrite Z.shiftr_div_pow2 by done. apply Z.div_str_pos. split; [lia|].
    etrans; [|apply Z.log2_spec; lia]. apply Z.pow_le_mono_r; lia. }
  rewrite Z.shiftl_mul_pow2 by done.
  apply Z.mul_pos_pos; [|lia].
  repeat match goal with |- context [if ?b then _ else _] => destruct b end; lia.
Qed.

Lemma js_add_exact x y :
  0 <= x -> 0 <= y -> x + y <= MAX_SAFE_INTEGER -> js_add x y = x + y.
Proof. intros. apply to_double_exact. lia. Qed.

Lemma js_add_nonneg x y : 0 <= x -> 0 <= y -> 0 <= js_add x y.
Proof.
  intros Hx Hy. unfold js_add.
  destruct (Z.eq_dec (x + y) 0) as [->|Hne]; [done|].
  apply Z.lt_le_incl, to_double_pos. lia.
Qed.

Lemma js_add_pos x y : 0 <= x -> 0 <= y -> 0 < x + y -> 0 < js_add x y.
Proof. intros. by apply to_double_pos. Qed.

Lemma sumZ_nonneg l : Forall (fun n => 0 <= n) l -> 0 <= sumZ l.
Proof. induction 1; simpl; lia. Qed.

Lemma foldl_js_add_exact l :
  forall acc, 0 <= acc -> Forall (fun n => 0 <= n) l ->
    acc + sumZ l <= MAX_SAFE_INTEGER -> foldl js_add acc l = acc + sumZ l.
Proof.
  induction l as [|n l IH]; intros acc Hacc Hl Hsum; simpl in *; [lia|].
  apply Forall_cons in Hl as [Hn Hl]. pose proof (sumZ_nonneg l Hl).
  rewrite js_add_exact by lia. rewrite IH; [lia|lia|done|lia].
Qed.

Lemma js_sum_exact l :
  Forall (fun n => 0 <= n) l -> sumZ l <= MAX_SAFE_INTEGER -> js_sum l = sumZ l.
Proof. intros Hl Hsum. unfold js_sum. by rewrite foldl_js_add_exact. Qed.

Lemma safe_sizes_sum (files : list FileEntry.t) :
  safe_sizes files -> js_sum (map fileBytes files) = sumZ (map fileBytes files).
Proof.
  intros [Hpos Hsum]. apply js_sum_exact; [|done]. by apply Forall_fmap.
Qed.

Lemma includedCount_nonneg (rs : list AreaFiles.t) : 0 <= includedCount rs.
Proof. unfold includedCount. induction rs as [|r rs IH]; simpl; lia. Qed.

Lemma includedBytes_nonneg (rs : list AreaFiles.t) :
  Forall (fun r => Forall (fun f => 0 <= fileBytes f) (AreaFiles.files r)) rs ->
  0 <= includedBytes rs.
Proof.
  unfold includedBytes. induction 1 as [|r rs Hr _ IH]; simpl; [lia|].
  assert (0 <= sumZ (map fileBytes (AreaFiles.files r)))
    by (by apply sumZ_nonneg, Forall_fmap).
  lia.
Qed.

Lemma includedCount_app (rs1 rs2 : list AreaFiles.t) :
  includedCount (rs1 ++ rs2) = includedCount rs1 + includedCount rs2.
Proof.
  unfold includedCount. induction rs1 as [|r rs1 IH]; simpl; [done|].
  rewrite IH. lia.
Qed.

Lemma includedBytes_app (rs1 rs2 : list AreaFiles.t) :
  includedBytes (rs1 ++ rs2) = includedBytes rs1 + includedBytes rs2.
Proof.
  unfold includedBytes. induction rs1 as [|r rs1 IH]; simpl; [done|].
  rewrite IH. lia.
Qed.

(** *** Frames: what a computation leaves alone

    The rules below hold for any store relation that is reflexive and
    transitive. *)
Section Frames.

Variable I : Store -> Store -> Prop.
Hypothesis I_refl : forall s, I s s.
Hypothesis I_trans : forall s1 s2 s3, I s1 s2 -> I s2 s3 -> I s1 s3.

Variable P : Event -> Prop.

Lemma frame_ret {A} (a : A) : frame I P (ret a).
Proof. intros s. split; [apply I_refl | constructor]. Qed.

Lemma frame_throw {A} (e : Error) : frame I P (@throw A e).
Proof. intros s. split; [apply I_refl | constructor]. Qed.

Lemma frame_call {A} (e : Event) (r : Result A) : P e -> frame I P (call e r).
Proof. intros He s. split; [apply I_refl | by repeat constructor]. Qed.

Lemma frame_bind {A B} (m : M A) (k : A -> M B) :
  frame I P m -> (forall a, frame I P (k a)) -> frame I P (bind m k).
Proof.
  intros Hm Hk s. specialize (Hm s). unfold bind.
  destruct (m s) as [[[a|e] s1] ev1]; [|exact Hm].
  specialize (Hk a s1). destruct (k a s1) as [[r s2] ev2].
  unfold store_of, events_of in *. simpl in *.
  destruct Hm as [Hs1 Hev1], Hk as [Hs2 Hev2]. split.
  - by eapply I_trans.
  - by apply Forall_app.
Qed.

Lemma frame_async_map {A B} (f : A -> M B) (l : list A) :
  (forall a, frame I P (f a)) -> frame I P (async_map f l).
Proof.
  intros Hf. induction l as [|x l IH]; simpl.
  - apply frame_ret.
  - apply frame_bind; [apply Hf|]. intros y.
    apply frame_bind; [apply IH|]. intros ys. apply frame_ret.
Qed.

Lemma frame_async_eachSeries {A} (f : A -> M unit) (l : list A) :
  (forall a, frame I P (f a)) -> frame I P (async_eachSeries f l).
Proof.
  intros Hf. induction l as [|x l IH]; simpl.
  - apply frame_ret.
  - apply frame_bind; [apply Hf | intros _; apply IH].
Qed.

Lemma frame_forEach {A S} (body : S -> A -> M S) (l : list A) :
  (forall st a, frame I P (body st a)) -> forall st, frame I P (forEach body l st).
Proof.
  intros Hf. induction l as [|x l IH]; intros st; simpl.
  - apply frame_ret.
  - apply frame_bind; [apply Hf | intros st'; apply IH].
Qed.

End Frames.

Lemma frame_mono (I J : Store -> Store -> Prop) (P Q : Event -> Prop) {A} (m : M A) :
  (forall s s', I s s' -> J s s') -> (forall e, P e -> Q e) ->
  frame I P m -> frame J Q m.
Proof.
  intros HIJ HPQ Hm s. destruct (Hm s) as [Hs Hev]. split; [by apply HIJ|].
  eapply Forall_impl; eauto.
Qed.

Create HintDb frames.
#[local] Hint Resolve frame_ret frame_throw frame_call frame_bind
  frame_async_map frame_async_eachSeries frame_forEach : frames.

Lemma eq_trans_store (s1 s2 s3 : Store) : s1 = s2 -> s2 = s3 -> s1 = s3.
Proof. congruence. Qed.

Lemma same_stats_refl s : same_stats s s.
Proof. done. Qed.

Lemma same_stats_trans s1 s2 s3 :
  same_stats s1 s2 -> same_stats s2 s3 -> same_stats s1 s3.
Proof. unfold same_stats. congruence. Qed.

#[local] Hint Resolve eq_trans_store same_stats_refl same_stats_trans : frames.

(** One step of a frame proof: peel the outermost monadic operator. *)
Ltac frame_step :=
  lazymatch goal with
  | |- frame _ _ (bind _ _) =>
      apply frame_bind; [solve [eauto with frames] | | intros ?]
  | |- frame _ _ (ret _) => apply frame_ret; solve [eauto with frames]
  | |- frame _ _ (throw _) => apply frame_throw; solve [eauto with frames]
  | |- frame _ _ (call _ _) => apply frame_call; [solve [eauto with frames] | done]
  | |- frame _ _ (if ?b then _ else _) => destruct b
  | |- frame _ _ (match ?x with (_, _) => _ end) => destruct x
  end.

(** ** What each stage touches *)

Section StageFrames.

Variable E : Env.

Lemma frame_format t fo :
  frame eq (fun e => is_render e = true) (format E t fo).
Proof. unfold format. frame_step. Qed.

Lemma frame_readFile path :
  frame eq (fun e => is_read e = true) (readFile E path).
Proof. unfold readFile. frame_step. Qed.

Lemma frame_loadOptions args :
  frame eq (fun e => is_read e = true) (loadOptions E args).
Proof.
  intros s. unfold loadOptions, store_of, events_of.
  destruct (fs_readFile E _) as [data|err]; simpl.
  - destruct (truthy_str data); [destruct (hjson_parse E data)|];
      simpl; split; by repeat constructor.
  - destruct (negb _); simpl; split; by repeat constructor.
Qed.

Lemma frame_readTemplates options :
  frame eq (fun e => is_read e = true) (readTemplates E options).
Proof.
  intros s. unfold readTemplates.
  pose proof (frame_async_map eq (fun s => eq_refl) eq_trans_store
                (fun e => is_read e = true) (readTemplate E options)
                TEMPLATE_NAMES (fun tn => frame_readFile _) s) as H.
  destruct (async_map _ _ s) as [[[ts|e] s1] ev]; exact H.
Qed.

Lemma frame_loadFileInfo d fileId acc :
  frame eq (fun e => is_scan e = true) (loadFileInfo E d fileId acc).
Proof.
  unfold loadFileInfo, FileEntry_load, ansiPrep. repeat frame_step.
Qed.

Lemma frame_loadFileInfos d fileIds :
  forall acc, frame eq (fun e => is_scan e = true) (loadFileInfos E d fileIds acc).
Proof.
  induction fileIds as [|x l IH]; intros acc; simpl.
  - frame_step.
  - frame_step; [apply frame_loadFileInfo|]. frame_step; [apply IH|]. frame_step.
Qed.

Lemma frame_scanArea options d ts area :
  frame eq (fun e => is_scan e = true) (scanArea E options d ts area).
Proof.
  unfold scanArea, FileEntry_findFiles.
  frame_step; [frame_step|]. frame_step; [apply frame_loadFileInfos|]. frame_step.
Qed.

Lemma frame_renderEntry T st f :
  frame eq (fun e => is_render e = true) (renderEntry E T st f).
Proof. unfold renderEntry. frame_step; [apply frame_format | frame_step]. Qed.

Lemma frame_renderArea T st r :
  frame eq (fun e => is_render e = true) (renderArea E T st r).
Proof.
  unfold renderArea. frame_step; [frame_step|].
  frame_step; [apply frame_format|].
  frame_step; [apply frame_forEach; eauto using frame_renderEntry with frames|].
  frame_step; [apply frame_format | frame_step].
Qed.

Lemma frame_persist msg :
  frame same_stats (fun e => is_persist e = true) (persist E msg).
Proof.
  intros s. unfold persist, store_of, events_of.
  destruct (persistMessage E _ _); simpl; split; by repeat constructor.
Qed.

End StageFrames.

(** ** The render context *)

Section RenderContext.

Variable E : Env.

Lemma setFileFields_other f fo k :
  is_file_key k = false -> setFileFields f fo !! k = fo !! k.
Proof.
  unfold is_file_key. intros Hk%bool_decide_eq_false.
  unfold setFileFields.
  repeat (rewrite lookup_insert_ne; [|intros <-; apply Hk; set_solver]).
  done.
Qed.

Lemma setFileFields_fileSize f fo :
  setFileFields f fo !! "fileSize" = Some (VNum (fileBytes f)).
Proof.
  unfold setFileFields.
  repeat (rewrite lookup_insert_ne; [|done]).
  by rewrite lookup_insert_eq.
Qed.

Lemma plus_assign_eq k n fo m :
  fo !! k = Some (VNum m) -> plus_assign k n fo !! k = Some (VNum (js_add m n)).
Proof. intros H. unfold plus_assign. rewrite H. apply lookup_insert_eq. Qed.

Lemma plus_assign_ne k k' n fo :
  k ≠ k' -> plus_assign k n fo !! k' = fo !! k'.
Proof.
  intros H. unfold plus_assign.
  destruct (fo !! k) as [[]|]; by rewrite lookup_insert_ne.
Qed.

Lemma setAreaFields_count r fo c :
  fo !! "totalFileCount" = Some (VNum c) ->
  setAreaFields r fo !! "totalFileCount"
  = Some (VNum (js_add c (Z.of_nat (length (AreaFiles.files r))))).
Proof.
  intros H. unfold setAreaFields.
  rewrite !lookup_insert_ne by done.
  rewrite plus_assign_ne by done.
  apply plus_assign_eq. by rewrite !lookup_insert_ne.
Qed.

Lemma setAreaFields_bytes r fo b :
  fo !! "totalFileBytes" = Some (VNum b) ->
  setAreaFields r fo !! "totalFileBytes"
  = Some (VNum (js_add b (AreaFiles.areaFileBytes r))).
Proof.
  intros H. unfold setAreaFields.
  rewrite !lookup_insert_ne by done.
  apply plus_assign_eq. rewrite plus_assign_ne by done.
  by rewrite !lookup_insert_ne.
Qed.

Lemma setAreaFields_remaining r fo :
  setAreaFields r fo !! "areaRemainingFiles" = Some (VNum (AreaFiles.remainingFiles r)).
Proof.
  unfold setAreaFields.
  rewrite !lookup_insert_ne by done.
  rewrite !plus_assign_ne by done.
  rewrite lookup_insert_ne by done.
  apply lookup_insert_eq.
Qed.

Lemma initialFormatObj_count options :
  initialFormatObj E options !! "totalFileCount" = Some (VNum 0).
Proof.
  unfold initialFormatObj. rewrite lookup_insert_ne by done.
  apply lookup_insert_eq.
Qed.

Lemma initialFormatObj_bytes options :
  initialFormatObj E options !! "totalFileBytes" = Some (VNum 0).
Proof. unfold initialFormatObj. apply lookup_insert_eq. Qed.

Lemma length_entryContexts fo files :
  length (entryContexts fo files) = length files.
Proof. revert fo. induction files as [|f l IH]; intros fo; simpl; [done|]. by rewrite IH. Qed.

Lemma entryContexts_other files k :
  is_file_key k = false ->
  forall fo, Forall (fun fo' => fo' !! k = fo !! k) (entryContexts fo files).
Proof.
  intros Hk. induction files as [|f l IH]; intros fo; simpl; constructor.
  - by apply setFileFields_other.
  - eapply Forall_impl; [apply IH|]. simpl. intros fo' ->.
    by apply setFileFields_other.
Qed.

Lemma afterEntries_other files k :
  is_file_key k = false -> forall fo, afterEntries fo files !! k = fo !! k.
Proof.
  intros Hk. unfold afterEntries.
  induction files as [|f l IH]; intros fo; simpl; [done|].
  rewrite IH. by apply setFileFields_other.
Qed.

Lemma entryContexts_fileSize files :
  forall fo j f, files !! j = Some f ->
    exists fo', entryContexts fo files !! j = Some fo'
                /\ fo' !! "fileSize" = Some (VNum (fileBytes f)).
Proof.
  induction files as [|f0 l IH]; intros fo j f Hj; [done|].
  destruct j as [|j]; simpl in *.
  - injection Hj as ->. eexists; split; [done|]. apply setFileFields_fileSize.
  - by apply IH.
Qed.

End RenderContext.

(** ** Running the renderer *)

Lemma ret_bind {A B} (a : A) (k : A -> M B) s : bind (ret a) k s = k a s.
Proof. unfold bind, ret. by destruct (k a s) as [[r s2] ev2]. Qed.

Lemma bind_assoc {A B C} (m : M A) (k : A -> M B) (h : B -> M C) s :
  bind (bind m k) h s = bind m (fun a => bind (k a) h) s.
Proof.
  unfold bind. destruct (m s) as [[[a|e] s1] ev1]; [|done].
  destruct (k a s1) as [[[b|e] s2] ev2]; [|done].
  destruct (h b s2) as [[r s3] ev3]. by rewrite app_assoc.
Qed.

Lemma bind_ext {A B} (m : M A) (k k' : A -> M B) s :
  (forall a s', k a s' = k' a s') -> bind m k s = bind m k' s.
Proof.
  intros H. unfold bind. destruct (m s) as [[[a|e] s1] ev1]; [|done]. by rewrite H.
Qed.

Lemma bind_ext_l {A B} (m m' : M A) (k : A -> M B) s :
  (forall s', m s' = m' s') -> bind m k s = bind m' k s.
Proof. intros H. unfold bind. by rewrite H. Qed.

Lemma forEach_app {A S} (body : S -> A -> M S) (l1 l2 : list A) (st : S) s :
  forEach body (l1 ++ l2) st s = bind (forEach body l1 st) (forEach body l2) s.
Proof.
  revert st s. induction l1 as [|x l1 IH]; intros st s; simpl.
  - by rewrite ret_bind.
  - rewrite bind_assoc. apply bind_ext. intros st' s'. apply IH.
Qed.

Section RenderRuns.

Variable E : Env.
Variable T : list string.

Lemma renderEntries_run files :
  forall fo body s, exists body',
    forEach (renderEntry E T) files (fo, body) s
    = (Ok (afterEntries fo files, body'), s,
       map (EvStringFormat (T !!! 2%nat)) (entryContexts fo files)).
Proof.
  induction files as [|f l IH]; intros fo body s.
  - by exists body.
  - destruct (IH (setFileFields f fo)
                 (body +:+ stringFormat E (T !!! 2%nat) (setFileFields f fo)) s)
      as [body' Hrun].
    exists body'. cbn [forEach entryContexts map].
    eapply (bind_run_Ok _ _ _ _ _ [_]); [|exact Hrun].
    unfold renderEntry. eapply (bind_run_Ok _ _ _ _ _ [_] _ _ []); reflexivity.
Qed.

Lemma renderArea_empty st r s :
  AreaFiles.files r = [] -> renderArea E T st r s = (Ok st, s, []).
Proof. intros H. unfold renderArea. by rewrite H. Qed.

Lemma renderArea_run fo body r s :
  AreaFiles.files r <> [] ->
  exists body',
    renderArea E T (fo, body) r s
    = (Ok (afterEntries (setAreaFields r fo) (AreaFiles.files r), body'), s,
       areaBlock T fo r).
Proof.
  intros Hne. unfold renderArea.
  destruct (AreaFiles.files r) as [|f l] eqn:Hfiles; [done|].
  replace (0 =? Z.of_nat (length (f :: l))) with false
    by (symmetry; apply Z.eqb_neq; simpl; lia).
  cbn [fst snd].
  destruct (renderEntries_run (f :: l) (setAreaFields r fo)
              (body +:+ stringFormat E (T !!! 1%nat) (setAreaFields r fo)) s)
    as [body' Hrun].
  eexists. unfold areaBlock. rewrite Hfiles.
  eapply (bind_run_Ok _ _ _ _ _ [_]); [reflexivity|].
  eapply bind_run_Ok; [exact Hrun|]. reflexivity.
Qed.

(** Totals after a list of areas, from a context whose totals are [c], [b],
    as long as the sums stay within the safe range. *)
Lemma renderAreas_run rs :
  Forall bytes_consistent rs ->
  Forall (fun r => Forall (fun f => 0 <= fileBytes f) (AreaFiles.files r)) rs ->
  forall fo body s c b,
    fo !! "totalFileCount" = Some (VNum c) ->
    fo !! "totalFileBytes" = Some (VNum b) ->
    0 <= c -> 0 <= b ->
    c + includedCount rs <= MAX_SAFE_INTEGER ->
    b + includedBytes rs <= MAX_SAFE_INTEGER ->
    exists fo' body' evs,
      forEach (renderArea E T) rs (fo, body) s = (Ok (fo', body'), s, evs)
      /\ Forall (fun e => is_render e = true) evs
      /\ fo' !! "totalFileCount" = Some (VNum (c + includedCount rs))
      /\ fo' !! "totalFileBytes" = Some (VNum (b + includedBytes rs)).
Proof.
  induction 1 as [|r rs Hr Hrs IH]; intros Hpos fo body s c b Hc Hb Hc0 Hb0 Hcmax Hbmax.
  - exists fo, body, []. unfold includedCount, includedBytes. simpl.
    rewrite !Z.add_0_r. by repeat split.
  - apply Forall_cons in Hpos as [Hposr Hpos].
    pose proof (includedCount_nonneg rs) as Hcrs.
    pose proof (includedBytes_nonneg rs Hpos) as Hbrs.
    assert (Hsum : 0 <= sumZ (map fileBytes (AreaFiles.files r)))
      by (by apply sumZ_nonneg, Forall_fmap).
    change (includedCount (r :: rs))
      with (Z.of_nat (length (AreaFiles.files r)) + includedCount rs) in *.
    change (includedBytes (r :: rs))
      with (sumZ (map fileBytes (AreaFiles.files r)) + includedBytes rs) in *.
    destruct (AreaFiles.files r) as [|f l] eqn:Hfiles.
    + destruct (IH Hpos fo body s c b Hc Hb Hc0 Hb0)
        as (fo' & body' & evs & Hrun & Hev & Hc' & Hb'); [simpl in *; lia..|].
      exists fo', body', evs. split.
      { cbn [forEach]. eapply (bind_run_Ok _ _ _ _ _ []); [|exact Hrun].
        by apply renderArea_empty. }
      simpl. by repeat split.
    + rewrite <- Hfiles in *.
      destruct (renderArea_run fo body r s) as [body1 Hrun1]; [by rewrite Hfiles|].
      set (fo1 := afterEntries (setAreaFields r fo) (AreaFiles.files r)) in *.
      assert (Hbytes : AreaFiles.areaFileBytes r
                       = sumZ (map fileBytes (AreaFiles.files r))).
      { rewrite Hr. apply safe_sizes_sum. split; [done | lia]. }
      assert (Hc1 : fo1 !! "totalFileCount"
                    = Some (VNum (c + Z.of_nat (length (AreaFiles.files r))))).
      { unfold fo1. rewrite afterEntries_other by done.
        rewrite (setAreaFields_count _ _ _ Hc). by rewrite js_add_exact by lia. }
      assert (Hb1 : fo1 !! "totalFileBytes"
                    = Some (VNum (b + sumZ (map fileBytes (AreaFiles.files r))))).
      { unfold fo1. rewrite afterEntries_other by done.
        rewrite (setAreaFields_bytes _ _ _ Hb), Hbytes. by rewrite js_add_exact by lia. }
      destruct (IH Hpos fo1 body1 s _ _ Hc1 Hb1)
        as (fo' & body' & evs & Hrun & Hev & Hc' & Hb'); [lia..|].
      exists fo', body', (areaBlock T fo r ++ evs). split.
      { cbn [forEach]. eapply bind_run_Ok; [exact Hrun1 | exact Hrun]. }
      split.
      { apply Forall_app. split; [|done].
        pose proof (frame_renderArea E T (fo, body) r s) as [_ HF].
        by rewrite Hrun1 in HF. }
      rewrite Hc', Hb'. split; do 2 f_equal; lia.
Qed.

End RenderRuns.

(** ** Running the scan *)

Lemma async_map_Ok {A B} (P : Event -> Prop) (f : A -> M B) (l : list A) s ys :
  (forall a, frame eq P (f a)) ->
  result_of (async_map f l s) = Ok ys ->
  Forall2 (fun x y => result_of (f x s) = Ok y) l ys.
Proof.
  intros Hf. revert ys. induction l as [|x l IH]; intros ys; simpl.
  - intros [= <-]. constructor.
  - unfold bind, result_of. destruct (Hf x s) as [Hs _]. unfold store_of in Hs.
    destruct (f x s) as [[[y|e] s1] ev1] eqn:Hx; [|done]. simpl in Hs. subst s1.
    specialize (IH (match async_map f l s with (Ok ys, _, _) => ys | _ => [] end)).
    destruct (async_map f l s) as [[[ys'|e] s2] ev2]; [|done].
    simpl. intros [= <-]. constructor; [by rewrite Hx | by apply IH].
Qed.

Section ScanRuns.

Variable E : Env.

Lemma fileBytes_cleaned d f : fileBytes (cleaned E d f) = fileBytes f.
Proof. unfold cleaned. by destruct (truthy_ostr _). Qed.

Lemma loadFileInfo_run d fileId acc s f :
  loadFile E fileId = Ok f ->
  loadFileInfo E d fileId acc s
  = (Ok (cleaned E d f, js_add acc (fileBytes f)), s,
     [EvLoadFile fileId; EvAnsiPrep (FileEntry.desc f) (79 - d) d]).
Proof.
  intros Hload. unfold loadFileInfo, FileEntry_load, ansiPrep, call, bind, ret.
  by rewrite Hload.
Qed.

Lemma loadFileInfo_Err d fileId acc s e :
  loadFile E fileId = Err e ->
  loadFileInfo E d fileId acc s = (Err e, s, [EvLoadFile fileId]).
Proof.
  intros Hload. unfold loadFileInfo, FileEntry_load, call, bind.
  by rewrite Hload.
Qed.

Lemma loadFileInfos_Ok d fileIds :
  forall acc s infos total,
    result_of (loadFileInfos E d fileIds acc s) = Ok (infos, total) ->
    Forall2 (loaded_from E d) fileIds infos
    /\ total = foldl js_add acc (map fileBytes infos).
Proof.
  induction fileIds as [|x l IH]; intros acc s infos total; simpl.
  - intros [= <- <-]. split; [constructor | done].
  - destruct (loadFile E x) as [f|e] eqn:Hload.
    + unfold bind at 1. rewrite (loadFileInfo_run _ _ _ _ _ Hload). cbn [fst snd].
      unfold bind, result_of.
      specialize (IH (js_add acc (fileBytes f)) s).
      destruct (loadFileInfos E d l (js_add acc (fileBytes f)) s)
        as [[[[infos' total']|e] s2] ev2]; [|done].
      simpl. intros [= <- <-].
      destruct (IH infos' total' eq_refl) as [HF Ht]. split.
      * constructor; [by exists f | done].
      * simpl. by rewrite fileBytes_cleaned.
    + unfold bind at 1. by rewrite (loadFileInfo_Err _ _ _ _ _ Hload).
Qed.

Lemma scanArea_Ok options d ts area s r :
  result_of (scanArea E options d ts area s) = Ok r ->
  exists fileIds,
    findFiles E ts (Area.areaTag area) = Ok fileIds
    /\ AreaFiles.areaInfo r = area
    /\ Forall2 (loaded_from E d)
               (js_slice0 fileIds (Options.maxFilesPerArea options))
               (AreaFiles.files r)
    /\ bytes_consistent r
    /\ AreaFiles.remainingFiles r
       = remainingOf fileIds (Options.maxFilesPerArea options).
Proof.
  unfold scanArea, FileEntry_findFiles, call. unfold bind at 1.
  destruct (findFiles E ts (Area.areaTag area)) as [fileIds|e]; [|done].
  unfold bind, result_of.
  pose proof (loadFileInfos_Ok d
                (js_slice0 fileIds (Options.maxFilesPerArea options)) 0 s) as H.
  destruct (loadFileInfos E d _ 0 s) as [[[[infos total]|e] s2] ev2]; [|done].
  simpl. intros [= <-]. destruct (H infos total eq_refl) as [HF Ht].
  exists fileIds. by repeat split.
Qed.

(** [findNewFiles], unfolded: the read and the write come first, whatever
    follows. *)
Lemma findNewFiles_unfold options T d s :
  findNewFiles E options T d s
  = let lastTimestamp := systemStats s !! STAT_KEY_LAST_TS in
    let head := [EvGetSystemStat STAT_KEY_LAST_TS;
                 EvSetSystemStat STAT_KEY_LAST_TS (getISOTimestampString E)] in
    if truthy_ostr lastTimestamp then
      let ts := default "" lastTimestamp in
      let options' :=
        Options.set_sinceTs (moment_format E ts (Options.tsFormat options)) options in
      let scan := async_map (scanArea E options' d ts) (scannedAreas E options')
                            (advanced E s) in
      (match result_of scan with
       | Ok rs => Ok (options', T, rs, d)
       | Err e => Err e
       end,
       store_of scan, head ++ EvGetAreas :: events_of scan)
    else (Err NOT_SET, advanced E s, head).
Proof.
  unfold findNewFiles, getSystemStat, setSystemStat, getAreas, call, bind, ret, throw.
  cbn zeta. destruct (truthy_ostr _); cbn [negb]; [|done].
  unfold scannedAreas, advanced. cbn [Options.areaTagsRegEx Options.set_sinceTs].
  unfold result_of, store_of, events_of.
  destruct (async_map _ _ _) as [[[rs|e] s2] ev2]; simpl; by rewrite ?app_nil_r.
Qed.

End ScanRuns.

(** ** The delivery stage and the waterfall as a whole *)

Section Waterfall.

Variable E : Env.

Lemma frame_postTo options fo body tag :
  frame same_stats (fun e => is_output e = true) (postTo E options fo body tag).
Proof.
  unfold postTo. frame_step.
  - eapply frame_mono; [| |apply frame_format]; [by intros ?? -> | by intros [] ].
  - eapply frame_mono; [| |apply frame_persist]; [done | by intros [] ].
Qed.

Lemma frame_buildMessages args options T rs d :
  frame same_stats (fun e => is_output e = true) (buildMessages E args options T rs d).
Proof.
  assert (Hfmt : forall t fo,
             frame same_stats (fun e => is_output e = true) (format E t fo)).
  { intros. eapply frame_mono; [| |apply frame_format];
      [by intros ?? -> | by intros [] ]. }
  unfold buildMessages. frame_step; [apply Hfmt|].
  frame_step.
  { eapply frame_mono; [| |apply frame_forEach; [..|apply frame_renderArea]];
      [by intros ?? -> | by intros [] | done | apply eq_trans_store]. }
  frame_step; [apply Hfmt|]. cbn zeta. frame_step; [|frame_step].
  apply frame_async_eachSeries; eauto using frame_postTo with frames.
Qed.

(** The first two stages read files and nothing else; the run goes on from
    the store it started in. *)
Lemma latestFilesAnnounceEvent_unfold args s :
  latestFilesAnnounceEvent E args s
  = if Z.of_nat (length args) <? 1 then
      (Err (MissingParam "At least [areaTag] required in args"), s, [])
    else
      let r1 := loadOptions E args s in
      match result_of r1 with
      | Err e => (Err e, s, events_of r1)
      | Ok options =>
          let r2 := readTemplates E options s in
          match result_of r2 with
          | Err e => (Err e, s, events_of r1 ++ events_of r2)
          | Ok (options, templates, descIndent) =>
              let r3 := findNewFiles E options templates descIndent s in
              match result_of r3 with
              | Err e => (Err e, store_of r3,
                          events_of r1 ++ events_of r2 ++ events_of r3)
              | Ok (options, templates, allAreasFiles, descIndent) =>
                  let r4 := buildMessages E args options templates allAreasFiles
                                          descIndent (store_of r3) in
                  (result_of r4, store_of r4,
                   events_of r1 ++ events_of r2 ++ events_of r3 ++ events_of r4)
              end
          end
      end.
Proof.
  unfold latestFilesAnnounceEvent. destruct (_ <? 1); [done|]. cbn zeta.
  unfold bind at 1. destruct (frame_loadOptions E args s) as [Hs1 _].
  unfold result_of, store_of, events_of in *.
  destruct (loadOptions E args s) as [[[options|e] s1] ev1]; simpl in *; subst s1;
    [|done].
  unfold bind at 1. destruct (frame_readTemplates E options s) as [Hs2 _].
  unfold store_of in Hs2.
  destruct (readTemplates E options s) as [[[[[o T] d]|e] s2] ev2]; simpl in *;
    subst s2; [|done].
  unfold bind.
  destruct (findNewFiles E o T d s) as [[[[[[o' T'] rs] d']|e] s3] ev3]; simpl; [|done].
  by destruct (buildMessages E args o' T' rs d' s3) as [[r4 s4] ev4].
Qed.

End Waterfall.

Lemma async_map_Err {A B} (P : Event -> Prop) (f : A -> M B) (l : list A) s x e :
  (forall a, frame eq P (f a)) ->
  x ∈ l -> result_of (f x s) = Err e ->
  exists e', result_of (async_map f l s) = Err e'.
Proof.
  intros Hf Hx Hfx.
  destruct (result_of (async_map f l s)) as [ys|e'] eqn:Hrun; [|by exists e'].
  apply (async_map_Ok P) in Hrun; [|done].
  apply list_elem_of_lookup in Hx as [i Hi].
  destruct (Forall2_lookup_l _ _ _ _ _ Hrun Hi) as (y & _ & Hy). congruence.
Qed.

Section WaterfallCases.

Variable E : Env.

Lemma loadOptions_unreadable args s :
  options_unreadable E args -> exists e, result_of (loadOptions E args s) = Err e.
Proof.
  intros (err & Hread & Hcode). exists err. unfold loadOptions, result_of.
  rewrite Hread. destruct (String.eqb_spec "ENOENT" (err_code err)); [congruence|done].
Qed.

Lemma loadOptions_malformed args s :
  options_malformed E args -> exists e, result_of (loadOptions E args s) = Err e.
Proof.
  intros (data & e & Hread & Hdata & Hparse). exists e.
  unfold loadOptions, result_of. by rewrite Hread, Hdata, Hparse.
Qed.

Lemma readTemplates_unreadable options s :
  template_unreadable E options ->
  exists e, result_of (readTemplates E options s) = Err e.
Proof.
  intros (tn & e & Hin & Hread).
  destruct (async_map_Err (fun e => is_read e = true) (readTemplate E options)
              TEMPLATE_NAMES s tn e) as [e' He']; [|done| |].
  - intros a. apply frame_readFile.
  - unfold readTemplate, readFile, call, result_of. by rewrite Hread.
  - unfold readTemplates, result_of in *.
    destruct (async_map _ _ s) as [[[ts|e''] s1] ev]; [done|]. by eexists.
Qed.

(** A run that does not reach the scan stage fails having only read files,
    and leaves the store as it found it. *)
Lemma stops_before_scan args s :
  reaches_scan E args s = false ->
  let run := latestFilesAnnounceEvent E args s in
  store_of run = s
  /\ (exists e, result_of run = Err e)
  /\ Forall (fun e => is_read e = true) (events_of run).
Proof.
  unfold reaches_scan. intros Hstop. rewrite latestFilesAnnounceEvent_unfold.
  destruct (_ <? 1); [by repeat split; eauto|]. cbn zeta. simpl in Hstop.
  destruct (frame_loadOptions E args s) as [_ Hev1].
  destruct (result_of (loadOptions E args s)) as [options|e];
    [|by repeat split; eauto].
  destruct (frame_readTemplates E options s) as [_ Hev2].
  destruct (result_of (readTemplates E options s)) as [[[o T] d]|e]; [done|].
  repeat split; eauto. by apply Forall_app.
Qed.

(** A run that reaches the scan stage: the two stages before it only read
    files, then [findNewFiles] and [buildMessages] run in turn. *)
Lemma goes_on_to_scan args s :
  reaches_scan E args s = true ->
  exists options T d setup,
    Forall (fun e => is_read e = true) setup
    /\ result_of (loadOptions E args s) = Ok options
    /\ result_of (readTemplates E options s) = Ok (options, T, d)
    /\ latestFilesAnnounceEvent E args s
       = let r3 := findNewFiles E options T d s in
         match result_of r3 with
         | Err e => (Err e, store_of r3, setup ++ events_of r3)
         | Ok (options, T, rs, d) =>
             let r4 := buildMessages E args options T rs d (store_of r3) in
             (result_of r4, store_of r4, setup ++ events_of r3 ++ events_of r4)
         end.
Proof.
  unfold reaches_scan. intros Hgo. rewrite latestFilesAnnounceEvent_unfold.
  destruct (_ <? 1); [done|]. cbn zeta. simpl in Hgo.
  destruct (frame_loadOptions E args s) as [_ Hev1].
  destruct (result_of (loadOptions E args s)) as [options|e]; [|done].
  destruct (frame_readTemplates E options s) as [_ Hev2].
  destruct (result_of (readTemplates E options s)) as [[[o T] d]|e] eqn:H2; [|done].
  assert (o = options) as ->.
  { unfold readTemplates, result_of in H2.
    destruct (async_map _ _ s) as [[[ts|e''] s1] ev]; [|done]. by injection H2. }
  exists options, T, d, (events_of (loadOptions E args s)
                         ++ events_of (readTemplates E options s)).
  split; [by apply Forall_app|]. do 2 (split; [done|]).
  destruct (result_of (findNewFiles E options T d s)) as [[[[o' T'] rs] d']|e];
    by rewrite <- ?app_assoc.
Qed.

End WaterfallCases.

Section Checkpoint.

Variable E : Env.

Lemma findNewFiles_run options T d s :
  let r3 := findNewFiles E options T d s in
  exists scan,
    events_of r3
    = EvGetSystemStat STAT_KEY_LAST_TS
        :: EvSetSystemStat STAT_KEY_LAST_TS (getISOTimestampString E) :: scan
    /\ Forall (fun e => is_scan e = true) scan
    /\ store_of r3 = advanced E s
    /\ (truthy_ostr (systemStats s !! STAT_KEY_LAST_TS) = false ->
        result_of r3 = Err NOT_SET /\ scan = []).
Proof.
  cbn zeta. rewrite findNewFiles_unfold. cbn zeta.
  destruct (truthy_ostr _); [|by exists []].
  set (ts := default "" _). set (options' := Options.set_sinceTs _ _).
  destruct (frame_async_map eq (fun s => eq_refl) eq_trans_store
              (fun e => is_scan e = true) (scanArea E options' d ts)
              (scannedAreas E options') (frame_scanArea E options' d ts)
              (advanced E s)) as [Hs Hev].
  eexists. split; [reflexivity|]. split; [by constructor|]. by split.
Qed.

End Checkpoint.

(** ** The string helpers on small inputs *)

Example js_split_keeps_empty_pieces : js_split "," "a,,b" = ["a"; ""; "b"].
Proof. reflexivity. Qed.

Example js_split_of_empty : js_split "," "" = [""].
Proof. reflexivity. Qed.

Example js_join_tags : js_join ", " ["dos"; "zip"] = "dos, zip".
Proof. reflexivity. Qed.

Example crlf_mixed :
  crlf (String "a" (String LF (String "b" (String CR (String LF EmptyString)))))
  = String "a" (String CR (String LF (String "b" (String CR (String LF EmptyString))))).
Proof. reflexivity. Qed.

Example findDescIndent_second_line :
  findDescIndent ["{fileName}"; "    {fileDesc}"; "{fileDesc}"] = 4.
Proof. reflexivity. Qed.

Example js_slice0_within : js_slice0 [1; 2; 3] 2 = [1; 2].
Proof. reflexivity. Qed.

Example js_slice0_beyond : js_slice0 [1; 2; 3] 20 = [1; 2; 3].
Proof. reflexivity. Qed.

Example js_slice0_from_the_end : js_slice0 [1; 2; 3] (-1) = [1; 2].
Proof. reflexivity. Qed.

Example or_num_zero_is_unset : or_num (Some 0) 20 = 20.
Proof. reflexivity. Qed.

(** ** The claims *)

(** C1.  In every run the first two stages only read files.  A run that goes
    on reads the checkpoint, and its very next call overwrites it with the
    current run time; area enumeration, file queries and everything else
    come after that write, none of them touches the stat log again, and the
    checkpoint the run leaves is the current run time.  A run that stops
    earlier makes no scan step at all.  This holds whether or not a prior
    checkpoint exists. *)
Theorem C1_checkpoint_written_before_scan (E : Env) (args : list string) (s : Store) :
  let run := latestFilesAnnounceEvent E args s in
  exists setup rest,
    events_of run = setup ++ rest
    /\ Forall (fun e => is_read e = true) setup
    /\ if reaches_scan E args s then
         exists after,
           rest = EvGetSystemStat STAT_KEY_LAST_TS
                    :: EvSetSystemStat STAT_KEY_LAST_TS (getISOTimestampString E)
                    :: after
           /\ Forall (fun e => is_stat e = false) after
           /\ systemStats (store_of run) !! STAT_KEY_LAST_TS
              = Some (getISOTimestampString E)
       else rest = [].
Proof.
  cbn zeta. destruct (reaches_scan E args s) eqn:Hreach.
  - destruct (goes_on_to_scan E args s Hreach)
      as (options & T & d & setup & Hsetup & _ & _ & ->).
    destruct (findNewFiles_run E options T d s) as (scan & Hev & Hscan & Hs & _).
    cbn zeta in *.
    assert (Hscan' : Forall (fun e => is_stat e = false) scan).
    { eapply Forall_impl; [exact Hscan|]. by intros []. }
    destruct (result_of (findNewFiles E options T d s)) as [[[[o' T'] rs] d']|e].
    + destruct (frame_buildMessages E args o' T' rs d'
                  (store_of (findNewFiles E options T d s))) as [Hs4 Hev4].
      exists setup, (events_of (findNewFiles E options T d s)
                     ++ events_of (buildMessages E args o' T' rs d'
                                     (store_of (findNewFiles E options T d s)))).
      split; [done|]. split; [done|]. rewrite Hev.
      eexists. split; [reflexivity|]. split.
      * apply Forall_app. split; [done|].
        eapply Forall_impl; [exact Hev4|]. by intros [].
      * unfold store_of, same_stats in *. cbn [fst snd].
        rewrite Hs4, Hs. apply lookup_insert_eq.
    + exists setup, (events_of (findNewFiles E options T d s)).
      split; [done|]. split; [done|]. rewrite Hev.
      eexists. split; [reflexivity|]. split; [done|].
      unfold store_of in *. cbn [fst snd]. rewrite Hs. apply lookup_insert_eq.
  - destruct (stops_before_scan E args s Hreach) as (_ & _ & Hev).
    exists (events_of (latestFilesAnnounceEvent E args s)), [].
    by rewrite app_nil_r.
Qed.

(** C6.  On the first-ever run (nothing stored under the checkpoint key) the
    run ends with an error, scans no area, formats nothing, hands no message
    to the message base and leaves the message base as it was.  When the run
    gets as far as the checkpoint (arguments present, options and templates
    loaded), it writes the current time as the new checkpoint and the error
    is "Last timestamp not set; Set to now for next event run time". *)
Theorem C6_first_run_bootstrap (E : Env) (args : list string) (s : Store) :
  systemStats s !! STAT_KEY_LAST_TS = None ->
  let run := latestFilesAnnounceEvent E args s in
  (exists e, result_of run = Err e)
  /\ msgBase (store_of run) = msgBase s
  /\ Forall (fun e => is_scan e = false /\ is_output e = false) (events_of run)
  /\ (reaches_scan E args s = true ->
      result_of run = Err NOT_SET
      /\ systemStats (store_of run)
         = <[STAT_KEY_LAST_TS := getISOTimestampString E]> (systemStats s)).
Proof.
  intros Hnone. cbn zeta. destruct (reaches_scan E args s) eqn:Hreach.
  - destruct (goes_on_to_scan E args s Hreach)
      as (options & T & d & setup & Hsetup & _ & _ & ->).
    destruct (findNewFiles_run E options T d s) as (scan & Hev & _ & Hs & Hfirst).
    destruct Hfirst as [Hres ->]; [by rewrite Hnone|].
    cbn zeta in *. rewrite Hres. unfold result_of, store_of, events_of in *.
    cbn [fst snd]. rewrite Hs, Hev. split; [by eexists|]. split; [done|].
    split; [|done]. apply Forall_app. split.
    + eapply Forall_impl; [exact Hsetup|]. by intros [].
    + by repeat constructor.
  - destruct (stops_before_scan E args s Hreach) as (Hs & He & Hev).
    cbn zeta in *. rewrite Hs. do 2 (split; [done|]). split; [|done].
    eapply Forall_impl; [exact Hev|]. by intros [].
Qed.

Lemma C6_first_run_bootstrap_witness :
  let E := Demo.board Demo.threeInGames None "" "" in
  let run := latestFilesAnnounceEvent E ["fsx_bot"] Demo.fresh in
  systemStats Demo.fresh !! STAT_KEY_LAST_TS = None
  /\ reaches_scan E ["fsx_bot"] Demo.fresh = true
  /\ result_of run = Err NOT_SET
  /\ systemStats (store_of run)
     = <[STAT_KEY_LAST_TS := Demo.NOW]> (systemStats Demo.fresh)
  /\ msgBase (store_of run) = []
  /\ Forall (fun e => is_scan e = false /\ is_output e = false) (events_of run).
Proof.
  split; [reflexivity|]. split; [reflexivity|].
  destruct (C6_first_run_bootstrap (Demo.board Demo.threeInGames None "" "")
              ["fsx_bot"] Demo.fresh eq_refl) as (_ & Hbase & Hev & Hreach).
  destruct (Hreach eq_refl) as [Hres Hstats].
  split; [exact Hres|]. split; [exact Hstats|]. split; [exact Hbase | exact Hev].
Defined.

(** C10.  If loading the options fails (the file is there but cannot be
    read, or its content does not parse) or one of the five templates cannot
    be read, the run ends with an error having only read files: the stat log,
    and with it the stored checkpoint, is exactly what it was, as is the
    message base. *)
Theorem C10_setup_failure_keeps_checkpoint (E : Env) (args : list string) (s : Store) :
  options_unreadable E args
  \/ options_malformed E args
  \/ (exists options, result_of (loadOptions E args s) = Ok options
                      /\ template_unreadable E options) ->
  let run := latestFilesAnnounceEvent E args s in
  (exists e, result_of run = Err e)
  /\ store_of run = s
  /\ systemStats (store_of run) !! STAT_KEY_LAST_TS = systemStats s !! STAT_KEY_LAST_TS
  /\ Forall (fun e => is_read e = true) (events_of run).
Proof.
  intros Hfail.
  assert (Hstop : reaches_scan E args s = false).
  { unfold reaches_scan. apply andb_false_iff. right.
    destruct Hfail as [H|[H|(options & Hopt & H)]].
    - apply (loadOptions_unreadable E args s) in H as [e ->]. done.
    - apply (loadOptions_malformed E args s) in H as [e ->]. done.
    - rewrite Hopt. apply (readTemplates_unreadable E options s) in H as [e ->]. done. }
  destruct (stops_before_scan E args s Hstop) as (Hs & He & Hev).
  cbn zeta. by rewrite Hs.
Qed.

Lemma C10_setup_failure_keeps_checkpoint_witness :
  let E := Demo.board Demo.threeInGames None "LFAENTRY.ASC" "" in
  let run := latestFilesAnnounceEvent E ["fsx_bot"] Demo.seasoned in
  (exists e, result_of run = Err e)
  /\ store_of run = Demo.seasoned
  /\ systemStats (store_of run) !! STAT_KEY_LAST_TS = Some Demo.LAST
  /\ Forall (fun e => is_read e = true) (events_of run).
Proof.
  apply (C10_setup_failure_keeps_checkpoint
           (Demo.board Demo.threeInGames None "LFAENTRY.ASC" "") ["fsx_bot"]
           Demo.seasoned).
  right. right. eexists. split; [reflexivity|].
  exists Options.entry. eexists. split; [|reflexivity].
  unfold TEMPLATE_NAMES. set_solver.
Defined.

Section NothingNew.

Variable E : Env.

Lemma scanArea_nothing_new options d ts area s :
  findFiles E ts (Area.areaTag area) = Ok [] ->
  scanArea E options d ts area s
  = (Ok (AreaFiles.mk area [] 0 (remainingOf [] (Options.maxFilesPerArea options))),
     s, [EvFindFiles ts (Area.areaTag area)]).
Proof.
  intros Hfind. unfold scanArea, FileEntry_findFiles, call, bind. rewrite Hfind.
  unfold js_slice0. by rewrite take_nil.
Qed.

Lemma scan_nothing_new options d ts (areas : list Area.t) s :
  (forall area, area ∈ areas -> findFiles E ts (Area.areaTag area) = Ok []) ->
  exists rs,
    async_map (scanArea E options d ts) areas s
    = (Ok rs, s, map (fun area => EvFindFiles ts (Area.areaTag area)) areas)
    /\ Forall (fun r => AreaFiles.files r = []) rs.
Proof.
  induction areas as [|area areas IH]; intros Hnone.
  - by exists [].
  - destruct IH as (rs & Hrun & Hrs).
    { intros a Ha. apply Hnone. by right. }
    eexists (_ :: rs). split.
    + cbn [async_map map].
      eapply (bind_run_Ok _ _ _ _ _ [_]);
        [apply scanArea_nothing_new, Hnone; by left|].
      by apply (bind_ret_run _ (fun ys => _ :: ys)).
    + by constructor.
Qed.

Lemma renderAreas_nothing T (rs : list AreaFiles.t) st s :
  Forall (fun r => AreaFiles.files r = []) rs ->
  forEach (renderArea E T) rs st s = (Ok st, s, []).
Proof.
  induction 1 as [|r rs Hr _ IH]; [done|]. cbn [forEach].
  eapply (bind_run_Ok _ _ _ _ _ [] _ _ []); [by apply renderArea_empty | exact IH].
Qed.

Lemma buildMessages_nothing args options T rs d s :
  Forall (fun r => AreaFiles.files r = []) rs ->
  buildMessages E args options T rs d s
  = (Ok tt, s, [EvStringFormat (T !!! 0%nat) (initialFormatObj E options);
                EvStringFormat (T !!! 4%nat) (initialFormatObj E options)]).
Proof.
  intros Hrs. unfold buildMessages.
  eapply (bind_run_Ok _ _ _ _ _ [_] _ _ [_]); [reflexivity|].
  eapply (bind_run_Ok _ _ _ _ _ [] _ _ [_]); [by apply renderAreas_nothing|].
  eapply (bind_run_Ok _ _ _ _ _ [_] _ _ []); [reflexivity|].
  cbn [fst snd]. unfold num_gt0. by rewrite initialFormatObj_count.
Qed.

End NothingNew.

(** C7.  When a checkpoint is stored and the catalog has no file newer than
    it in any area, a run that reaches the scan completes without error,
    hands no message to the message base (which stays as it was), and still
    leaves the checkpoint at the current run time. *)
Theorem C7_no_new_files_is_success (E : Env) (args : list string) (s : Store)
        (lastTimestamp : string) :
  reaches_scan E args s = true ->
  systemStats s !! STAT_KEY_LAST_TS = Some lastTimestamp ->
  truthy_str lastTimestamp = true ->
  (forall area, area ∈ getSortedAvailableFileAreas E ->
                findFiles E lastTimestamp (Area.areaTag area) = Ok []) ->
  let run := latestFilesAnnounceEvent E args s in
  result_of run = Ok tt
  /\ attempted (events_of run) = []
  /\ msgBase (store_of run) = msgBase s
  /\ systemStats (store_of run)
     = <[STAT_KEY_LAST_TS := getISOTimestampString E]> (systemStats s).
Proof.
  intros Hreach Hlast Htruthy Hnone. cbn zeta.
  destruct (goes_on_to_scan E args s Hreach)
    as (options & T & d & setup & Hsetup & _ & _ & ->).
  rewrite findNewFiles_unfold. cbn zeta. rewrite Hlast. cbn [truthy_ostr default from_option id].
  rewrite Htruthy.
  set (options' := Options.set_sinceTs _ _).
  destruct (scan_nothing_new E options' d lastTimestamp (scannedAreas E options')
              (advanced E s)) as (rs & Hscan & Hrs).
  { intros area Ha. apply Hnone. unfold scannedAreas in Ha.
    by apply list_elem_of_filter in Ha as [_ Ha]. }
  rewrite Hscan. unfold result_of, store_of, events_of. cbn [fst snd].
  rewrite (buildMessages_nothing E args options' T rs d _ Hrs). cbn [fst snd].
  split; [done|]. split; [|done].
  apply attempted_none. repeat apply Forall_app_2.
  - eapply Forall_impl; [exact Hsetup|]. by intros [].
  - by repeat constructor.
  - constructor; [done|].
    apply Forall_forall. intros e He. apply list_elem_of_fmap in He as [a [-> _]]. done.
  - by repeat constructor.
Qed.

Lemma C7_no_new_files_is_success_witness :
  let E := Demo.board Demo.nothingNew None "" "" in
  let run := latestFilesAnnounceEvent E ["fsx_bot,agn_ads"] Demo.seasoned in
  reaches_scan E ["fsx_bot,agn_ads"] Demo.seasoned = true
  /\ systemStats Demo.seasoned !! STAT_KEY_LAST_TS = Some Demo.LAST
  /\ result_of run = Ok tt
  /\ attempted (events_of run) = []
  /\ msgBase (store_of run) = []
  /\ systemStats (store_of run)
     = <[STAT_KEY_LAST_TS := Demo.NOW]> (systemStats Demo.seasoned).
Proof.
  split; [reflexivity|]. split; [reflexivity|].
  apply (C7_no_new_files_is_success (Demo.board Demo.nothingNew None "" "")
           ["fsx_bot,agn_ads"] Demo.seasoned Demo.LAST); reflexivity.
Defined.

(** ** From the scan to the renderer *)

Section ScanToRender.

Variable E : Env.

Lemma findNewFiles_Ok options0 T0 d0 s0 options T rs d :
  result_of (findNewFiles E options0 T0 d0 s0) = Ok (options, T, rs, d) ->
  exists ts,
    systemStats s0 !! STAT_KEY_LAST_TS = Some ts
    /\ truthy_str ts = true
    /\ options = Options.set_sinceTs (moment_format E ts (Options.tsFormat options0))
                                     options0
    /\ T = T0 /\ d = d0
    /\ Forall2 (fun area r =>
                  result_of (scanArea E options d ts area (advanced E s0)) = Ok r)
               (scannedAreas E options) rs.
Proof.
  rewrite findNewFiles_unfold. cbn zeta.
  destruct (systemStats s0 !! STAT_KEY_LAST_TS) as [ts|] eqn:Hlast; [|done].
  cbn [truthy_ostr default from_option id].
  destruct (truthy_str ts) eqn:Htruthy; [|done].
  set (options' := Options.set_sinceTs _ _).
  unfold result_of at 1. cbn [fst].
  destruct (result_of (async_map _ _ _)) as [rs'|e] eqn:Hscan; [|done].
  intros [= <- <- <- <-]. exists ts. repeat split; try done.
  eapply async_map_Ok; [|exact Hscan]. intros a. apply frame_scanArea.
Qed.

Lemma findNewFiles_consistent options0 T0 d0 s0 options T rs d :
  result_of (findNewFiles E options0 T0 d0 s0) = Ok (options, T, rs, d) ->
  Forall bytes_consistent rs.
Proof.
  intros (ts & _ & _ & _ & _ & _ & HF)%findNewFiles_Ok.
  induction HF as [|area r areas rs Hr _ IH]; constructor; [|done].
  by apply scanArea_Ok in Hr as (? & _ & _ & _ & ? & _).
Qed.

Lemma areaBlock_sees T fo r key v :
  is_file_key key = false ->
  setAreaFields r fo !! key = Some v ->
  Forall (sees key v) (areaBlock T fo r).
Proof.
  intros Hkey Hv. unfold areaBlock. cbn zeta. constructor; [done|].
  apply Forall_app. split.
  - apply Forall_fmap.
    eapply Forall_impl; [by apply entryContexts_other|].
    simpl. by intros fo' ->.
  - constructor; [|done]. simpl. by rewrite afterEntries_other.
Qed.

(** [buildMessages], unfolded: header, areas, footer, then the delivery
    against the footer's context; the totals are those of sizes in the
    safe range. *)
Lemma buildMessages_run args options T rs d s :
  Forall bytes_consistent rs ->
  safe_totals rs ->
  let fo0 := initialFormatObj E options in
  exists fo body,
    result_of (forEach (renderArea E T) rs (fo0, stringFormat E (T !!! 0%nat) fo0) s)
    = Ok (fo, body)
    /\ fo !! "totalFileCount" = Some (VNum (includedCount rs))
    /\ fo !! "totalFileBytes" = Some (VNum (includedBytes rs))
    /\ buildMessages E args options T rs d s
       = let msgBody := body +:+ stringFormat E (T !!! 4%nat) fo in
         let delivery :=
           (if 0 <? includedCount rs then
              async_eachSeries (postTo E options fo msgBody)
                               (js_split "," (args !!! 0%nat))
            else ret tt) s in
         (result_of delivery, store_of delivery,
          EvStringFormat (T !!! 0%nat) fo0
            :: events_of (forEach (renderArea E T) rs
                            (fo0, stringFormat E (T !!! 0%nat) fo0) s)
            ++ EvStringFormat (T !!! 4%nat) fo :: events_of delivery).
Proof.
  intros Hrs (Hpos & Hcmax & Hbmax) fo0.
  destruct (renderAreas_run E T rs Hrs Hpos fo0 (stringFormat E (T !!! 0%nat) fo0) s 0 0)
    as (fo & body & evs & Hrun & _ & Hc & Hb);
    [apply initialFormatObj_count | apply initialFormatObj_bytes | lia..|].
  rewrite Z.add_0_l in Hc, Hb.
  exists fo, body. rewrite Hrun. do 3 (split; [done|]).
  unfold buildMessages. fold fo0. cbn zeta.
  eapply (bind_run_Ok _ _ _ _ _ [_]); [reflexivity|].
  eapply bind_run_Ok; [exact Hrun|].
  unfold events_of at 1. cbn [fst snd].
  eapply (bind_run_Ok _ _ _ _ _ [_]); [reflexivity|].
  cbn [fst snd]. unfold num_gt0. rewrite Hc.
  unfold result_of, store_of.
  by destruct (0 <? includedCount rs); [destruct (async_eachSeries _ _ s) as [[??]?]|].
Qed.

End ScanToRender.

Lemma js_slice0_nonneg {A} (arr : list A) (e : Z) :
  0 <= e -> js_slice0 arr e = take (Z.to_nat (Z.min (Z.of_nat (length arr)) e)) arr.
Proof.
  intros He. unfold js_slice0.
  replace (e <? 0) with false by (symmetry; apply Z.ltb_ge; lia).
  by rewrite Z.min_comm.
Qed.

(** C3.  Take the per-area results a scan hands to [buildMessages], with
    sizes that JavaScript numbers add exactly (no negative size, count and
    bytes of the listed files within the safe integer range).  The footer
    template is formatted once, after the header and all area blocks,
    against a context whose [totalFileCount] is the number of files listed
    over all areas and whose [totalFileBytes] is the sum of the byte sizes of
    exactly those files.  The listed files of an area are the ones loaded
    from its capped id list, so ids beyond the cap add to neither total. *)
Theorem C3_footer_totals (E : Env) (args : list string)
        (options0 : Options.t) (T0 : list string) (d0 : Z) (s0 : Store)
        (options : Options.t) (T : list string) (rs : list AreaFiles.t) (d : Z)
        (s : Store) :
  result_of (findNewFiles E options0 T0 d0 s0) = Ok (options, T, rs, d) ->
  safe_totals rs ->
  let fo0 := initialFormatObj E options in
  exists footerObj delivery,
    events_of (buildMessages E args options T rs d s)
    = EvStringFormat (T !!! 0%nat) fo0
        :: events_of (forEach (renderArea E T) rs
                        (fo0, stringFormat E (T !!! 0%nat) fo0) s)
        ++ EvStringFormat (T !!! 4%nat) footerObj :: delivery
    /\ footerObj !! "totalFileCount" = Some (VNum (includedCount rs))
    /\ footerObj !! "totalFileBytes" = Some (VNum (includedBytes rs))
    /\ Forall2 (fun area r =>
                  exists fileIds lastTimestamp,
                    findFiles E lastTimestamp (Area.areaTag area) = Ok fileIds
                    /\ Forall2 (loaded_from E d)
                               (js_slice0 fileIds (Options.maxFilesPerArea options))
                               (AreaFiles.files r))
               (scannedAreas E options) rs.
Proof.
  intros Hscan Hsafe fo0.
  destruct (buildMessages_run E args options T rs d s
              (findNewFiles_consistent E _ _ _ _ _ _ _ _ Hscan) Hsafe)
    as (fo & body & _ & Hc & Hb & Hrun).
  exists fo. eexists. rewrite Hrun. cbn zeta. unfold events_of at 1. cbn [snd].
  split; [reflexivity|]. do 2 (split; [done|]).
  apply findNewFiles_Ok in Hscan as (ts & _ & _ & _ & _ & _ & HF).
  eapply Forall2_impl; [exact HF|]. simpl. intros area r Hr.
  apply scanArea_Ok in Hr as (ids & Hids & _ & Hfiles & _).
  by exists ids, ts.
Qed.

Lemma C3_footer_totals_witness :
  let E := Demo.board Demo.gamesAndUtils (Some Demo.capTwo) "" "" in
  let options0 := withDefaults E Demo.capTwo in
  let options := Options.set_sinceTs Demo.LAST options0 in
  let T := ["H"; "AH"; "E"; "AF"; "F"] in
  let rs := [ AreaFiles.mk (Area.mk "games" "Games" "DOS games")
                           [Demo.file 1; Demo.file 2] 300 1;
              AreaFiles.mk (Area.mk "utils" "Utilities" "Tools")
                           [Demo.file 4] 400 0 ] in
  result_of (findNewFiles E options0 T 0 Demo.seasoned) = Ok (options, T, rs, 0)
  /\ safe_totals rs
  /\ includedCount rs = 3
  /\ includedBytes rs = 700
  /\ exists footerObj delivery,
       events_of (buildMessages E ["fsx_bot"] options T rs 0 Demo.seasoned)
       = EvStringFormat "H" (initialFormatObj E options)
           :: events_of (forEach (renderArea E T) rs
                           (initialFormatObj E options, "H") Demo.seasoned)
           ++ EvStringFormat "F" footerObj :: delivery
       /\ footerObj !! "totalFileCount" = Some (VNum 3)
       /\ footerObj !! "totalFileBytes" = Some (VNum 700).
Proof.
  assert (Hsafe : safe_totals
            [ AreaFiles.mk (Area.mk "games" "Games" "DOS games")
                           [Demo.file 1; Demo.file 2] 300 1;
              AreaFiles.mk (Area.mk "utils" "Utilities" "Tools")
                           [Demo.file 4] 400 0 ]).
  { split; [|split]; [|vm_compute; discriminate..].
    repeat constructor; vm_compute; discriminate. }
  split; [reflexivity|]. split; [exact Hsafe|].
  split; [reflexivity|]. split; [reflexivity|].
  destruct (C3_footer_totals (Demo.board Demo.gamesAndUtils (Some Demo.capTwo) "" "")
              ["fsx_bot"]
              (withDefaults (Demo.board Demo.gamesAndUtils (Some Demo.capTwo) "" "")
                            Demo.capTwo)
              ["H"; "AH"; "E"; "AF"; "F"] 0 Demo.seasoned
              _ _ _ _ Demo.seasoned eq_refl Hsafe)
    as (footerObj & delivery & Hev & Hc & Hb & _).
  exists footerObj, delivery. split; [exact Hev|]. split; [exact Hc | exact Hb].
Defined.

(** C5.  An area whose query returns no new file id yields a result with an
    empty file list, after that one query and nothing else.  Rendering such
    an area formats nothing (no area header, no entry, no area footer) and
    hands the render state on unchanged, context and body alike; and
    [buildMessages] behaves exactly as if the area were not in the list:
    same result, same store, same calls with the same contexts, hence the
    same [totalFileCount] and [totalFileBytes] everywhere. *)
Theorem C5_empty_area_omitted (E : Env) (options : Options.t) (descIndent : Z)
        (lastTimestamp : string) (area : Area.t) (s : Store) :
  findFiles E lastTimestamp (Area.areaTag area) = Ok [] ->
  exists r,
    scanArea E options descIndent lastTimestamp area s
    = (Ok r, s, [EvFindFiles lastTimestamp (Area.areaTag area)])
    /\ AreaFiles.files r = []
    /\ (forall T st s', renderArea E T st r s' = (Ok st, s', []))
    /\ (forall args options' T rs1 rs2 d s',
          buildMessages E args options' T (rs1 ++ r :: rs2) d s'
          = buildMessages E args options' T (rs1 ++ rs2) d s').
Proof.
  intros Hfind.
  set (r := AreaFiles.mk area [] 0 (remainingOf [] (Options.maxFilesPerArea options))).
  exists r. split; [by apply scanArea_nothing_new|].
  split; [done|]. split.
  - intros T st s'. by apply renderArea_empty.
  - intros args options' T rs1 rs2 d s'. unfold buildMessages.
    apply bind_ext. intros hdr s1. cbn zeta.
    apply bind_ext_l. intros s2. rewrite !forEach_app. apply bind_ext. intros st' s3.
    cbn [forEach]. unfold bind at 1. rewrite renderArea_empty by done.
    by destruct (forEach (renderArea E T) rs2 st' s3) as [[??]?].
Qed.

Lemma C5_empty_area_omitted_witness :
  let E := Demo.board Demo.threeInGames None "" "" in
  let options := withDefaults E RawOptions.empty in
  let area := Area.mk "utils" "Utilities" "Tools" in
  findFiles E Demo.LAST "utils" = Ok []
  /\ exists r,
       scanArea E options 0 Demo.LAST area Demo.seasoned
       = (Ok r, Demo.seasoned, [EvFindFiles Demo.LAST "utils"])
       /\ AreaFiles.files r = []
       /\ (forall T st s', renderArea E T st r s' = (Ok st, s', []))
       /\ (forall args options' T rs1 rs2 d s',
             buildMessages E args options' T (rs1 ++ r :: rs2) d s'
             = buildMessages E args options' T (rs1 ++ rs2) d s').
Proof.
  split; [reflexivity|].
  apply (C5_empty_area_omitted (Demo.board Demo.threeInGames None "" "")
           (withDefaults (Demo.board Demo.threeInGames None "" "") RawOptions.empty)
           0 Demo.LAST (Area.mk "utils" "Utilities" "Tools") Demo.seasoned).
  reflexivity.
Defined.

(** C9.  Once a file record is loaded, whatever [AnsiPrep] reports, the
    error it may pass is dropped and the enrichment of that file succeeds,
    with the file's size added to the area's byte count.  When the reflow
    fails (an error and no text) or yields nothing (absent or empty text),
    the record is handed on as loaded, its description untouched. *)
Theorem C9_reflow_failure_not_fatal (E : Env) (descIndent fileId areaFileBytes : Z)
        (s : Store) (fileInfo : FileEntry.t) :
  loadFile E fileId = Ok fileInfo ->
  let r := AnsiPrep E (FileEntry.desc fileInfo) (79 - descIndent) descIndent in
  let run := loadFileInfo E descIndent fileId areaFileBytes s in
  (exists fileInfo',
      result_of run = Ok (fileInfo', js_add areaFileBytes (fileBytes fileInfo)))
  /\ store_of run = s
  /\ (reflow_failed r \/ reflow_empty r ->
      result_of run = Ok (fileInfo, js_add areaFileBytes (fileBytes fileInfo))).
Proof.
  intros Hload r run. unfold run. rewrite (loadFileInfo_run E _ _ _ _ _ Hload).
  split; [by eexists|]. split; [done|]. intros Hr.
  unfold result_of. cbn [fst]. unfold cleaned. fold r.
  replace (truthy_ostr r.2) with false; [done|].
  destruct Hr as [[_ Hnone]|Hempty]; [by rewrite Hnone | done].
Qed.

Lemma C9_reflow_failure_not_fatal_witness :
  let E := withFailingPrep (Demo.board Demo.nothingNew None "" "") in
  loadFile E 3 = Ok (Demo.file 3)
  /\ FileEntry.desc (Demo.file 3) = Some "A file"
  /\ fileBytes (Demo.file 3) = 300
  /\ reflow_failed (AnsiPrep E (FileEntry.desc (Demo.file 3)) (79 - 26) 26)
  /\ result_of (loadFileInfo E 26 3 500 Demo.seasoned) = Ok (Demo.file 3, 800).
Proof.
  split; [reflexivity|]. split; [reflexivity|]. split; [reflexivity|].
  split; [by split; [eexists|] |].
  apply (C9_reflow_failure_not_fatal
           (withFailingPrep (Demo.board Demo.nothingNew None "" ""))
           26 3 500 Demo.seasoned (Demo.file 3) eq_refl).
  left. by split; [eexists|].
Defined.

(** ** Delivery *)

Lemma js_split_piece sep piece rest :
  contains sep piece = false ->
  js_split sep (piece +:+ String sep rest) = piece :: js_split sep rest.
Proof.
  induction piece as [|c piece IH]; simpl.
  - by rewrite Ascii.eqb_refl.
  - intros [Hc Hpiece]%orb_false_iff. rewrite Hc. by rewrite IH.
Qed.

Lemma js_split_whole sep piece :
  contains sep piece = false -> js_split sep piece = [piece].
Proof.
  induction piece as [|c piece IH]; simpl; [done|].
  intros [Hc Hpiece]%orb_false_iff. rewrite Hc. by rewrite IH.
Qed.

(** A list of k >= 1 tags, none with a comma in it, written with commas in
    between, is split back into those k tags. *)
Lemma js_split_join (tags : list string) :
  tags <> [] ->
  Forall (fun tag => contains "," tag = false) tags ->
  js_split "," (js_join "," tags) = tags.
Proof.
  induction tags as [|tag tags IH]; [done|]. intros _ Htags.
  apply Forall_cons in Htags as [Htag Htags].
  destruct tags as [|tag' tags].
  - by apply js_split_whole.
  - change (js_join "," (tag :: tag' :: tags))
      with (tag +:+ String "," (js_join "," (tag' :: tags))).
    rewrite js_split_piece by done. by rewrite IH.
Qed.

Lemma attempted_deliveryCalls options fo msgs :
  attempted (deliveryCalls options fo msgs) = msgs.
Proof. induction msgs as [|m msgs IH]; [done|]. simpl. by rewrite <- IH at 2. Qed.

Section Delivery.

Variable E : Env.
Variable options : Options.t.
Variable fo : FormatObj.
Variable body : string.

Let subject := stringFormat E (Options.subjectFormat options) fo.
Let deliver := async_eachSeries (postTo E options fo body).

Lemma postTo_run tag s :
  postTo E options fo body tag s
  = let msg := mkMessage options body subject tag in
    let calls := [EvStringFormat (Options.subjectFormat options) fo;
                  EvPersistMessage msg] in
    match persistMessage E (msgBase s) msg with
    | None => (Ok tt, mkStore (systemStats s) (msgBase s ++ [msg]), calls)
    | Some e => (Err e, s, calls)
    end.
Proof.
  unfold postTo, format, call, persist, bind. cbn zeta.
  by destruct (persistMessage E _ _).
Qed.

(** Every destination accepts its message. *)
Lemma deliver_all tags :
  forall s,
    let msgs := map (mkMessage options body subject) tags in
    (forall i msg, msgs !! i = Some msg ->
                   persistMessage E (msgBase s ++ take i msgs) msg = None) ->
    result_of (deliver tags s) = Ok tt
    /\ events_of (deliver tags s) = deliveryCalls options fo msgs
    /\ systemStats (store_of (deliver tags s)) = systemStats s
    /\ msgBase (store_of (deliver tags s)) = msgBase s ++ msgs.
Proof.
  induction tags as [|tag tags IH]; intros s msgs Hok.
  - simpl. by rewrite app_nil_r.
  - pose proof (Hok 0%nat _ eq_refl) as H0. simpl in H0. rewrite app_nil_r in H0.
    unfold deliver in *. cbn [async_eachSeries]. unfold bind.
    rewrite postTo_run. cbn zeta. rewrite H0.
    set (s1 := mkStore _ _).
    destruct (IH s1) as (Hres & Hev & Hstats & Hbase).
    { intros i msg Hi. specialize (Hok (S i) msg Hi). simpl in Hok.
      rewrite <- Hok. unfold s1. cbn [msgBase]. by rewrite <- app_assoc. }
    unfold result_of, events_of, store_of in *.
    destruct (async_eachSeries _ tags s1) as [[r s2] ev2].
    cbn [fst snd] in *. rewrite Hres, Hev, Hstats, Hbase. unfold s1.
    cbn [msgBase systemStats]. rewrite <- app_assoc. by repeat split.
Qed.

(** Destination [j] is the first whose message is refused. *)
Lemma deliver_stops tags :
  forall s j msg e,
    let msgs := map (mkMessage options body subject) tags in
    (forall i msg', (i < j)%nat -> msgs !! i = Some msg' ->
                    persistMessage E (msgBase s ++ take i msgs) msg' = None) ->
    msgs !! j = Some msg ->
    persistMessage E (msgBase s ++ take j msgs) msg = Some e ->
    result_of (deliver tags s) = Err e
    /\ events_of (deliver tags s) = deliveryCalls options fo (take (S j) msgs)
    /\ systemStats (store_of (deliver tags s)) = systemStats s
    /\ msgBase (store_of (deliver tags s)) = msgBase s ++ take j msgs.
Proof.
  induction tags as [|tag tags IH]; intros s j msg e msgs Hok Hj Hfail; [done|].
  unfold deliver in *. cbn [async_eachSeries]. unfold bind.
  rewrite postTo_run. cbn zeta.
  destruct j as [|j].
  - simpl in Hj, Hfail. injection Hj as <-. rewrite app_nil_r in Hfail.
    rewrite Hfail. unfold result_of, events_of, store_of. cbn [fst snd].
    rewrite take_0, app_nil_r. by repeat split.
  - pose proof (Hok 0%nat _ ltac:(lia) eq_refl) as H0.
    simpl in H0. rewrite app_nil_r in H0. rewrite H0.
    set (s1 := mkStore _ _).
    destruct (IH s1 j msg e) as (Hres & Hev & Hstats & Hbase).
    { intros i msg' Hlt Hi. specialize (Hok (S i) msg' ltac:(lia) Hi).
      simpl in Hok. rewrite <- Hok. unfold s1. cbn [msgBase].
      by rewrite <- app_assoc. }
    { done. }
    { simpl in Hfail. rewrite <- Hfail. unfold s1. cbn [msgBase].
      by rewrite <- app_assoc. }
    unfold result_of, events_of, store_of in *.
    destruct (async_eachSeries _ tags s1) as [[r s2] ev2].
    cbn [fst snd] in *. rewrite Hres, Hev, Hstats, Hbase. unfold s1.
    cbn [msgBase systemStats]. rewrite <- app_assoc. by repeat split.
Qed.

End Delivery.

(** ** The body of the report *)

Lemma append_assoc (a b c : string) : (a +:+ b) +:+ c = a +:+ b +:+ c.
Proof.
  induction a as [|x a IH]; [done|].
  change (String x ((a +:+ b) +:+ c) = String x (a +:+ b +:+ c)). by rewrite IH.
Qed.

Lemma append_empty_r (a : string) : a +:+ "" = a.
Proof.
  induction a as [|x a IH]; [done|].
  change (String x (a +:+ "") = String x a). by rewrite IH.
Qed.

Lemma textOf_cons E c calls :
  textOf E (c :: calls) = stringFormat E c.1 c.2 +:+ textOf E calls.
Proof. reflexivity. Qed.

Lemma textOf_app E calls1 calls2 :
  textOf E (calls1 ++ calls2) = textOf E calls1 +:+ textOf E calls2.
Proof.
  induction calls1 as [|c calls1 IH]; [done|].
  change (textOf E ((c :: calls1) ++ calls2))
    with (stringFormat E c.1 c.2 +:+ textOf E (calls1 ++ calls2)).
  rewrite IH. symmetry. apply append_assoc.
Qed.

Lemma setAreaFields_other r fo k :
  is_area_key k = false -> setAreaFields r fo !! k = fo !! k.
Proof.
  unfold is_area_key. intros Hk%bool_decide_eq_false.
  assert (Hne : forall k', k' ∈ ["areaFileCount"; "areaRemainingFiles"; "areaFileBytes";
                                 "totalFileCount"; "totalFileBytes"; "areaName";
                                 "areaDesc"] -> k' <> k)
    by (intros k' Hin <-; by apply Hk).
  unfold setAreaFields.
  rewrite !lookup_insert_ne by (apply Hne; set_solver).
  rewrite !plus_assign_ne by (apply Hne; set_solver).
  by rewrite !lookup_insert_ne by (apply Hne; set_solver).
Qed.

Section Report.

Variable E : Env.
Variable T : list string.

Lemma renderEntries_body files :
  forall fo body s,
    forEach (renderEntry E T) files (fo, body) s
    = (Ok (afterEntries fo files,
           body +:+ textOf E (map (pair (T !!! 2%nat)) (entryContexts fo files))),
       s, map (EvStringFormat (T !!! 2%nat)) (entryContexts fo files)).
Proof.
  induction files as [|f l IH]; intros fo body s.
  - simpl. by rewrite append_empty_r.
  - cbn [forEach entryContexts map textOf foldr afterEntries foldl].
    eapply (bind_run_Ok _ _ _ _ _ [_]).
    + unfold renderEntry. eapply (bind_run_Ok _ _ _ _ _ [_] _ _ []); reflexivity.
    + rewrite IH. cbn [fst snd]. by rewrite append_assoc.
Qed.

Lemma renderArea_body fo body r s :
  AreaFiles.files r <> [] ->
  renderArea E T (fo, body) r s
  = (Ok (afterEntries (setAreaFields r fo) (AreaFiles.files r),
         body +:+ textOf E (formatted (areaBlock T fo r))),
     s, areaBlock T fo r).
Proof.
  intros Hne. unfold renderArea.
  destruct (AreaFiles.files r) as [|f l] eqn:Hfiles; [done|].
  replace (0 =? Z.of_nat (length (f :: l))) with false
    by (symmetry; apply Z.eqb_neq; simpl; lia).
  cbn [fst snd]. unfold areaBlock. rewrite Hfiles.
  eapply (bind_run_Ok _ _ _ _ _ [_]); [reflexivity|].
  eapply bind_run_Ok; [apply renderEntries_body|].
  cbn [fst snd]. unfold bind, format, call, ret. cbn [fst snd]. f_equal. f_equal. f_equal.
  rewrite formatted_cons, formatted_app, formatted_map, formatted_cons.
  change (formatted []) with (@nil (string * FormatObj)).
  rewrite textOf_cons, textOf_app, textOf_cons. cbn [fst snd].
  change (textOf E []) with "". by rewrite !append_assoc, append_empty_r.
Qed.

(** Rendering a list of areas never fails, leaves the store alone, and
    appends to the body exactly what its [stringFormat] calls returned.  The
    file count it leaves is positive once an area that lists files has been
    rendered. *)
Lemma renderAreas_body rs :
  forall fo body s,
    exists fo' evs,
      forEach (renderArea E T) rs (fo, body) s
      = (Ok (fo', body +:+ textOf E (formatted evs)), s, evs)
      /\ Forall (fun e => is_render e = true) evs
      /\ (forall k v, is_file_key k = false -> is_area_key k = false ->
                      fo !! k = Some v ->
                      fo' !! k = Some v /\ Forall (sees k v) evs)
      /\ (forall c, fo !! "totalFileCount" = Some (VNum c) -> 0 <= c ->
             exists c', fo' !! "totalFileCount" = Some (VNum c')
                        /\ 0 <= c'
                        /\ (0 < c \/ Exists lists_files rs -> 0 < c')).
Proof.
  induction rs as [|r rs IH]; intros fo body s.
  - exists fo, []. simpl. rewrite append_empty_r. do 3 (split; [done|]).
    intros c Hc Hc0. exists c. do 2 (split; [done|]).
    intros [?|Hex]; [done | by apply Exists_nil in Hex].
  - destruct (AreaFiles.files r) as [|f l] eqn:Hfiles.
    + destruct (IH fo body s) as (fo' & evs & Hrun & Hev & Hkeys & Hcount).
      exists fo', evs. split; [|do 2 (split; [done|])].
      { cbn [forEach].
        eapply (bind_run_Ok _ _ _ _ _ []); [by apply renderArea_empty | exact Hrun]. }
      intros c Hc Hc0. destruct (Hcount c Hc Hc0) as (c' & Hc' & Hc'0 & Hpos).
      exists c'. do 2 (split; [done|]). intros [?|Hex]; [by auto|].
      apply Hpos. apply Exists_cons in Hex as [Hr|Hex]; [|by right].
      unfold lists_files in Hr. by rewrite Hfiles in Hr.
    + set (fo1 := afterEntries (setAreaFields r fo) (AreaFiles.files r)).
      destruct (IH fo1 (body +:+ textOf E (formatted (areaBlock T fo r))) s)
        as (fo' & evs & Hrun & Hev & Hkeys & Hcount).
      exists fo', (areaBlock T fo r ++ evs). split; [|split; [|split]].
      * cbn [forEach]. rewrite formatted_app, textOf_app, <- append_assoc.
        eapply bind_run_Ok; [|exact Hrun].
        apply renderArea_body. by rewrite Hfiles.
      * apply Forall_app. split; [|done].
        pose proof (frame_renderArea E T (fo, body) r s) as [_ HF].
        rewrite renderArea_body in HF by (by rewrite Hfiles). exact HF.
      * intros k v Hfk Hak Hk.
        assert (Hk1 : setAreaFields r fo !! k = Some v)
          by (by rewrite setAreaFields_other).
        destruct (Hkeys k v Hfk Hak) as [Hk' Hsees].
        { unfold fo1. by rewrite afterEntries_other. }
        split; [done|]. apply Forall_app. split; [|done].
        by apply areaBlock_sees.
      * intros c Hc Hc0.
        assert (Hlen : 0 < Z.of_nat (length (AreaFiles.files r)))
          by (rewrite Hfiles; simpl; lia).
        destruct (Hcount (js_add c (Z.of_nat (length (AreaFiles.files r)))))
          as (c' & Hc' & Hc'0 & Hpos).
        { unfold fo1. rewrite afterEntries_other by done.
          by apply setAreaFields_count. }
        { apply js_add_nonneg; lia. }
        exists c'. do 2 (split; [done|]). intros _. apply Hpos. left.
        apply js_add_pos; lia.
Qed.

End Report.

Section Messages.

Variable E : Env.

Lemma delivery_calls options fo msgBody (tags : list string) :
  forall s,
    Forall (delivery_call E options fo msgBody tags)
           (events_of (async_eachSeries (postTo E options fo msgBody) tags s)).
Proof.
  induction tags as [|tag tags IH]; intros s; [constructor|].
  cbn [async_eachSeries]. unfold bind. rewrite postTo_run. cbn zeta.
  assert (Hweak : forall s', Forall (delivery_call E options fo msgBody (tag :: tags))
                    (events_of (async_eachSeries (postTo E options fo msgBody) tags s'))).
  { intros s'. eapply Forall_impl; [apply IH|]. intros [] He; try done.
    destruct He as (tag' & Hin & ->). exists tag'. split; [by right | done]. }
  assert (Hhead : forall rest, Forall (delivery_call E options fo msgBody (tag :: tags)) rest ->
            Forall (delivery_call E options fo msgBody (tag :: tags))
              ([EvStringFormat (Options.subjectFormat options) fo;
                EvPersistMessage (mkMessage options msgBody
                   (stringFormat E (Options.subjectFormat options) fo) tag)] ++ rest)).
  { intros rest Hrest. constructor; [done|]. constructor; [|done].
    exists tag. split; [by left | done]. }
  destruct (persistMessage E (msgBase s) _) as [e|].
  - unfold events_of. cbn [snd]. rewrite <- (app_nil_r [_; _]).
    apply Hhead. constructor.
  - specialize (Hweak (mkStore (systemStats s)
                         (msgBase s ++ [mkMessage options msgBody
                            (stringFormat E (Options.subjectFormat options) fo) tag]))).
    unfold events_of in *.
    destruct (async_eachSeries _ tags _) as [[r s2] ev2]. cbn [snd] in *.
    by apply Hhead.
Qed.

(** [buildMessages], whatever it is given: the header, the areas and the
    footer are formatted without fail; the body is what these calls
    returned, in order; then comes the delivery, if any file was counted,
    as is the case once an area lists files. *)
Lemma buildMessages_shape args options T rs d s :
  let fo0 := initialFormatObj E options in
  exists fo areaCalls,
    let rendering := EvStringFormat (T !!! 0%nat) fo0
                       :: areaCalls ++ [EvStringFormat (T !!! 4%nat) fo] in
    let msgBody := textOf E (formatted rendering) in
    let delivery :=
      (if num_gt0 "totalFileCount" fo then
         async_eachSeries (postTo E options fo msgBody) (js_split "," (args !!! 0%nat))
       else ret tt) s in
    events_of (forEach (renderArea E T) rs (fo0, stringFormat E (T !!! 0%nat) fo0) s)
    = areaCalls
    /\ Forall (fun e => is_render e = true) areaCalls
    /\ (forall k v, is_file_key k = false -> is_area_key k = false ->
                    fo0 !! k = Some v ->
                    fo !! k = Some v /\ Forall (sees k v) areaCalls)
    /\ buildMessages E args options T rs d s
       = (result_of delivery, store_of delivery, rendering ++ events_of delivery)
    /\ (exists body,
          result_of (forEach (renderArea E T) rs
                       (fo0, stringFormat E (T !!! 0%nat) fo0) s) = Ok (fo, body))
    /\ (Exists lists_files rs -> num_gt0 "totalFileCount" fo = true).
Proof.
  intros fo0.
  destruct (renderAreas_body E T rs fo0 (stringFormat E (T !!! 0%nat) fo0) s)
    as (fo & evs & Hrun & Hev & Hkeys & Hcount).
  exists fo, evs. cbn zeta. rewrite Hrun. do 3 (split; [done|]).
  split; [|split; [by eexists|]].
  2:{ intros Hex.
      destruct (Hcount 0 (initialFormatObj_count E options) ltac:(lia))
        as (c' & Hc' & _ & Hpos).
      unfold num_gt0. rewrite Hc'. apply Z.ltb_lt. apply Hpos. by right. }
  assert (Hbody : textOf E (formatted (EvStringFormat (T !!! 0%nat) fo0
                                         :: evs ++ [EvStringFormat (T !!! 4%nat) fo]))
                  = (stringFormat E (T !!! 0%nat) fo0 +:+ textOf E (formatted evs))
                    +:+ stringFormat E (T !!! 4%nat) fo).
  { rewrite formatted_cons, formatted_app, textOf_cons, textOf_app. cbn [fst snd].
    change (textOf E (formatted [EvStringFormat (T !!! 4%nat) fo]))
      with (stringFormat E (T !!! 4%nat) fo +:+ "").
    by rewrite append_empty_r, append_assoc. }
  rewrite Hbody.
  unfold buildMessages. fold fo0. unfold bind, format, call. cbv beta iota.
  rewrite Hrun. cbv beta iota zeta. cbn [fst snd].
  unfold result_of, store_of, events_of.
  destruct (num_gt0 "totalFileCount" fo).
  - destruct (async_eachSeries _ _ s) as [[r4 s4] ev4].
    cbn [fst snd]. f_equal. cbn [app]. f_equal. by rewrite <- app_assoc.
  - unfold ret. cbn [fst snd]. f_equal. cbn [app]. f_equal. by rewrite <- app_assoc.
Qed.

End Messages.

Lemma entryContexts_lookup (files : list FileEntry.t) :
  forall fo j f, files !! j = Some f ->
    exists prev, entryContexts fo files !! j = Some (setFileFields f prev).
Proof.
  induction files as [|f0 l IH]; intros fo j f Hj; [done|].
  destruct j as [|j]; simpl in *.
  - injection Hj as ->. by exists fo.
  - by apply IH.
Qed.

Lemma last_entryContexts (files : list FileEntry.t) :
  forall fo, last (fo :: entryContexts fo files) = Some (afterEntries fo files).
Proof.
  induction files as [|f l IH]; intros fo; [done|].
  change (last (fo :: entryContexts fo (f :: l)))
    with (last (setFileFields f fo :: entryContexts (setFileFields f fo) l)).
  apply IH.
Qed.

Lemma or_str_empty (o : option string) : or_str o "" = default "" o.
Proof. unfold or_str. by destruct o as [[|]|]. Qed.

Lemma formatted_areaBlock T fo r :
  formatted (areaBlock T fo r)
  = (T !!! 1%nat, setAreaFields r fo)
      :: map (pair (T !!! 2%nat)) (entryContexts (setAreaFields r fo) (AreaFiles.files r))
      ++ [(T !!! 3%nat, afterEntries (setAreaFields r fo) (AreaFiles.files r))].
Proof.
  unfold areaBlock. cbn zeta.
  by rewrite formatted_cons, formatted_app, formatted_map, formatted_cons.
Qed.

(** ** The cap, the deliveries and the running totals *)

Lemma entryContexts_files (files : list FileEntry.t) :
  forall fo,
    Forall2 (fun f c => exists prev, c = setFileFields f prev)
            files (entryContexts fo files).
Proof.
  induction files as [|f l IH]; intros fo; simpl; constructor; [by eexists | apply IH].
Qed.

(** What the assignments made for an area put under a key that no file
    assignment touches is seen by the area's header, entries and footer. *)
Lemma area_contexts_see (r : AreaFiles.t) (fo : FormatObj) k v :
  is_file_key k = false ->
  setAreaFields r fo !! k = Some v ->
  Forall (fun c => c !! k = Some v)
         (setAreaFields r fo
            :: entryContexts (setAreaFields r fo) (AreaFiles.files r)
            ++ [afterEntries (setAreaFields r fo) (AreaFiles.files r)]).
Proof.
  intros Hk Hv. constructor; [done|]. apply Forall_app. split.
  - eapply Forall_impl; [by apply entryContexts_other|]. simpl. by intros c ->.
  - constructor; [|done]. by rewrite afterEntries_other.
Qed.

Lemma setAreaFields_fileCount r fo :
  setAreaFields r fo !! "areaFileCount"
  = Some (VNum (Z.of_nat (length (AreaFiles.files r)))).
Proof.
  unfold setAreaFields. rewrite !lookup_insert_ne by done.
  rewrite !plus_assign_ne by done. rewrite !lookup_insert_ne by done.
  apply lookup_insert_eq.
Qed.

(** C2.  For an area whose query returned N new file ids, under a cap C >= 0
    ([options.maxFilesPerArea]), an area result that is produced lists
    exactly min(N, C) files: the first min(N, C) ids in the order the catalog
    returned them, each loaded and cleaned.  Its [remainingFiles] is N - C
    when N > C and 0 when C >= N.  In the report, the area has no block when
    min(N, C) is 0; otherwise its block is the area header, one entry for
    each of these files, in that order and showing that file's name, size
    and cleaned description, and the area footer, and each of them sees
    [areaRemainingFiles] as that number and [areaFileCount] as min(N, C). *)
Theorem C2_cap_per_area (E : Env) (options : Options.t) (descIndent : Z)
        (lastTimestamp : string) (area : Area.t) (s : Store)
        (fileIds : list Z) (r : AreaFiles.t) :
  findFiles E lastTimestamp (Area.areaTag area) = Ok fileIds ->
  result_of (scanArea E options descIndent lastTimestamp area s) = Ok r ->
  0 <= Options.maxFilesPerArea options ->
  let N := Z.of_nat (length fileIds) in
  let C := Options.maxFilesPerArea options in
  Z.of_nat (length (AreaFiles.files r)) = Z.min N C
  /\ Forall2 (loaded_from E descIndent)
             (take (Z.to_nat (Z.min N C)) fileIds) (AreaFiles.files r)
  /\ (N > C -> AreaFiles.remainingFiles r = N - C)
  /\ (C >= N -> AreaFiles.remainingFiles r = 0)
  /\ forall T fo body s',
       let report := formatted (events_of (renderArea E T (fo, body) r s')) in
       (Z.min N C = 0 -> report = [])
       /\ (0 < Z.min N C ->
           exists hdr entries ftr,
             report = (T !!! 1%nat, hdr)
                        :: map (pair (T !!! 2%nat)) entries ++ [(T !!! 3%nat, ftr)]
             /\ Forall2 (fun info c =>
                           c !! "fileName" = Some (VStr (FileEntry.fileName info))
                           /\ c !! "fileSize" = Some (VNum (fileBytes info))
                           /\ c !! "fileDesc"
                              = Some (VStr (default "" (FileEntry.desc info))))
                        (AreaFiles.files r) entries
             /\ Forall (fun c =>
                          c !! "areaRemainingFiles"
                          = Some (VNum (AreaFiles.remainingFiles r))
                          /\ c !! "areaFileCount" = Some (VNum (Z.min N C)))
                       (hdr :: entries ++ [ftr])).
Proof.
  intros Hfind Hscan Hcap N C.
  apply scanArea_Ok in Hscan as (ids & Hids & _ & Hfiles & _ & Hrem).
  rewrite Hfind in Hids. injection Hids as <-.
  rewrite js_slice0_nonneg in Hfiles by done. fold N C in Hfiles.
  assert (Hlen : Z.of_nat (length (AreaFiles.files r)) = Z.min N C).
  { apply Forall2_length in Hfiles. rewrite <- Hfiles, length_take. lia. }
  do 2 (split; [done|]).
  unfold remainingOf in Hrem. fold N C in Hrem. cbn zeta in Hrem.
  split; [|split].
  - intros HNC. rewrite Hrem.
    by replace (N >? C) with true by (symmetry; apply Z.gtb_lt; lia).
  - intros HNC. rewrite Hrem.
    by replace (N >? C) with false by (rewrite Z.gtb_ltb; symmetry; apply Z.ltb_ge; lia).
  - intros T fo body s'. cbn zeta. split.
    + intros Hzero. rewrite renderArea_empty; [done|].
      destruct (AreaFiles.files r); [done | simpl in Hlen; lia].
    + intros Hpos.
      assert (Hne : AreaFiles.files r <> [])
        by (intros Hnil; rewrite Hnil in Hlen; simpl in Hlen; lia).
      rewrite (renderArea_body E T fo body r s' Hne).
      unfold events_of. cbn [snd]. rewrite formatted_areaBlock.
      set (fo1 := setAreaFields r fo).
      exists fo1, (entryContexts fo1 (AreaFiles.files r)),
             (afterEntries fo1 (AreaFiles.files r)).
      split; [done|]. split.
      * eapply Forall2_impl; [apply entryContexts_files|].
        intros f c [prev ->]. unfold setFileFields. cbn zeta.
        repeat (split; [by repeat (rewrite lookup_insert_ne by done);
                           rewrite lookup_insert_eq, ?or_str_empty|]).
        repeat (rewrite lookup_insert_ne by done).
        by rewrite lookup_insert_eq, ?or_str_empty.
      * apply Forall_and. split; apply area_contexts_see; try done.
        -- apply setAreaFields_remaining.
        -- rewrite <- Hlen. apply setAreaFields_fileCount.
Qed.

Lemma C2_cap_per_area_witness :
  let E := Demo.board Demo.threeInGames (Some Demo.capTwo) "" "" in
  let options := withDefaults E Demo.capTwo in
  let area := Area.mk "games" "Games" "DOS games" in
  let r := AreaFiles.mk area [Demo.file 1; Demo.file 2] 300 1 in
  findFiles E Demo.LAST "games" = Ok [1; 2; 3]
  /\ result_of (scanArea E options 0 Demo.LAST area Demo.seasoned) = Ok r
  /\ Options.maxFilesPerArea options = 2
  /\ AreaFiles.remainingFiles r = 3 - 2
  /\ exists (hdr : FormatObj) (entries : list FormatObj) (ftr : FormatObj),
       formatted (events_of (renderArea E ["H"; "AH"; "E"; "AF"; "F"] (∅, "") r
                                        Demo.seasoned))
       = ("AH", hdr) :: map (pair "E") entries ++ [("AF", ftr)]
       /\ length entries = 2%nat
       /\ Forall (fun c => c !! "areaRemainingFiles" = Some (VNum 1)
                           /\ c !! "areaFileCount" = Some (VNum 2))
                 (hdr :: entries ++ [ftr]).
Proof.
  split; [reflexivity|]. split; [reflexivity|]. split; [reflexivity|].
  destruct (C2_cap_per_area (Demo.board Demo.threeInGames (Some Demo.capTwo) "" "")
              (withDefaults (Demo.board Demo.threeInGames (Some Demo.capTwo) "" "")
                            Demo.capTwo)
              0 Demo.LAST (Area.mk "games" "Games" "DOS games") Demo.seasoned [1; 2; 3]
              (AreaFiles.mk (Area.mk "games" "Games" "DOS games")
                            [Demo.file 1; Demo.file 2] 300 1)
              eq_refl eq_refl ltac:(vm_compute; discriminate))
    as (_ & _ & Hrem & _ & Hreport).
  split; [exact (Hrem eq_refl)|].
  destruct (Hreport ["H"; "AH"; "E"; "AF"; "F"] ∅ "" Demo.seasoned) as [_ Hblock].
  destruct (Hblock eq_refl) as (hdr & entries & ftr & Hev & Hentries & Hall).
  exists hdr, entries, ftr. split; [exact Hev|]. split; [|exact Hall].
  apply Forall2_length in Hentries. symmetry. exact Hentries.
Defined.

(** With the cap set to -1 in options.hjson, [slice(0, -1)] drops the last
    id: of the 3 new files of the area 2 are listed, which is not
    min(3, -1), and [remainingFiles] is 3 - (-1) = 4. *)
Lemma C2_negative_cap_counterexample :
  let E := Demo.board Demo.threeInGames (Some Demo.capMinusOne) "" "" in
  let options := withDefaults E Demo.capMinusOne in
  let area := Area.mk "games" "Games" "DOS games" in
  findFiles E Demo.LAST (Area.areaTag area) = Ok [1; 2; 3]
  /\ Options.maxFilesPerArea options = -1
  /\ exists r,
       result_of (scanArea E options 0 Demo.LAST area Demo.seasoned) = Ok r
       /\ map FileEntry.fileId (AreaFiles.files r) = [1; 2]
       /\ Z.of_nat (length (AreaFiles.files r)) <> Z.min 3 (-1)
       /\ AreaFiles.remainingFiles r = 4.
Proof.
  split; [reflexivity|]. split; [reflexivity|].
  eexists. split; [reflexivity|]. split; [reflexivity|].
  split; [vm_compute; discriminate | reflexivity].
Qed.

(** C8.  Take the per-area results of a scan in which some area lists a
    file.  The destinations are the pieces of [args[0]] between commas (k
    tags written with commas in between are k destinations).  There is one
    message per destination, in the listed order: addressed to that tag,
    from and to the configured names, marked cp437, all with the same body,
    namely what the [stringFormat] calls for the header, the areas and the
    footer returned, one after the other, and all with the same subject:
    the subject format applied to the very context the footer was formatted
    against, which holds the final totals.  Each subject is formatted and
    each message handed to the message base before the next destination is
    touched.  If every message is accepted, exactly these k messages are
    handed over and stored, and the run succeeds.  If the message for
    destination [j] is the first to be refused, the run fails with that
    error, the messages handed over are those of destinations 0..j and no
    later one, and those before [j] stay stored. *)
Theorem C8_delivery_in_order (E : Env) (args : list string)
        (options0 : Options.t) (T0 : list string) (d0 : Z) (s0 : Store)
        (options : Options.t) (T : list string) (rs : list AreaFiles.t) (d : Z)
        (s : Store) :
  result_of (findNewFiles E options0 T0 d0 s0) = Ok (options, T, rs, d) ->
  Exists lists_files rs ->
  let run := buildMessages E args options T rs d s in
  let fo0 := initialFormatObj E options in
  let areaCalls :=
    events_of (forEach (renderArea E T) rs (fo0, stringFormat E (T !!! 0%nat) fo0) s) in
  let tags := js_split "," (args !!! 0%nat) in
  exists footerObj msgs,
    let rendering := EvStringFormat (T !!! 0%nat) fo0
                       :: areaCalls ++ [EvStringFormat (T !!! 4%nat) footerObj] in
    let msgBody := textOf E (formatted rendering) in
    let subject := stringFormat E (Options.subjectFormat options) footerObj in
    Forall2 (fun tag msg =>
               Message.areaTag msg = tag
               /\ Message.message msg = msgBody
               /\ Message.subject msg = subject
               /\ Message.toUserName msg = Options.to options
               /\ Message.fromUserName msg = Options.from options
               /\ Message.explicit_encoding msg = "cp437")
            tags msgs
    /\ (forall dests, dests <> [] ->
                      Forall (fun tag => contains "," tag = false) dests ->
                      args !!! 0%nat = js_join "," dests ->
                      tags = dests)
    /\ (safe_totals rs ->
        footerObj !! "totalFileCount" = Some (VNum (includedCount rs))
        /\ footerObj !! "totalFileBytes" = Some (VNum (includedBytes rs)))
    /\ ((forall i msg, msgs !! i = Some msg ->
                       persistMessage E (msgBase s ++ take i msgs) msg = None) ->
        result_of run = Ok tt
        /\ attempted (events_of run) = msgs
        /\ events_of run = rendering ++ deliveryCalls options footerObj msgs
        /\ msgBase (store_of run) = msgBase s ++ msgs)
    /\ (forall j msg e,
           (forall i msg', (i < j)%nat -> msgs !! i = Some msg' ->
                           persistMessage E (msgBase s ++ take i msgs) msg' = None) ->
           msgs !! j = Some msg ->
           persistMessage E (msgBase s ++ take j msgs) msg = Some e ->
           result_of run = Err e
           /\ attempted (events_of run) = take (S j) msgs
           /\ events_of run
              = rendering ++ deliveryCalls options footerObj (take (S j) msgs)
           /\ msgBase (store_of run) = msgBase s ++ take j msgs).
Proof.
  intros Hscan Hsome run fo0 areaCalls tags.
  destruct (buildMessages_shape E args options T rs d s)
    as (fo & evs & Hevs & Hrender & _ & Hrun & [body Hres] & Hgt).
  cbn zeta in Hrun. fold fo0 in Hevs, Hrun, Hres. fold areaCalls in Hevs. subst evs.
  rewrite (Hgt Hsome) in Hrun. fold tags in Hrun.
  set (rendering := EvStringFormat (T !!! 0%nat) fo0
                      :: areaCalls ++ [EvStringFormat (T !!! 4%nat) fo]) in *.
  set (msgBody := textOf E (formatted rendering)) in *.
  assert (Hquiet : attempted rendering = []).
  { apply attempted_none. unfold rendering. constructor; [done|].
    apply Forall_app. split; [|by repeat constructor].
    eapply Forall_impl; [exact Hrender|]. by intros []. }
  exists fo, (map (mkMessage options msgBody
                     (stringFormat E (Options.subjectFormat options) fo)) tags).
  cbn zeta. fold rendering msgBody.
  split; [|split; [|split; [|split]]].
  - apply Forall2_fmap_r, Forall_Forall2_diag, Forall_true. by intros tag.
  - intros dests Hne Hfree Heq. unfold tags. rewrite Heq. by apply js_split_join.
  - intros Hsafe.
    destruct (buildMessages_run E args options T rs d s
                (findNewFiles_consistent E _ _ _ _ _ _ _ _ Hscan) Hsafe)
      as (fo' & body' & Hres' & Hc & Hb & _).
    fold fo0 in Hres'. rewrite Hres in Hres'. injection Hres' as <- <-. done.
  - intros Hok.
    destruct (deliver_all E options fo msgBody tags s Hok) as (Hres1 & Hev & _ & Hbase).
    unfold run. rewrite Hrun. unfold result_of, store_of, events_of in *. cbn [fst snd].
    rewrite Hres1, Hev, Hbase. split; [done|]. split; [|done].
    rewrite attempted_app, Hquiet. apply (attempted_deliveryCalls options fo).
  - intros j msg e Hok Hj Hfail.
    destruct (deliver_stops E options fo msgBody tags s j msg e Hok Hj Hfail)
      as (Hres1 & Hev & _ & Hbase).
    unfold run. rewrite Hrun. unfold result_of, store_of, events_of in *. cbn [fst snd].
    rewrite Hres1, Hev, Hbase. split; [done|]. split; [|done].
    rewrite attempted_app, Hquiet. apply (attempted_deliveryCalls options fo).
Qed.

Lemma C8_delivery_in_order_witness :
  let E := Demo.board Demo.threeInGames None "" "agn_ads" in
  let options0 := withDefaults E RawOptions.empty in
  let options := Options.set_sinceTs Demo.LAST options0 in
  let T := ["H"; "AH"; "E"; "AF"; "F"] in
  let rs := [ AreaFiles.mk (Area.mk "games" "Games" "DOS games")
                           [Demo.file 1; Demo.file 2; Demo.file 3] 600 0;
              AreaFiles.mk (Area.mk "utils" "Utilities" "Tools") [] 0 0 ] in
  let run := buildMessages E ["fsx_bot,agn_ads,x"] options T rs 0 Demo.seasoned in
  result_of (findNewFiles E options0 T 0 Demo.seasoned) = Ok (options, T, rs, 0)
  /\ Exists lists_files rs
  /\ result_of run = Err (HostError "" "Invalid area tag")
  /\ map Message.areaTag (attempted (events_of run)) = ["fsx_bot"; "agn_ads"]
  /\ map Message.message (attempted (events_of run)) = ["HAHEEEAFF"; "HAHEEEAFF"]
  /\ map Message.subject (attempted (events_of run))
     = ["New files on {boardName}"; "New files on {boardName}"]
  /\ map Message.areaTag (msgBase (store_of run)) = ["fsx_bot"].
Proof.
  assert (Hsome : Exists lists_files
            [ AreaFiles.mk (Area.mk "games" "Games" "DOS games")
                           [Demo.file 1; Demo.file 2; Demo.file 3] 600 0;
              AreaFiles.mk (Area.mk "utils" "Utilities" "Tools") [] 0 0 ])
    by (apply Exists_cons_hd; discriminate).
  split; [reflexivity|]. split; [exact Hsome|].
  destruct (C8_delivery_in_order
              (Demo.board Demo.threeInGames None "" "agn_ads") ["fsx_bot,agn_ads,x"]
              (withDefaults (Demo.board Demo.threeInGames None "" "agn_ads")
                            RawOptions.empty)
              ["H"; "AH"; "E"; "AF"; "F"] 0 Demo.seasoned
              (Options.set_sinceTs Demo.LAST
                 (withDefaults (Demo.board Demo.threeInGames None "" "agn_ads")
                               RawOptions.empty))
              ["H"; "AH"; "E"; "AF"; "F"]
              [ AreaFiles.mk (Area.mk "games" "Games" "DOS games")
                             [Demo.file 1; Demo.file 2; Demo.file 3] 600 0;
                AreaFiles.mk (Area.mk "utils" "Utilities" "Tools") [] 0 0 ]
              0 Demo.seasoned eq_refl Hsome)
    as (footerObj & msgs & Hmsgs & _ & _ & _ & Hstop).
  apply Forall2_cons_inv_l in Hmsgs as (m0 & msgs0 & Hm0 & Hmsgs & ->).
  apply Forall2_cons_inv_l in Hmsgs as (m1 & msgs1 & Hm1 & Hmsgs & ->).
  destruct Hm0 as (Htag0 & Hbody0 & Hsubj0 & _), Hm1 as (Htag1 & Hbody1 & Hsubj1 & _).
  destruct (Hstop 1%nat m1 (HostError "" "Invalid area tag"))
    as (Hres & Hatt & _ & Hbase).
  - intros [|i] msg' Hlt Hi; [|lia]. injection Hi as <-.
    cbn. by rewrite Htag0.
  - reflexivity.
  - cbn. by rewrite Htag1.
  - split; [exact Hres|]. rewrite Hatt, Hbase. cbn [take map app msgBase Demo.seasoned].
    rewrite Htag0, Htag1, Hbody0, Hbody1, Hsubj0, Hsubj1. by repeat split.
Defined.


(** C4.  Take the per-area results of a scan, with sizes that JavaScript
    numbers add exactly, and any area [r] among them that lists files, with
    [rs1] the areas before it.  The totals are
    updated once per area, before the area's header is formatted, so the
    [stringFormat] calls of the run are, in order: the global header (both
    totals 0), the calls for [rs1], then the header of [r], one entry per
    file of [r], and the footer of [r].  Every one of the calls for [r]
    sees [totalFileCount] = files listed in [rs1] and [r], and
    [totalFileBytes] = bytes of the files listed in [rs1] and [r]: the
    running total through the end of [r].  In particular the entry block of
    a file already shows a total that includes that file's own size. *)
Theorem C4_running_totals (E : Env) (args : list string)
        (options0 : Options.t) (T0 : list string) (d0 : Z) (s0 : Store)
        (options : Options.t) (T : list string) (rs : list AreaFiles.t) (d : Z)
        (s : Store) (rs1 rs2 : list AreaFiles.t) (r : AreaFiles.t) :
  result_of (findNewFiles E options0 T0 d0 s0) = Ok (options, T, rs, d) ->
  safe_totals rs ->
  rs = rs1 ++ r :: rs2 ->
  AreaFiles.files r <> [] ->
  let fo0 := initialFormatObj E options in
  let count := includedCount rs1 + Z.of_nat (length (AreaFiles.files r)) in
  let bytes := includedBytes rs1 + sumZ (map fileBytes (AreaFiles.files r)) in
  exists hdr entries ftr after,
    formatted (events_of (buildMessages E args options T rs d s))
    = (T !!! 0%nat, fo0)
        :: formatted (events_of (forEach (renderArea E T) rs1
                                   (fo0, stringFormat E (T !!! 0%nat) fo0) s))
        ++ (T !!! 1%nat, hdr)
        :: map (pair (T !!! 2%nat)) entries
        ++ (T !!! 3%nat, ftr) :: after
    /\ fo0 !! "totalFileCount" = Some (VNum 0)
    /\ fo0 !! "totalFileBytes" = Some (VNum 0)
    /\ Forall (fun fo => fo !! "totalFileCount" = Some (VNum count)
                         /\ fo !! "totalFileBytes" = Some (VNum bytes))
              (hdr :: entries ++ [ftr])
    /\ length entries = length (AreaFiles.files r)
    /\ (forall j f, AreaFiles.files r !! j = Some f ->
                    exists fo, entries !! j = Some fo
                               /\ fo !! "fileSize" = Some (VNum (fileBytes f))
                               /\ fo !! "totalFileBytes" = Some (VNum bytes)).
Proof.
  intros Hscan Hsafe -> Hfiles fo0 count bytes.
  pose proof (findNewFiles_consistent E _ _ _ _ _ _ _ _ Hscan) as Hrs.
  destruct (buildMessages_run E args options T _ d s Hrs Hsafe)
    as (fo & body & _ & _ & _ & ->).
  destruct Hsafe as (Hpos & Hcmax & Hbmax).
  apply Forall_app in Hrs as [Hrs1 Hrs2]. apply Forall_cons in Hrs2 as [Hr Hrs2].
  apply Forall_app in Hpos as [Hpos1 Hpos2]. apply Forall_cons in Hpos2 as [Hposr Hpos2].
  rewrite includedCount_app in Hcmax. rewrite includedBytes_app in Hbmax.
  change (includedCount (r :: rs2))
    with (Z.of_nat (length (AreaFiles.files r)) + includedCount rs2) in Hcmax.
  change (includedBytes (r :: rs2))
    with (sumZ (map fileBytes (AreaFiles.files r)) + includedBytes rs2) in Hbmax.
  pose proof (includedCount_nonneg rs1) as Hc1pos.
  pose proof (includedCount_nonneg rs2) as Hc2pos.
  pose proof (includedBytes_nonneg rs1 Hpos1) as Hb1pos.
  pose proof (includedBytes_nonneg rs2 Hpos2) as Hb2pos.
  assert (Hsum : 0 <= sumZ (map fileBytes (AreaFiles.files r)))
    by (by apply sumZ_nonneg, Forall_fmap).
  fold fo0. set (hdrText := stringFormat E (T !!! 0%nat) fo0).
  destruct (renderAreas_run E T rs1 Hrs1 Hpos1 fo0 hdrText s 0 0)
    as (fo1 & body1 & evs1 & Hrun1 & _ & Hc1 & Hb1);
    [apply initialFormatObj_count | apply initialFormatObj_bytes | lia..|].
  rewrite Z.add_0_l in Hc1, Hb1.
  destruct (renderArea_run E T fo1 body1 r s Hfiles) as [body2 Hrun].
  set (fo1' := setAreaFields r fo1) in *.
  assert (Hc : fo1' !! "totalFileCount" = Some (VNum count)).
  { unfold fo1', count. rewrite (setAreaFields_count _ _ _ Hc1).
    by rewrite js_add_exact by lia. }
  assert (Hb : fo1' !! "totalFileBytes" = Some (VNum bytes)).
  { unfold fo1', bytes. rewrite (setAreaFields_bytes _ _ _ Hb1), Hr.
    rewrite safe_sizes_sum by (split; [done | lia]).
    by rewrite js_add_exact by lia. }
  set (fo2 := afterEntries fo1' (AreaFiles.files r)) in *.
  assert (Hblock :
            forEach (renderArea E T) (rs1 ++ r :: rs2) (fo0, hdrText) s
            = let rest := forEach (renderArea E T) rs2 (fo2, body2) s in
              (result_of rest, store_of rest,
               evs1 ++ areaBlock T fo1 r ++ events_of rest)).
  { rewrite forEach_app. unfold bind at 1. rewrite Hrun1.
    cbn [forEach]. unfold bind at 1. rewrite Hrun. cbn zeta.
    unfold result_of, store_of, events_of.
    destruct (forEach (renderArea E T) rs2 (fo2, body2) s) as [[r3 s3] ev3].
    reflexivity. }
  rewrite Hblock, Hrun1. cbn zeta. unfold events_of at 1 2 3. cbn [snd].
  exists fo1', (entryContexts fo1' (AreaFiles.files r)), fo2. eexists.
  split; [|split; [apply initialFormatObj_count|split; [apply initialFormatObj_bytes|]]].
  { change (events_of (Ok (fo1, body1), s, evs1)) with evs1.
    rewrite formatted_cons, !formatted_app. unfold areaBlock. fold fo1' fo2.
    rewrite formatted_cons, formatted_app, formatted_map, formatted_cons.
    rewrite <- !app_assoc, <- !app_comm_cons, <- !app_assoc. reflexivity. }
  split; [|split].
  - constructor; [done|]. apply Forall_app. split.
    + apply Forall_and. split.
      * eapply Forall_impl; [by apply (entryContexts_other _ "totalFileCount")|].
        simpl. by intros fo' ->.
      * eapply Forall_impl; [by apply (entryContexts_other _ "totalFileBytes")|].
        simpl. by intros fo' ->.
    + constructor; [|done]. unfold fo2. by rewrite !afterEntries_other.
  - apply length_entryContexts.
  - intros j f Hj.
    destruct (entryContexts_fileSize (AreaFiles.files r) fo1' j f Hj)
      as (fo' & Hfo' & Hsize).
    exists fo'. do 2 (split; [done|]).
    pose proof (entryContexts_other (AreaFiles.files r) "totalFileBytes" eq_refl fo1')
      as HF.
    rewrite Forall_lookup in HF. by rewrite (HF j fo' Hfo').
Qed.

Lemma C4_running_totals_witness :
  let E := Demo.board Demo.gamesAndUtils None "" "" in
  let options0 := withDefaults E RawOptions.empty in
  let options := Options.set_sinceTs Demo.LAST options0 in
  let T := ["H"; "AH"; "E"; "AF"; "F"] in
  let games := AreaFiles.mk (Area.mk "games" "Games" "DOS games")
                            [Demo.file 1; Demo.file 2; Demo.file 3] 600 0 in
  let utils := AreaFiles.mk (Area.mk "utils" "Utilities" "Tools") [Demo.file 4] 400 0 in
  result_of (findNewFiles E options0 T 0 Demo.seasoned)
  = Ok (options, T, [games; utils], 0)
  /\ safe_totals [games; utils]
  /\ AreaFiles.files utils <> []
  /\ exists (hdr : FormatObj) (entries : list FormatObj) (ftr : FormatObj),
       Forall (fun fo => fo !! "totalFileCount" = Some (VNum 4)
                         /\ fo !! "totalFileBytes" = Some (VNum 1000))
              (hdr :: entries ++ [ftr])
       /\ length entries = 1%nat.
Proof.
  assert (Hsafe : safe_totals
            [ AreaFiles.mk (Area.mk "games" "Games" "DOS games")
                           [Demo.file 1; Demo.file 2; Demo.file 3] 600 0;
              AreaFiles.mk (Area.mk "utils" "Utilities" "Tools") [Demo.file 4] 400 0 ]).
  { split; [|split]; [|vm_compute; discriminate..].
    repeat constructor; vm_compute; discriminate. }
  split; [reflexivity|]. split; [exact Hsafe|]. split; [discriminate|].
  destruct (C4_running_totals (Demo.board Demo.gamesAndUtils None "" "") ["fsx_bot"]
              (withDefaults (Demo.board Demo.gamesAndUtils None "" "") RawOptions.empty)
              ["H"; "AH"; "E"; "AF"; "F"] 0 Demo.seasoned
              _ _ _ _ Demo.seasoned
              [AreaFiles.mk (Area.mk "games" "Games" "DOS games")
                            [Demo.file 1; Demo.file 2; Demo.file 3] 600 0]
              []
              (AreaFiles.mk (Area.mk "utils" "Utilities" "Tools") [Demo.file 4] 400 0)
              eq_refl Hsafe eq_refl ltac:(discriminate))
    as (hdr & entries & ftr & after & _ & _ & _ & Htotals & Hlen & _).
  exists hdr, entries, ftr. split; [exact Htotals | exact Hlen].
Defined.

(** The first entry of an area with three files, of 100, 200 and 300 bytes:
    its block shows the totals 3 and 600, those of the whole area, where an
    accumulation entry by entry would have 1 and 100 at that point. *)
Lemma C4_entry_order_counterexample :
  let E := Demo.board Demo.threeInGames None "" "" in
  let options0 := withDefaults E RawOptions.empty in
  let options := Options.set_sinceTs Demo.LAST options0 in
  let T := ["H"; "AH"; "E"; "AF"; "F"] in
  let games := AreaFiles.mk (Area.mk "games" "Games" "DOS games")
                            [Demo.file 1; Demo.file 2; Demo.file 3] 600 0 in
  let utils := AreaFiles.mk (Area.mk "utils" "Utilities" "Tools") [] 0 0 in
  result_of (findNewFiles E options0 T 0 Demo.seasoned)
  = Ok (options, T, [games; utils], 0)
  /\ entryOrderCount [] 0 = 1
  /\ entryOrderBytes [] games 0 = 100
  /\ exists c,
       formatted (events_of (buildMessages E ["fsx_bot"] options T [games; utils] 0
                                           Demo.seasoned)) !! 2%nat
       = Some ("E", c)
       /\ c !! "fileSize" = Some (VNum 100)
       /\ c !! "totalFileCount" = Some (VNum 3)
       /\ c !! "totalFileBytes" = Some (VNum 600)
       /\ c !! "totalFileCount" <> Some (VNum (entryOrderCount [] 0))
       /\ c !! "totalFileBytes" <> Some (VNum (entryOrderBytes [] games 0)).
Proof.
  split; [reflexivity|]. split; [reflexivity|]. split; [reflexivity|].
  eexists. split; [reflexivity|].
  split; [vm_compute; reflexivity|]. split; [vm_compute; reflexivity|].
  split; [vm_compute; reflexivity|]. split; vm_compute; intros [=].
Qed.

(** * Further properties of the handler *)

(** ** Line ends, indentation and destination lists *)

Lemma crlf_dos_bounded (n : nat) :
  forall s b, (String.length s <= n)%nat -> dos_lines_from b (crlf s) = true.
Proof.
  induction n as [|n IH]; intros s b Hlen.
  - destruct s; [done | simpl in Hlen; lia].
  - destruct s as [|c rest]; [done|]. simpl in Hlen. cbn [crlf].
    destruct (Ascii.eqb c LF) eqn:Hlf.
    { cbn [dos_lines_from]. change (Ascii.eqb CR LF) with false.
      change (Ascii.eqb CR CR) with true. rewrite Ascii.eqb_refl. cbn [andb].
      apply IH. lia. }
    destruct (Ascii.eqb c CR) eqn:Hcr.
    + destruct rest as [|c' rest'].
      * cbn [dos_lines_from]. by rewrite Hlf.
      * simpl in Hlen. destruct (Ascii.eqb c' LF) eqn:Hlf'.
        -- cbn [dos_lines_from]. change (Ascii.eqb CR LF) with false.
           change (Ascii.eqb CR CR) with true. rewrite Ascii.eqb_refl. cbn [andb].
           apply IH. lia.
        -- cbn [dos_lines_from]. rewrite Hlf. apply IH. simpl. lia.
    + cbn [dos_lines_from]. rewrite Hlf. apply IH. lia.
Qed.

Lemma crlf_fixes_bounded (n : nat) :
  forall s, (String.length s <= n)%nat -> dos_lines s = true -> crlf s = s.
Proof.
  unfold dos_lines. induction n as [|n IH]; intros s Hlen Hdos.
  - destruct s; [done | simpl in Hlen; lia].
  - destruct s as [|c rest]; [done|]. simpl in Hlen. cbn [crlf dos_lines_from] in *.
    destruct (Ascii.eqb c LF) eqn:Hlf; [done|].
    destruct (Ascii.eqb c CR) eqn:Hcr.
    + destruct rest as [|c' rest']; [done|]. simpl in Hlen.
      cbn [dos_lines_from] in Hdos.
      destruct (Ascii.eqb c' LF) eqn:Hlf'.
      * apply Ascii.eqb_eq in Hlf' as ->. apply Ascii.eqb_eq in Hcr as ->.
        cbn [andb] in Hdos. rewrite IH; [done | lia | done].
      * rewrite IH; [done | simpl; lia |]. cbn [dos_lines_from]. by rewrite Hlf'.
    + rewrite IH; [done | lia | done].
Qed.

(** X1.  Whatever the template file holds, after [readTemplates]' line-end
    replacement every LF of the text comes right after a CR, and running the
    replacement a second time changes nothing. *)
Theorem X1_crlf_normalises (s : string) :
  dos_lines (crlf s) = true /\ crlf (crlf s) = crlf s.
Proof.
  assert (Hdos : dos_lines (crlf s) = true)
    by (unfold dos_lines; by apply (crlf_dos_bounded (String.length s))).
  split; [done|]. by apply (crlf_fixes_bounded (String.length (crlf s))).
Qed.

(** X2.  A template that already has DOS line ends (every LF right after a
    CR) comes out of the line-end replacement unchanged; in particular so
    does a template without any LF. *)
Theorem X2_crlf_keeps_dos_text (s : string) :
  dos_lines s = true -> crlf s = s.
Proof. by apply (crlf_fixes_bounded (String.length s)). Qed.

Lemma X2_crlf_keeps_dos_text_witness :
  let text := String "a" (String CR (String LF (String "b" (String CR EmptyString)))) in
  dos_lines text = true /\ crlf text = text.
Proof.
  split; [reflexivity|].
  apply (X2_crlf_keeps_dos_text
           (String "a" (String CR (String LF (String "b" (String CR EmptyString)))))).
  reflexivity.
Defined.

Lemma findDescIndent_nonneg (lines : list string) : 0 <= findDescIndent lines.
Proof.
  induction lines as [|line lines IH]; simpl; [done|].
  destruct (indexOf "{fileDesc}" line); [lia | done].
Qed.

(** X3.  The description indent is never negative.  It is 0 when no line of
    the entry template has [{fileDesc}].  Otherwise it is the column of the
    first [{fileDesc}] on the first line that has one: the placeholder sits
    at that column of that line and nowhere to its left, and later lines and
    later occurrences do not matter. *)
Theorem X3_descIndent_first_occurrence (lines : list string) :
  0 <= findDescIndent lines
  /\ (Forall (fun line => indexOf "{fileDesc}" line = None) lines ->
      findDescIndent lines = 0)
  /\ (forall before line after pos,
        lines = before ++ line :: after ->
        Forall (fun line => indexOf "{fileDesc}" line = None) before ->
        indexOf "{fileDesc}" line = Some pos ->
        findDescIndent lines = Z.of_nat pos
        /\ substring pos 10 line = "{fileDesc}"
        /\ forall p, (p < pos)%nat -> substring p 10 line <> "{fileDesc}").
Proof.
  split; [apply findDescIndent_nonneg|split].
  - induction 1 as [|line lines Hline _ IH]; simpl; [done|]. by rewrite Hline.
  - intros before line after pos -> Hbefore Hline. split; [|split].
    + induction Hbefore as [|l before Hl _ IH]; simpl; [by rewrite Hline|].
      by rewrite Hl.
    + apply (index_correct1 0 pos "{fileDesc}" line Hline).
    + intros p Hp.
      apply (index_correct2 0 pos "{fileDesc}" line Hline p); lia.
Qed.

Lemma js_join_split_char (c : ascii) (s : string) :
  js_split c s <> [] /\ js_join (String c EmptyString) (js_split c s) = s.
Proof.
  induction s as [|c' s [Hne IH]]; [done|]. cbn [js_split].
  destruct (Ascii.eqb c' c) eqn:Hc.
  - apply Ascii.eqb_eq in Hc as ->. split; [done|].
    destruct (js_split c s) as [|piece pieces] eqn:Hsplit; [done|].
    cbn [js_join]. by rewrite <- IH.
  - destruct (js_split c s) as [|piece pieces] eqn:Hsplit; [done|].
    split; [done|]. rewrite <- IH. by destruct pieces.
Qed.

Lemma js_split_pieces (c : ascii) (s : string) :
  length (js_split c s) = S (count_char c s)
  /\ Forall (fun piece => contains c piece = false) (js_split c s).
Proof.
  induction s as [|c' s [Hlen Hfree]]; [by repeat constructor|]. cbn [js_split count_char].
  destruct (Ascii.eqb c' c) eqn:Hc.
  - split; [simpl; by rewrite Hlen | by constructor].
  - destruct (js_split c s) as [|piece pieces]; [done|].
    apply Forall_cons in Hfree as [Hpiece Hpieces].
    split; [done|]. constructor; [|done]. simpl. by rewrite Hc.
Qed.

(** X4.  Splitting the destination argument at its commas loses nothing:
    joining the pieces with commas gives the argument back.  There is one
    piece more than there are commas, so never zero destinations, no piece
    has a comma in it, and empty pieces (from an empty argument, a doubled or
    a trailing comma) are kept as destinations. *)
Theorem X4_destinations_split (arg : string) :
  js_join "," (js_split "," arg) = arg
  /\ length (js_split "," arg) = S (count_char "," arg)
  /\ Forall (fun tag => contains "," tag = false) (js_split "," arg).
Proof.
  split; [apply js_join_split_char | apply js_split_pieces].
Qed.

(** ** Options *)

Lemma or_str_truthy (o : option string) (d : string) :
  truthy_str d = true -> truthy_str (or_str o d) = true.
Proof.
  intros Hd. unfold or_str. destruct o as [s|]; simpl; [|done].
  by destruct (truthy_str s) eqn:Hs.
Qed.

Lemma or_num_nonzero (o : option Z) (d : Z) : d <> 0 -> or_num o d <> 0.
Proof.
  intros Hd. unfold or_num. destruct o as [n|]; [|done].
  destruct (n =? 0) eqn:Hn; [done|]. by apply Z.eqb_neq.
Qed.

Lemma loadOptions_Ok (E : Env) (args : list string) (s : Store) (options : Options.t) :
  result_of (loadOptions E args s) = Ok options ->
  exists raw, options = withDefaults E raw.
Proof.
  unfold loadOptions, result_of.
  destruct (fs_readFile E _) as [data|err]; simpl.
  - destruct (truthy_str data).
    + destruct (hjson_parse E data) as [raw|e]; simpl; [|done].
      intros [= <-]. by exists raw.
    + simpl. intros [= <-]. by exists RawOptions.empty.
  - destruct (negb _); simpl; [done|]. intros [= <-]. by exists RawOptions.empty.
Qed.

(** X5.  When the options file does not exist (the read fails with ENOENT)
    or is empty, [loadOptions] succeeds without parsing anything and hands on
    the built-in defaults: 20 files per area, the five LFA*.ASC templates,
    "All" / "ENiGMA-Bot", the default area pattern, subject and encoding. *)
Theorem X5_no_options_file_means_defaults (E : Env) (args : list string) (s : Store) :
  (exists err, fs_readFile E (optionsPath E args) = Err err /\ err_code err = "ENOENT")
  \/ fs_readFile E (optionsPath E args) = Ok "" ->
  exists options,
    loadOptions E args s = (Ok options, s, [EvReadFile (optionsPath E args)])
    /\ Options.maxFilesPerArea options = 20
    /\ Options.postMaxSizeTarget options = 512000
    /\ map (fun templateName => templateName options) TEMPLATE_NAMES
       = ["LFASTAR.ASC"; "LFAASTAR.ASC"; "LFAENTRY.ASC"; "LFAAEND.ASC"; "LFAEND.ASC"]
    /\ Options.areaTagsRegEx options = "^(?!uploads).*$"
    /\ Options.to options = "All"
    /\ Options.from options = "ENiGMA-Bot"
    /\ Options.tsFormat options = "ddd, MMMM Do, YYYY"
    /\ Options.subjectFormat options = "New files on {boardName}"
    /\ Options.templateEncoding options = "utf8".
Proof.
  intros Hfile. exists (withDefaults E RawOptions.empty). split; [|by repeat split].
  unfold loadOptions. destruct Hfile as [(err & -> & ->)| ->]; reflexivity.
Qed.

Lemma X5_no_options_file_means_defaults_witness :
  let E := Demo.board Demo.nothingNew None "" "" in
  fs_readFile E (optionsPath E ["fsx_bot"])
  = Err (HostError "ENOENT" "no such file or directory")
  /\ exists options,
       loadOptions E ["fsx_bot"] Demo.fresh
       = (Ok options, Demo.fresh, [EvReadFile "/mods/lfa/options.hjson"])
       /\ Options.maxFilesPerArea options = 20.
Proof.
  split; [reflexivity|].
  destruct (X5_no_options_file_means_defaults (Demo.board Demo.nothingNew None "" "")
              ["fsx_bot"] Demo.fresh) as (options & Hrun & Hcap & _).
  - left. eexists. split; reflexivity.
  - exists options. split; [exact Hrun | exact Hcap].
Defined.

(** X6.  Whatever the options file holds, the options [loadOptions] hands on
    have no blank left: the area pattern, the five template names, the two
    user names, the timestamp format, the subject format and the template
    encoding are non-empty, and the per-area cap and the size target are not
    0 (an empty string or a 0 in the file is replaced by the default like an
    absent key).  [nowTs] is always the current time in the effective
    timestamp format, whatever the file holds under that key. *)
Theorem X6_loaded_options_have_no_blank (E : Env) (args : list string) (s : Store)
        (options : Options.t) :
  result_of (loadOptions E args s) = Ok options ->
  Forall (fun value => truthy_str value = true)
         [ Options.areaTagsRegEx options; Options.header options;
           Options.areaHeader options; Options.areaFooter options;
           Options.entry options; Options.footer options;
           Options.to options; Options.from options; Options.tsFormat options;
           Options.subjectFormat options; Options.templateEncoding options ]
  /\ Options.maxFilesPerArea options <> 0
  /\ Options.postMaxSizeTarget options <> 0
  /\ Options.nowTs options = moment_now_format E (Options.tsFormat options).
Proof.
  intros [raw ->]%loadOptions_Ok. split; [|split; [|split; [|done]]].
  - repeat constructor; by apply or_str_truthy.
  - by apply or_num_nonzero.
  - by apply or_num_nonzero.
Qed.

Lemma X6_loaded_options_have_no_blank_witness :
  let E := Demo.board Demo.nothingNew
             (Some (RawOptions.mk (Some "") (Some 0) None None None None None None
                                  None None None None None None)) "" "" in
  exists options,
    result_of (loadOptions E ["fsx_bot"] Demo.fresh) = Ok options
    /\ Options.areaTagsRegEx options = "^(?!uploads).*$"
    /\ Options.maxFilesPerArea options <> 0.
Proof.
  eexists. split; [reflexivity|]. split; [reflexivity|].
  eapply (X6_loaded_options_have_no_blank
            (Demo.board Demo.nothingNew
               (Some (RawOptions.mk (Some "") (Some 0) None None None None None None
                                    None None None None None None)) "" "")
            ["fsx_bot"] Demo.fresh).
  reflexivity.
Defined.

(** X7.  Only the first two arguments are looked at: the destinations come
    from [args[0]], the options path from [args[1]], and any further
    argument changes nothing in the run. *)
Theorem X7_further_arguments_ignored (E : Env) (dest path : string)
        (more : list string) (s : Store) :
  latestFilesAnnounceEvent E (dest :: path :: more) s
  = latestFilesAnnounceEvent E [dest; path] s.
Proof.
  unfold latestFilesAnnounceEvent.
  replace (Z.of_nat (length (dest :: path :: more)) <? 1) with false
    by (symmetry; apply Z.ltb_ge; simpl; lia).
  change (Z.of_nat (length [dest; path]) <? 1) with false. cbn iota.
  apply bind_ext. intros options s1. apply bind_ext. intros [[o T] d] s2.
  apply bind_ext. intros [[[o' T'] rs] d'] s3. reflexivity.
Qed.

(** ** Templates *)

Lemma async_map_Err_inv {A B} (P : Event -> Prop) (f : A -> M B) (l : list A) s e :
  (forall a, frame eq P (f a)) ->
  result_of (async_map f l s) = Err e ->
  exists x, x ∈ l /\ result_of (f x s) = Err e.
Proof.
  intros Hf. induction l as [|x l IH]; simpl; [done|].
  unfold bind, result_of. destruct (Hf x s) as [Hs _]. unfold store_of in Hs.
  destruct (f x s) as [[[y|e'] s1] ev1] eqn:Hx; simpl in Hs; subst s1.
  - unfold result_of in IH.
    destruct (async_map f l s) as [[[ys|e'] s2] ev2]; simpl; [done|].
    intros [= ->]. destruct (IH eq_refl) as (x' & Hin & Hx').
    exists x'. split; [by right | done].
  - simpl. intros [= ->]. exists x. split; [by left | by rewrite Hx].
Qed.

Lemma async_map_events {A B} (P : Event -> Prop) (f : A -> M B) (l : list A) s :
  (forall a, frame eq (fun _ => True) (f a)) ->
  (forall a, a ∈ l -> Forall P (events_of (f a s))) ->
  Forall P (events_of (async_map f l s)).
Proof.
  intros Hf. induction l as [|x l IH]; intros HP; simpl; [constructor|].
  unfold bind, events_of. destruct (Hf x s) as [Hs _]. unfold store_of in Hs.
  pose proof (HP x ltac:(by left)) as Hx. unfold events_of in Hx.
  destruct (f x s) as [[[y|e'] s1] ev1]; simpl in *; subst s1; [|done].
  assert (Hl : Forall P (events_of (async_map f l s)))
    by (apply IH; intros a Ha; apply HP; by right).
  unfold events_of in Hl.
  destruct (async_map f l s) as [[[ys|e'] s2] ev2]; simpl in *;
    rewrite ?app_nil_r; by apply Forall_app.
Qed.

(** X8.  When [readTemplates] succeeds it hands on the options unchanged and
    exactly five templates, in the order header, areaHeader, entry,
    areaFooter, footer: each is the content of the file the option of that
    name resolves to, decoded with the configured encoding and with DOS line
    ends throughout.  The description indent is computed from the third one,
    the entry template, and is not negative. *)
Theorem X8_templates_read_in_order (E : Env) (options : Options.t) (s : Store)
        (options' : Options.t) (templates : list string) (descIndent : Z) :
  result_of (readTemplates E options s) = Ok (options', templates, descIndent) ->
  options' = options
  /\ length templates = 5%nat
  /\ Forall2 (fun templateName template =>
                exists data,
                  fs_readFile E (resolve E (templateName options)) = Ok data
                  /\ template
                     = crlf (iconv_decode E data (Options.templateEncoding options)))
             TEMPLATE_NAMES templates
  /\ Forall (fun template => dos_lines template = true) templates
  /\ descIndent = findDescIndent (splitTextAtTerms E (templates !!! 2%nat))
  /\ 0 <= descIndent.
Proof.
  unfold readTemplates, result_of.
  destruct (async_map (readTemplate E options) TEMPLATE_NAMES s)
    as [[[raws|e] s1] ev] eqn:Hmap; [|done].
  cbn [fst]. intros [= <- <- <-].
  assert (Hraws : Forall2 (fun tn data => fs_readFile E (resolve E (tn options)) = Ok data)
                          TEMPLATE_NAMES raws).
  { eapply Forall2_impl.
    - apply (async_map_Ok (fun e => is_read e = true) (readTemplate E options)
                          TEMPLATE_NAMES s raws).
      + intros tn. apply frame_readFile.
      + unfold result_of. by rewrite Hmap.
    - intros tn data. unfold readTemplate, readFile, call, result_of. simpl.
      by destruct (fs_readFile E _). }
  split; [done|]. split; [|split; [|split; [|split; [done|]]]].
  - rewrite length_map. by rewrite <- (Forall2_length _ _ _ Hraws).
  - apply Forall2_fmap_r. eapply Forall2_impl; [exact Hraws|].
    intros tn data Hdata. by exists data.
  - apply Forall_fmap. apply Forall_forall. intros data _.
    unfold dos_lines. by eapply crlf_dos_bounded.
  - apply findDescIndent_nonneg.
Qed.

Lemma X8_templates_read_in_order_witness :
  let E := Demo.board Demo.nothingNew None "" "" in
  let options := withDefaults E RawOptions.empty in
  exists templates,
    result_of (readTemplates E options Demo.fresh) = Ok (options, templates, 26)
    /\ length templates = 5%nat
    /\ Forall (fun template => dos_lines template = true) templates.
Proof.
  eexists. split; [reflexivity|].
  edestruct (X8_templates_read_in_order (Demo.board Demo.nothingNew None "" "")
               (withDefaults (Demo.board Demo.nothingNew None "" "") RawOptions.empty)
               Demo.fresh) as (_ & Hlen & _ & Hdos & _); [reflexivity|].
  split; [exact Hlen | exact Hdos].
Defined.

(** X9.  When [readTemplates] fails, one of the five template files could not
    be read, and the error handed on is not that read error itself but
    [Errors.General] applied to its message. *)
Theorem X9_template_failure_is_general (E : Env) (options : Options.t) (s : Store)
        (e : Error) :
  result_of (readTemplates E options s) = Err e ->
  exists templateName err,
    templateName ∈ TEMPLATE_NAMES
    /\ fs_readFile E (resolve E (templateName options)) = Err err
    /\ e = General (err_message err).
Proof.
  unfold readTemplates, result_of.
  destruct (async_map (readTemplate E options) TEMPLATE_NAMES s)
    as [[[raws|err] s1] ev] eqn:Hmap; [done|].
  cbn [fst]. intros [= <-].
  destruct (async_map_Err_inv (fun e => is_read e = true) (readTemplate E options)
              TEMPLATE_NAMES s err) as (tn & Hin & Htn).
  - intros a. apply frame_readFile.
  - unfold result_of. by rewrite Hmap.
  - exists tn, err. split; [done|].
    unfold readTemplate, readFile, call, result_of in Htn. simpl in Htn.
    destruct (fs_readFile E _); [done|]. by injection Htn as ->.
Qed.

Lemma X9_template_failure_is_general_witness :
  let E := Demo.board Demo.nothingNew None "LFAAEND.ASC" "" in
  let options := withDefaults E RawOptions.empty in
  result_of (readTemplates E options Demo.fresh)
  = Err (General "no such file or directory")
  /\ exists templateName err,
       templateName ∈ TEMPLATE_NAMES
       /\ fs_readFile E (resolve E (templateName options)) = Err err
       /\ General "no such file or directory" = General (err_message err).
Proof.
  split; [reflexivity|].
  apply (X9_template_failure_is_general
           (Demo.board Demo.nothingNew None "LFAAEND.ASC" "")
           (withDefaults (Demo.board Demo.nothingNew None "LFAAEND.ASC" "")
                         RawOptions.empty)
           Demo.fresh).
  reflexivity.
Defined.

(** ** The calls of the scan *)

Section ScanCalls.

Variable E : Env.

Lemma loadFileInfos_calls d (fileIds : list Z) :
  forall acc s,
    Forall (fun e => match e with
                     | EvLoadFile fileId => fileId ∈ fileIds
                     | EvAnsiPrep _ cols indent => indent = d /\ cols = 79 - d
                     | _ => False
                     end)
           (events_of (loadFileInfos E d fileIds acc s)).
Proof.
  induction fileIds as [|x l IH]; intros acc s; [constructor|].
  cbn [loadFileInfos]. unfold bind at 1.
  destruct (loadFile E x) as [f|e] eqn:Hload.
  - rewrite (loadFileInfo_run E _ _ _ _ _ Hload). cbn [fst snd].
    specialize (IH (js_add acc (fileBytes f)) s). unfold bind, events_of in *.
    destruct (loadFileInfos E d l (js_add acc (fileBytes f)) s) as [[[rs|e] s2] ev2];
      simpl in *; rewrite ?app_nil_r.
    all: constructor; [by left|]; constructor; [done|].
    all: eapply Forall_impl; [exact IH|]; intros []; try done; by right.
  - rewrite (loadFileInfo_Err E _ _ _ _ _ Hload). unfold events_of. simpl.
    constructor; [by left | constructor].
Qed.

Lemma scanArea_calls options d ts area s :
  Forall (scan_call E options d ts area) (events_of (scanArea E options d ts area s)).
Proof.
  unfold scanArea, FileEntry_findFiles, call. unfold bind at 1.
  destruct (findFiles E ts (Area.areaTag area)) as [fileIds|e] eqn:Hfind.
  - pose proof (loadFileInfos_calls d
                  (js_slice0 fileIds (Options.maxFilesPerArea options)) 0 s) as H.
    unfold bind, events_of in *.
    destruct (loadFileInfos E d _ 0 s) as [[[rs|e] s2] ev2]; simpl in *;
      rewrite ?app_nil_r.
    all: constructor; [done|]; eapply Forall_impl; [exact H|].
    all: intros []; try done; intros Hin; by exists fileIds.
  - unfold events_of. simpl. by repeat constructor.
Qed.

(** Every scan call of a run is made after the first two stages succeeded
    and a checkpoint was found, for the options and the indent those stages
    produced and for the checkpoint that was stored when the run began. *)
Lemma run_scan_calls args s :
  Forall (fun e => is_scan e = false) (events_of (latestFilesAnnounceEvent E args s))
  \/ exists options T d ts,
       result_of (loadOptions E args s) = Ok options
       /\ result_of (readTemplates E options s) = Ok (options, T, d)
       /\ systemStats s !! STAT_KEY_LAST_TS = Some ts
       /\ truthy_str ts = true
       /\ Forall (run_scan_call E options d ts)
                 (events_of (latestFilesAnnounceEvent E args s)).
Proof.
  destruct (reaches_scan E args s) eqn:Hreach.
  2:{ left. destruct (stops_before_scan E args s Hreach) as (_ & _ & Hev).
      eapply Forall_impl; [exact Hev|]. by intros []. }
  destruct (goes_on_to_scan E args s Hreach)
    as (options & T & d & setup & Hsetup & Hopt & Htpl & ->).
  assert (Hsetup' : forall Q : Event -> Prop,
             (forall e, is_scan e = false -> Q e) -> Forall Q setup).
  { intros Q HQ. eapply Forall_impl; [exact Hsetup|]. intros [] ?; by apply HQ. }
  rewrite findNewFiles_unfold. cbn zeta.
  destruct (systemStats s !! STAT_KEY_LAST_TS) as [ts|] eqn:Hlast.
  2:{ left. unfold result_of, events_of. cbn [truthy_ostr fst snd].
      apply Forall_app. split; [by apply Hsetup'|]. by repeat constructor. }
  cbn [truthy_ostr default from_option id].
  destruct (truthy_str ts) eqn:Htruthy.
  2:{ left. unfold result_of, events_of. cbn [fst snd].
      apply Forall_app. split; [by apply Hsetup'|]. by repeat constructor. }
  right. exists options, T, d, ts. do 4 (split; [done|]).
  set (options' := Options.set_sinceTs _ _).
  assert (Hscan : Forall (run_scan_call E options d ts)
                         (events_of (async_map (scanArea E options' d ts)
                                               (scannedAreas E options') (advanced E s)))).
  { apply async_map_events.
    - intros a. eapply frame_mono; [| |apply frame_scanArea]; done.
    - intros area Harea. eapply Forall_impl; [apply scanArea_calls|].
      intros e He _. right. by exists area. }
  assert (Hnot : forall e, is_scan e = false -> run_scan_call E options d ts e)
    by (intros e He Hs; congruence).
  unfold result_of at 1. cbn [fst].
  destruct (result_of (async_map _ _ _)) as [rs|e].
  - pose proof (frame_buildMessages E args options' T rs d
                  (store_of (async_map (scanArea E options' d ts)
                               (scannedAreas E options') (advanced E s)))) as [_ Hout].
    unfold events_of, store_of in *. cbn [fst snd] in *.
    apply Forall_app. split; [by apply Hsetup'|]. apply Forall_app. split.
    + apply Forall_app. split; [do 2 (constructor; [by apply Hnot|]); constructor|].
      constructor; [intros _; by left | done].
    + eapply Forall_impl; [exact Hout|]. intros [] ?; by apply Hnot.
  - unfold events_of, store_of in *. cbn [fst snd] in *.
    apply Forall_app. split; [by apply Hsetup'|].
    apply Forall_app. split; [do 2 (constructor; [by apply Hnot|]); constructor|].
    constructor; [intros _; by left | done].
Qed.

End ScanCalls.

Lemma readTemplates_indent (E : Env) (options : Options.t) (s : Store) r :
  result_of (readTemplates E options s) = Ok r -> 0 <= r.2.
Proof.
  unfold readTemplates, result_of.
  destruct (async_map _ _ s) as [[[raws|e] s1] ev]; [|done].
  cbn [fst]. intros [= <-]. apply findDescIndent_nonneg.
Qed.

Lemma scannedAreas_elem (E : Env) (options : Options.t) (area : Area.t) :
  area ∈ scannedAreas E options ->
  area ∈ getSortedAvailableFileAreas E
  /\ regex_match E (Area.areaTag area) (Options.areaTagsRegEx options) = true.
Proof.
  unfold scannedAreas. intros [Hmatch Hin]%list_elem_of_filter.
  split; [done|]. by apply Is_true_true.
Qed.

Lemma async_map_events_closed {A B} (R : Event -> Event -> Prop)
      (f : A -> M B) (l : list A) s :
  (forall a, frame eq (fun _ => True) (f a)) ->
  (forall a e e', e ∈ events_of (f a s) -> R e e' -> e' ∈ events_of (f a s)) ->
  forall e e', e ∈ events_of (async_map f l s) -> R e e' ->
               e' ∈ events_of (async_map f l s).
Proof.
  intros Hf HR. induction l as [|x l IH]; intros e e'; simpl.
  { by intros ?%elem_of_nil. }
  unfold bind, events_of. destruct (Hf x s) as [Hs _]. unfold store_of in Hs.
  specialize (HR x). unfold events_of in HR, IH.
  destruct (f x s) as [[[y|err] s1] ev1]; simpl in *; subst s1; [|by eauto].
  destruct (async_map f l s) as [[[ys|err] s2] ev2]; simpl in *; rewrite ?app_nil_r.
  all: intros [Hin|Hin]%elem_of_app HRe; apply elem_of_app; by eauto.
Qed.

Section Preps.

Variable E : Env.

Lemma loadFileInfos_preps d (fileIds : list Z) :
  forall acc s e e',
    e ∈ events_of (loadFileInfos E d fileIds acc s) -> load_then_prep E d e e' ->
    e' ∈ events_of (loadFileInfos E d fileIds acc s).
Proof.
  induction fileIds as [|x l IH]; intros acc s e e'; [by intros ?%elem_of_nil|].
  cbn [loadFileInfos]. unfold bind.
  destruct (loadFile E x) as [fx|err] eqn:Hload.
  - rewrite (loadFileInfo_run E _ _ _ _ _ Hload). cbn [fst snd].
    specialize (IH (js_add acc (fileBytes fx)) s e e'). unfold events_of in *.
    destruct (loadFileInfos E d l (js_add acc (fileBytes fx)) s) as [[[rs|err] s2] ev2];
      simpl in *; rewrite ?app_nil_r.
    all: intros Hin Hprep.
    all: apply elem_of_cons in Hin as [->|Hin];
      [destruct Hprep as (fileId & f & [= <-] & Hf & ->);
       assert (f = fx) as -> by congruence; right; by left|].
    all: apply elem_of_cons in Hin as [->|Hin];
      [by destruct Hprep as (? & ? & ? & _) | do 2 right; by apply IH].
  - rewrite (loadFileInfo_Err E _ _ _ _ _ Hload). unfold events_of. cbn [snd].
    intros ->%list_elem_of_singleton (fileId & f & [= <-] & Hf & _). congruence.
Qed.

Lemma scanArea_preps options d ts area s e e' :
  e ∈ events_of (scanArea E options d ts area s) -> load_then_prep E d e e' ->
  e' ∈ events_of (scanArea E options d ts area s).
Proof.
  unfold scanArea, FileEntry_findFiles, call. unfold bind.
  destruct (findFiles E ts (Area.areaTag area)) as [fileIds|err].
  - pose proof (loadFileInfos_preps d
                  (js_slice0 fileIds (Options.maxFilesPerArea options)) 0 s e e') as H.
    unfold events_of in *.
    destruct (loadFileInfos E d _ 0 s) as [[[rs|err] s2] ev2]; simpl in *;
      rewrite ?app_nil_r.
    all: intros [->|Hin]%elem_of_cons Hprep;
      [by destruct Hprep as (? & ? & ? & _) | right; by apply H].
  - unfold events_of. cbn [snd].
    by intros ->%list_elem_of_singleton (? & ? & ? & _).
Qed.

Lemma run_preps args s options T d e e' :
  result_of (loadOptions E args s) = Ok options ->
  result_of (readTemplates E options s) = Ok (options, T, d) ->
  e ∈ events_of (latestFilesAnnounceEvent E args s) -> load_then_prep E d e e' ->
  e' ∈ events_of (latestFilesAnnounceEvent E args s).
Proof.
  intros Hopt Htpl Hin Hprep.
  assert (Hload : is_scan e = true /\ is_stat e = false /\ e <> EvGetAreas)
    by (by destruct Hprep as (? & ? & -> & _)).
  destruct Hload as (Hscan & Hstat & Hareas).
  destruct (reaches_scan E args s) eqn:Hreach.
  2:{ destruct (stops_before_scan E args s Hreach) as (_ & _ & Hev).
      rewrite Forall_forall in Hev. specialize (Hev e Hin). by destruct e. }
  destruct (goes_on_to_scan E args s Hreach)
    as (options' & T' & d' & setup & Hsetup & Hopt' & Htpl' & Hrun).
  assert (options' = options) as -> by congruence.
  assert (T' = T /\ d' = d) as [-> ->] by (split; congruence).
  rewrite Hrun in *. clear Hrun. rewrite findNewFiles_unfold in *. cbn zeta in *.
  assert (Hnot : e ∉ setup).
  { intros He. rewrite Forall_forall in Hsetup. specialize (Hsetup e He). by destruct e. }
  destruct (truthy_ostr (systemStats s !! STAT_KEY_LAST_TS)).
  2:{ unfold result_of, events_of in Hin. cbn [fst snd] in Hin.
      apply elem_of_app in Hin as [?|Hin]; [done|].
      apply elem_of_cons in Hin as [->|Hin]; [done|].
      by apply list_elem_of_singleton in Hin as ->. }
  set (ts := default "" _) in *. set (options' := Options.set_sinceTs _ _) in *.
  set (scan := async_map (scanArea E options' d ts) (scannedAreas E options')
                         (advanced E s)) in *.
  assert (Hclosed : e ∈ events_of scan -> e' ∈ events_of scan).
  { intros He. eapply (async_map_events_closed (load_then_prep E d)); [| |exact He|done].
    - intros a. eapply frame_mono; [| |apply frame_scanArea]; done.
    - intros a e1 e1'. apply scanArea_preps. }
  unfold result_of at 1 in Hin. unfold result_of at 1. cbn [fst] in *.
  destruct (result_of scan) as [rs|err].
  - pose proof (frame_buildMessages E args options' T rs d (store_of scan)) as [_ Hout].
    unfold events_of, store_of in *. cbn [fst snd] in *.
    apply elem_of_app in Hin as [?|Hin]; [done|].
    apply elem_of_app in Hin as [Hin|Hin].
    + apply elem_of_app. right. apply elem_of_app. left.
      do 2 (apply elem_of_cons in Hin as [->|Hin]; [done|]).
      apply elem_of_cons in Hin as [->|Hin]; [done|].
      do 3 right. by apply Hclosed.
    + rewrite Forall_forall in Hout. specialize (Hout e Hin). by destruct e.
  - unfold events_of, store_of in *. cbn [fst snd] in *.
    apply elem_of_app in Hin as [?|Hin]; [done|].
    apply elem_of_app. right.
    do 2 (apply elem_of_cons in Hin as [->|Hin]; [done|]).
    apply elem_of_cons in Hin as [->|Hin]; [done|].
    do 3 right. by apply Hclosed.
Qed.

End Preps.

Lemma readTemplates_descIndent (E : Env) (options options' : Options.t) (s : Store)
      (T : list string) (d : Z) :
  result_of (readTemplates E options s) = Ok (options', T, d) ->
  d = findDescIndent (splitTextAtTerms E (T !!! 2%nat)).
Proof.
  unfold readTemplates, result_of.
  destruct (async_map _ _ s) as [[[raws|e] s1] ev]; [|done].
  cbn [fst]. by intros [= <- <- <-].
Qed.

(** X10.  In a run whose options and templates load, with [descIndent] the
    indent [readTemplates] hands on (the column of [{fileDesc}] in the entry
    template, never negative): every description clean-up of the run is
    asked for that indent and for a width of 79 minus that indent, so that
    width and indent add up to 79, with no lower bound on the width when the
    placeholder sits far right; and every file record the run loads has its
    own description cleaned that way. *)
Theorem X10_ansiPrep_width_and_indent (E : Env) (args : list string) (s : Store)
        (options : Options.t) (T : list string) (descIndent : Z) :
  result_of (loadOptions E args s) = Ok options ->
  result_of (readTemplates E options s) = Ok (options, T, descIndent) ->
  let calls := events_of (latestFilesAnnounceEvent E args s) in
  descIndent = findDescIndent (splitTextAtTerms E (T !!! 2%nat))
  /\ 0 <= descIndent
  /\ Forall (fun e => match e with
                      | EvAnsiPrep _ cols indent =>
                          indent = descIndent /\ cols = 79 - descIndent
                      | _ => True
                      end) calls
  /\ (forall fileId fileInfo,
         EvLoadFile fileId ∈ calls -> loadFile E fileId = Ok fileInfo ->
         EvAnsiPrep (FileEntry.desc fileInfo) (79 - descIndent) descIndent ∈ calls).
Proof.
  intros Hopt Htpl calls.
  split; [by eapply readTemplates_descIndent|].
  split; [apply (readTemplates_indent E options s _ Htpl)|]. split.
  - destruct (run_scan_calls E args s)
      as [Hnone|(options' & T' & d & ts & Hopt' & Htpl' & _ & _ & Hev)].
    + eapply Forall_impl; [exact Hnone|]. by intros [].
    + assert (options' = options) as -> by congruence.
      assert (d = descIndent) as -> by congruence.
      eapply Forall_impl; [exact Hev|]. intros [] He; try done.
      by destruct (He eq_refl) as [?|(area & _ & -> & ->)].
  - intros fileId fileInfo Hin Hload.
    eapply (run_preps E args s options T descIndent); [done..|].
    by exists fileId, fileInfo.
Qed.

Lemma X10_ansiPrep_width_and_indent_witness :
  let E := Demo.board Demo.threeInGames None "" "" in
  let calls := events_of (latestFilesAnnounceEvent E ["fsx_bot"] Demo.seasoned) in
  (exists T, result_of (readTemplates E (withDefaults E RawOptions.empty) Demo.seasoned)
             = Ok (withDefaults E RawOptions.empty, T, 26))
  /\ Forall (fun e => match e with
                      | EvAnsiPrep _ cols indent => indent = 26 /\ cols = 79 - 26
                      | _ => True
                      end) calls
  /\ EvLoadFile 2 ∈ calls
  /\ EvAnsiPrep (Some "A file") 53 26 ∈ calls.
Proof.
  split; [by eexists|].
  edestruct (X10_ansiPrep_width_and_indent (Demo.board Demo.threeInGames None "" "")
               ["fsx_bot"] Demo.seasoned
               (withDefaults (Demo.board Demo.threeInGames None "" "") RawOptions.empty))
    as (_ & _ & Hall & Hprep); [reflexivity | reflexivity |].
  assert (Hin : EvLoadFile 2
                ∈ events_of (latestFilesAnnounceEvent
                               (Demo.board Demo.threeInGames None "" "")
                               ["fsx_bot"] Demo.seasoned)).
  { apply list_elem_of_lookup. exists 12%nat. reflexivity. }
  split; [exact Hall|]. split; [exact Hin|].
  exact (Hprep 2 (Demo.file 2) Hin eq_refl).
Defined.

(** X11.  Every catalog query of a run asks for files newer than the
    checkpoint that was stored when the run began (never the one the run has
    just written), and is made for an area of the catalog whose tag matches
    the configured area pattern: an area that does not match is never
    queried. *)
Theorem X11_queries_use_previous_checkpoint (E : Env) (args : list string) (s : Store)
        (newerThanTimestamp areaTag : string) :
  EvFindFiles newerThanTimestamp areaTag ∈ events_of (latestFilesAnnounceEvent E args s) ->
  systemStats s !! STAT_KEY_LAST_TS = Some newerThanTimestamp
  /\ exists options area,
       result_of (loadOptions E args s) = Ok options
       /\ area ∈ getSortedAvailableFileAreas E
       /\ Area.areaTag area = areaTag
       /\ regex_match E areaTag (Options.areaTagsRegEx options) = true.
Proof.
  intros Hin.
  destruct (run_scan_calls E args s) as [Hnone|(options & T & d & ts & Hopt & _ & Hts & _ & Hev)].
  - rewrite Forall_forall in Hnone. by specialize (Hnone _ Hin).
  - rewrite Forall_forall in Hev.
    destruct (Hev _ Hin eq_refl) as [?|(area & Harea & -> & ->)]; [done|].
    apply scannedAreas_elem in Harea as [Harea Hmatch].
    split; [done|]. by exists options, area.
Qed.

Lemma X11_queries_use_previous_checkpoint_witness :
  let E := Demo.board Demo.threeInGames None "" "" in
  let run := latestFilesAnnounceEvent E ["fsx_bot"] Demo.seasoned in
  EvFindFiles Demo.LAST "games" ∈ events_of run
  /\ systemStats (store_of run) !! STAT_KEY_LAST_TS = Some Demo.NOW
  /\ systemStats Demo.seasoned !! STAT_KEY_LAST_TS = Some Demo.LAST.
Proof.
  assert (Hin : EvFindFiles Demo.LAST "games"
                ∈ events_of (latestFilesAnnounceEvent
                               (Demo.board Demo.threeInGames None "" "")
                               ["fsx_bot"] Demo.seasoned)).
  { apply list_elem_of_lookup. exists 9%nat. reflexivity. }
  split; [exact Hin|]. split; [reflexivity|].
  exact (proj1 (X11_queries_use_previous_checkpoint
                  (Demo.board Demo.threeInGames None "" "") ["fsx_bot"] Demo.seasoned
                  Demo.LAST "games" Hin)).
Defined.

(** X12.  Every file load of a run is for an id that the query of some
    matching area returned, and one that survives the cap: with a cap that
    is not negative, an id at position >= cap of an area's answer is not
    loaded on account of that position. *)
Theorem X12_loads_stay_within_cap (E : Env) (args : list string) (s : Store)
        (fileId : Z) :
  EvLoadFile fileId ∈ events_of (latestFilesAnnounceEvent E args s) ->
  exists options lastTimestamp area fileIds,
    result_of (loadOptions E args s) = Ok options
    /\ systemStats s !! STAT_KEY_LAST_TS = Some lastTimestamp
    /\ area ∈ scannedAreas E options
    /\ findFiles E lastTimestamp (Area.areaTag area) = Ok fileIds
    /\ fileId ∈ js_slice0 fileIds (Options.maxFilesPerArea options)
    /\ (0 <= Options.maxFilesPerArea options ->
        exists i, Z.of_nat i < Options.maxFilesPerArea options
                  /\ fileIds !! i = Some fileId).
Proof.
  intros Hin.
  destruct (run_scan_calls E args s) as [Hnone|(options & T & d & ts & Hopt & _ & Hts & _ & Hev)].
  - rewrite Forall_forall in Hnone. by specialize (Hnone _ Hin).
  - rewrite Forall_forall in Hev.
    destruct (Hev _ Hin eq_refl) as [?|(area & Harea & ids & Hids & Hslice)]; [done|].
    exists options, ts, area, ids. do 5 (split; [done|]).
    intros Hcap. rewrite js_slice0_nonneg in Hslice by done.
    apply list_elem_of_lookup in Hslice as [i Hi].
    apply lookup_take_Some in Hi as [Hi Hlt]. exists i. split; [lia | done].
Qed.

Lemma X12_loads_stay_within_cap_witness :
  let E := Demo.board Demo.threeInGames (Some Demo.capTwo) "" "" in
  let run := latestFilesAnnounceEvent E ["fsx_bot"] Demo.seasoned in
  EvLoadFile 2 ∈ events_of run
  /\ exists options lastTimestamp area fileIds,
       result_of (loadOptions E ["fsx_bot"] Demo.seasoned) = Ok options
       /\ systemStats Demo.seasoned !! STAT_KEY_LAST_TS = Some lastTimestamp
       /\ area ∈ scannedAreas E options
       /\ findFiles E lastTimestamp (Area.areaTag area) = Ok fileIds
       /\ 2 ∈ js_slice0 fileIds (Options.maxFilesPerArea options)
       /\ (0 <= Options.maxFilesPerArea options ->
           exists i, Z.of_nat i < Options.maxFilesPerArea options
                     /\ fileIds !! i = Some 2).
Proof.
  assert (Hin : EvLoadFile 2
                ∈ events_of (latestFilesAnnounceEvent
                               (Demo.board Demo.threeInGames (Some Demo.capTwo) "" "")
                               ["fsx_bot"] Demo.seasoned)).
  { apply list_elem_of_lookup. exists 12%nat. reflexivity. }
  split; [exact Hin|].
  exact (X12_loads_stay_within_cap
           (Demo.board Demo.threeInGames (Some Demo.capTwo) "" "") ["fsx_bot"]
           Demo.seasoned 2 Hin).
Defined.

(** ** What the scan hands on *)

(** X13.  An area result that is produced names its area, has as
    [areaFileBytes] what adding up the byte sizes of its listed files gives
    (files cut off by the cap are not counted), which is their exact sum
    when no size is negative and the sum is within the safe integer range,
    and, with a cap that is not negative, accounts for every
    id the query returned: listed files plus [remainingFiles] is the number
    of new ids, and [remainingFiles] is not negative. *)
Theorem X13_area_result_accounts_for_all (E : Env) (options : Options.t)
        (descIndent : Z) (lastTimestamp : string) (area : Area.t) (s : Store)
        (r : AreaFiles.t) :
  result_of (scanArea E options descIndent lastTimestamp area s) = Ok r ->
  AreaFiles.areaInfo r = area
  /\ AreaFiles.areaFileBytes r = js_sum (map fileBytes (AreaFiles.files r))
  /\ (safe_sizes (AreaFiles.files r) ->
      AreaFiles.areaFileBytes r = sumZ (map fileBytes (AreaFiles.files r)))
  /\ exists fileIds,
       findFiles E lastTimestamp (Area.areaTag area) = Ok fileIds
       /\ (0 <= Options.maxFilesPerArea options ->
           Z.of_nat (length (AreaFiles.files r)) + AreaFiles.remainingFiles r
           = Z.of_nat (length fileIds)
           /\ 0 <= AreaFiles.remainingFiles r).
Proof.
  intros (ids & Hids & Harea & Hfiles & Hbytes & Hrem)%scanArea_Ok.
  split; [done|]. split; [done|].
  split; [intros Hsafe; rewrite Hbytes; by apply safe_sizes_sum|].
  exists ids. split; [done|]. intros Hcap.
  rewrite js_slice0_nonneg in Hfiles by done.
  apply Forall2_length in Hfiles. rewrite length_take in Hfiles.
  rewrite Hrem. unfold remainingOf. cbn zeta.
  destruct (Z.gtb_spec (Z.of_nat (length ids)) (Options.maxFilesPerArea options)); lia.
Qed.

Lemma X13_area_result_accounts_for_all_witness :
  let E := Demo.board Demo.threeInGames (Some Demo.capTwo) "" "" in
  let options := withDefaults E Demo.capTwo in
  let area := Area.mk "games" "Games" "DOS games" in
  let r := AreaFiles.mk area [Demo.file 1; Demo.file 2] 300 1 in
  result_of (scanArea E options 0 Demo.LAST area Demo.seasoned) = Ok r
  /\ safe_sizes (AreaFiles.files r)
  /\ AreaFiles.areaFileBytes r = sumZ (map fileBytes (AreaFiles.files r))
  /\ exists fileIds,
       findFiles E Demo.LAST "games" = Ok fileIds
       /\ (0 <= 2 -> 2 + 1 = Z.of_nat (length fileIds) /\ 0 <= 1).
Proof.
  assert (Hsafe : safe_sizes [Demo.file 1; Demo.file 2]).
  { split; [|vm_compute; discriminate]. repeat constructor; vm_compute; discriminate. }
  split; [reflexivity|]. split; [exact Hsafe|].
  destruct (X13_area_result_accounts_for_all
              (Demo.board Demo.threeInGames (Some Demo.capTwo) "" "")
              (withDefaults (Demo.board Demo.threeInGames (Some Demo.capTwo) "" "")
                            Demo.capTwo)
              0 Demo.LAST (Area.mk "games" "Games" "DOS games") Demo.seasoned
              (AreaFiles.mk (Area.mk "games" "Games" "DOS games")
                            [Demo.file 1; Demo.file 2] 300 1)
              eq_refl) as (_ & _ & Hbytes & ids & Hids & Hsum).
  split; [exact (Hbytes Hsafe)|]. exists ids. split; [exact Hids | exact Hsum].
Defined.

(** X14.  When [findNewFiles] succeeds, a checkpoint was stored, and what it
    hands on is: the templates and the indent as received; the options as
    received but for [sinceTs], now the stored checkpoint in the configured
    timestamp format; and one result per catalog area whose tag matches the
    area pattern, in the catalog's order, each naming its area. *)
Theorem X14_scan_results_follow_catalog (E : Env)
        (options0 : Options.t) (T0 : list string) (d0 : Z) (s : Store)
        (options : Options.t) (T : list string) (rs : list AreaFiles.t) (d : Z) :
  result_of (findNewFiles E options0 T0 d0 s) = Ok (options, T, rs, d) ->
  T = T0 /\ d = d0
  /\ map AreaFiles.areaInfo rs
     = filter (fun area => Is_true (regex_match E (Area.areaTag area)
                                                (Options.areaTagsRegEx options0)))
              (getSortedAvailableFileAreas E)
  /\ exists lastTimestamp,
       systemStats s !! STAT_KEY_LAST_TS = Some lastTimestamp
       /\ options = Options.set_sinceTs
                      (moment_format E lastTimestamp (Options.tsFormat options0)) options0
       /\ Options.sinceTs options
          = Some (moment_format E lastTimestamp (Options.tsFormat options0)).
Proof.
  intros (ts & Hts & _ & -> & -> & -> & HF)%findNewFiles_Ok.
  split; [done|]. split; [done|]. split; [|by exists ts].
  change (filter _ _) with (scannedAreas E options0).
  change (scannedAreas E (Options.set_sinceTs _ options0))
    with (scannedAreas E options0) in HF.
  induction HF as [|area r areas rs Hr _ IH]; [done|]. simpl.
  apply scanArea_Ok in Hr as (_ & _ & -> & _). by rewrite IH.
Qed.

Lemma X14_scan_results_follow_catalog_witness :
  let E := Demo.board Demo.threeInGames None "" "" in
  let options0 := withDefaults E RawOptions.empty in
  exists options rs,
    result_of (findNewFiles E options0 [] 0 Demo.seasoned) = Ok (options, [], rs, 0)
    /\ map (fun r => Area.areaTag (AreaFiles.areaInfo r)) rs = ["games"; "utils"]
    /\ Options.sinceTs options = Some Demo.LAST.
Proof.
  do 2 eexists. split; [reflexivity|]. split; [reflexivity|].
  edestruct (X14_scan_results_follow_catalog
               (Demo.board Demo.threeInGames None "" "")
               (withDefaults (Demo.board Demo.threeInGames None "" "") RawOptions.empty)
               [] 0 Demo.seasoned) as (_ & _ & _ & ts & Hts & _ & Hsince);
    [reflexivity|].
  injection Hts as <-. exact Hsince.
Defined.

Lemma scanArea_fails (E : Env) (options : Options.t) (d : Z) (ts : string)
      (area : Area.t) (s : Store) :
  (exists e, findFiles E ts (Area.areaTag area) = Err e)
  \/ (exists fileIds fileId e,
        findFiles E ts (Area.areaTag area) = Ok fileIds
        /\ fileId ∈ js_slice0 fileIds (Options.maxFilesPerArea options)
        /\ loadFile E fileId = Err e) ->
  exists e, result_of (scanArea E options d ts area s) = Err e.
Proof.
  intros Hfail.
  destruct (result_of (scanArea E options d ts area s)) as [r|e] eqn:Hrun;
    [|by exists e].
  apply scanArea_Ok in Hrun as (ids & Hids & _ & Hfiles & _).
  destruct Hfail as [[e He]|(ids' & fileId & e & Hids' & Hin & Hload)]; [congruence|].
  rewrite Hids in Hids'. injection Hids' as <-.
  apply list_elem_of_lookup in Hin as [i Hi].
  destruct (Forall2_lookup_l _ _ _ _ _ Hfiles Hi) as (f & _ & f0 & Hf0 & _).
  congruence.
Qed.

(** X15.  The scan is all or nothing, and the checkpoint does not wait for
    it.  If, for some matching area, the catalog query fails, or the load of
    one of its capped ids fails (a file gone between listing and loading),
    the run ends with an error: nothing is formatted, no message is handed
    to the message base, and yet the checkpoint stays advanced to the run
    time. *)
Theorem X15_scan_failure_after_checkpoint (E : Env) (args : list string) (s : Store)
        (options : Options.t) (lastTimestamp : string) (area : Area.t) :
  reaches_scan E args s = true ->
  result_of (loadOptions E args s) = Ok options ->
  systemStats s !! STAT_KEY_LAST_TS = Some lastTimestamp ->
  truthy_str lastTimestamp = true ->
  area ∈ scannedAreas E options ->
  (exists e, findFiles E lastTimestamp (Area.areaTag area) = Err e)
  \/ (exists fileIds fileId e,
        findFiles E lastTimestamp (Area.areaTag area) = Ok fileIds
        /\ fileId ∈ js_slice0 fileIds (Options.maxFilesPerArea options)
        /\ loadFile E fileId = Err e) ->
  let run := latestFilesAnnounceEvent E args s in
  (exists e, result_of run = Err e)
  /\ Forall (fun e => is_output e = false) (events_of run)
  /\ msgBase (store_of run) = msgBase s
  /\ systemStats (store_of run)
     = <[STAT_KEY_LAST_TS := getISOTimestampString E]> (systemStats s).
Proof.
  intros Hreach Hopt Hlast Htruthy Harea Hfail. cbn zeta.
  destruct (goes_on_to_scan E args s Hreach)
    as (options1 & T & d & setup & Hsetup & Hopt1 & _ & ->).
  assert (options1 = options) as -> by congruence.
  rewrite findNewFiles_unfold. cbn zeta. rewrite Hlast.
  cbn [truthy_ostr default from_option id]. rewrite Htruthy.
  set (options' := Options.set_sinceTs _ _).
  destruct (scanArea_fails E options' d lastTimestamp area (advanced E s) Hfail)
    as [e0 He0].
  destruct (async_map_Err (fun e => is_scan e = true)
              (scanArea E options' d lastTimestamp) (scannedAreas E options')
              (advanced E s) area e0) as [e He]; [|done|done|].
  { intros a. apply frame_scanArea. }
  destruct (frame_async_map eq (fun s => eq_refl) eq_trans_store
              (fun e => is_scan e = true) (scanArea E options' d lastTimestamp)
              (scannedAreas E options') (frame_scanArea E options' d lastTimestamp)
              (advanced E s)) as [Hs Hev].
  unfold result_of at 1 2. cbn [fst]. rewrite He.
  unfold result_of, store_of, events_of in *. cbn [fst snd].
  rewrite <- Hs. split; [by eexists|]. split; [|done].
  apply Forall_app. split; [eapply Forall_impl; [exact Hsetup|]; by intros []|].
  do 3 (constructor; [done|]). eapply Forall_impl; [exact Hev|]. by intros [].
Qed.

Lemma X15_scan_failure_after_checkpoint_witness :
  let E := Demo.board (fun tag => if String.eqb tag "games" then [1; -5] else [])
                      None "" "" in
  let run := latestFilesAnnounceEvent E ["fsx_bot"] Demo.seasoned in
  loadFile E (-5) = Err (HostError "" "No file entry found")
  /\ (exists e, result_of run = Err e)
  /\ Forall (fun e => is_output e = false) (events_of run)
  /\ msgBase (store_of run) = []
  /\ systemStats (store_of run)
     = <[STAT_KEY_LAST_TS := Demo.NOW]> (systemStats Demo.seasoned).
Proof.
  split; [reflexivity|].
  apply (X15_scan_failure_after_checkpoint
           (Demo.board (fun tag => if String.eqb tag "games" then [1; -5] else [])
                       None "" "")
           ["fsx_bot"] Demo.seasoned
           (withDefaults (Demo.board Demo.nothingNew None "" "") RawOptions.empty)
           Demo.LAST (Area.mk "games" "Games" "DOS games"));
    try reflexivity.
  - apply list_elem_of_lookup. exists 0%nat. reflexivity.
  - right. exists [1; -5], (-5), (HostError "" "No file entry found").
    split; [reflexivity|]. split; [|reflexivity].
    apply list_elem_of_lookup. exists 1%nat. reflexivity.
Defined.

(** ** The report and its messages *)

(** X16.  Every message a run of [buildMessages] hands to the message base
    is addressed to one of the comma-separated destinations, from and to the
    configured names, marked as cp437, with the subject format applied to
    the footer's context as its subject; and its body is exactly what the
    [stringFormat] calls for the header, the areas and the footer returned,
    put one after the other in the order of the calls.  All other calls of
    the delivery are those subject formattings. *)
Theorem X16_messages_carry_the_rendered_report (E : Env) (args : list string)
        (options : Options.t) (T : list string) (rs : list AreaFiles.t) (d : Z)
        (s : Store) :
  let fo0 := initialFormatObj E options in
  let areaCalls :=
    events_of (forEach (renderArea E T) rs (fo0, stringFormat E (T !!! 0%nat) fo0) s) in
  exists footerObj delivery,
    let rendering := EvStringFormat (T !!! 0%nat) fo0
                       :: areaCalls ++ [EvStringFormat (T !!! 4%nat) footerObj] in
    events_of (buildMessages E args options T rs d s) = rendering ++ delivery
    /\ Forall (fun e => is_render e = true) rendering
    /\ Forall (fun e =>
                 match e with
                 | EvStringFormat template formatObj =>
                     template = Options.subjectFormat options /\ formatObj = footerObj
                 | EvPersistMessage msg =>
                     Message.areaTag msg ∈ js_split "," (args !!! 0%nat)
                     /\ Message.toUserName msg = Options.to options
                     /\ Message.fromUserName msg = Options.from options
                     /\ Message.explicit_encoding msg = "cp437"
                     /\ Message.subject msg
                        = stringFormat E (Options.subjectFormat options) footerObj
                     /\ Message.message msg = textOf E (formatted rendering)
                 | _ => False
                 end) delivery.
Proof.
  intros fo0 areaCalls.
  destruct (buildMessages_shape E args options T rs d s)
    as (fo & evs & Hevs & Hrender & _ & Hrun & _).
  cbn zeta in Hrun. fold fo0 in Hevs, Hrun. fold areaCalls in Hevs. subst evs.
  exists fo. eexists. rewrite Hrun. unfold events_of at 1. cbn [snd].
  split; [reflexivity|]. split.
  { constructor; [done|]. apply Forall_app. split; [done | by repeat constructor]. }
  destruct (num_gt0 "totalFileCount" fo); [|constructor].
  eapply Forall_impl; [apply delivery_calls|].
  intros [] He; try done. destruct He as (tag & Hin & ->). by repeat split.
Qed.

(** X17.  The entry of the j-th listed file of an area is the (j+1)-th
    [stringFormat] call made for that area, with the entry template, and its
    context carries that file's own values: name, size, hashes, upload
    time; its description, or the empty string when it has none; its
    uploader, or "N/A" when that is absent or empty; its hash tags joined
    with ", ". *)
Theorem X17_entry_sees_its_file (E : Env) (T : list string) (fo : FormatObj)
        (body : string) (r : AreaFiles.t) (s : Store) (j : nat) (f : FileEntry.t) :
  AreaFiles.files r !! j = Some f ->
  exists c,
    formatted (events_of (renderArea E T (fo, body) r s)) !! S j = Some (T !!! 2%nat, c)
    /\ c !! "fileName" = Some (VStr (FileEntry.fileName f))
    /\ c !! "fileSize" = Some (VNum (fileBytes f))
    /\ c !! "fileDesc" = Some (VStr (default "" (FileEntry.desc f)))
    /\ c !! "fileSha256" = Some (VStr (FileEntry.fileSha256 f))
    /\ c !! "fileCrc32" = Some (FileEntry.file_crc32 (FileEntry.meta f))
    /\ c !! "fileMd5" = Some (FileEntry.file_md5 (FileEntry.meta f))
    /\ c !! "fileSha1" = Some (FileEntry.file_sha1 (FileEntry.meta f))
    /\ c !! "fileUploadTs" = Some (VStr (FileEntry.uploadTimestamp f))
    /\ c !! "fileHashTags" = Some (VStr (js_join ", " (FileEntry.hashTags f)))
    /\ c !! "uploadBy"
       = Some (VStr (match FileEntry.upload_by_username (FileEntry.meta f) with
                     | Some (String a u) => String a u
                     | _ => "N/A"
                     end)).
Proof.
  intros Hj.
  assert (Hne : AreaFiles.files r <> []) by (intros Hnil; by rewrite Hnil in Hj).
  rewrite (renderArea_body E T fo body r s Hne). unfold events_of. cbn [snd].
  rewrite formatted_areaBlock.
  destruct (entryContexts_lookup _ (setAreaFields r fo) j f Hj) as [prev Hprev].
  exists (setFileFields f prev). split.
  { rewrite lookup_cons. rewrite lookup_app_l.
    - by rewrite list_lookup_fmap, Hprev.
    - rewrite length_map, length_entryContexts. by apply lookup_lt_Some in Hj. }
  unfold setFileFields. cbn zeta.
  repeat (split; [by repeat (rewrite lookup_insert_ne by done);
                     rewrite lookup_insert_eq, ?or_str_empty|]).
  repeat (rewrite lookup_insert_ne by done). rewrite lookup_insert_eq.
  unfold or_str. by destruct (FileEntry.upload_by_username _) as [[|]|].
Qed.

Lemma X17_entry_sees_its_file_witness :
  let E := Demo.board Demo.threeInGames None "" "" in
  let r := AreaFiles.mk (Area.mk "games" "Games" "DOS games")
                        [Demo.file 0; Demo.file 2] 200 0 in
  exists c,
    formatted (events_of (renderArea E ["H"; "AH"; "E"; "AF"; "F"] (∅, "") r
                                     Demo.seasoned)) !! 1%nat = Some ("E", c)
    /\ c !! "fileDesc" = Some (VStr "")
    /\ c !! "uploadBy" = Some (VStr "N/A").
Proof.
  destruct (X17_entry_sees_its_file (Demo.board Demo.threeInGames None "" "")
              ["H"; "AH"; "E"; "AF"; "F"] ∅ ""
              (AreaFiles.mk (Area.mk "games" "Games" "DOS games")
                            [Demo.file 0; Demo.file 2] 200 0)
              Demo.seasoned 0 (Demo.file 0) eq_refl)
    as (c & Hc & _ & _ & Hdesc & _ & _ & _ & _ & _ & _ & Hby).
  exists c. split; [exact Hc|]. split; [exact Hdesc | exact Hby].
Defined.

(** X18.  For an area that lists files, the [stringFormat] calls are: the
    area header, one entry per listed file, the area footer, and nothing
    else.  All of them see this area's name, description, file count and
    byte count.  The context is one object that is never reset: the area
    footer is formatted against the very context of the area's last entry,
    and the area header still shows, under the per-file keys, whatever the
    context held before the area. *)
Theorem X18_area_block_contexts (E : Env) (T : list string) (fo : FormatObj)
        (body : string) (r : AreaFiles.t) (s : Store) :
  AreaFiles.files r <> [] ->
  exists hdr entries ftr,
    formatted (events_of (renderArea E T (fo, body) r s))
    = (T !!! 1%nat, hdr) :: map (pair (T !!! 2%nat)) entries ++ [(T !!! 3%nat, ftr)]
    /\ length entries = length (AreaFiles.files r)
    /\ last entries = Some ftr
    /\ (forall k, is_file_key k = true -> hdr !! k = fo !! k)
    /\ Forall (fun c =>
                 c !! "areaName" = Some (VStr (Area.name (AreaFiles.areaInfo r)))
                 /\ c !! "areaDesc" = Some (VStr (Area.desc (AreaFiles.areaInfo r)))
                 /\ c !! "areaFileCount"
                    = Some (VNum (Z.of_nat (length (AreaFiles.files r))))
                 /\ c !! "areaFileBytes" = Some (VNum (AreaFiles.areaFileBytes r)))
              (hdr :: entries ++ [ftr]).
Proof.
  intros Hne. rewrite (renderArea_body E T fo body r s Hne).
  unfold events_of. cbn [snd]. rewrite formatted_areaBlock.
  set (fo1 := setAreaFields r fo).
  exists fo1, (entryContexts fo1 (AreaFiles.files r)),
         (afterEntries fo1 (AreaFiles.files r)).
  split; [done|]. split; [apply length_entryContexts|]. split; [|split].
  - pose proof (last_entryContexts (AreaFiles.files r) fo1) as Hlast.
    destruct (AreaFiles.files r) as [|f l]; [done|]. exact Hlast.
  - intros k Hk. unfold fo1, setAreaFields.
    assert (Hne' : forall k', is_file_key k' = false -> k' <> k) by (intros k' ? <-; congruence).
    rewrite !lookup_insert_ne by (by apply Hne').
    rewrite !plus_assign_ne by (by apply Hne').
    by rewrite !lookup_insert_ne by (by apply Hne').
  - assert (Hkeys : forall k v, is_file_key k = false -> fo1 !! k = Some v ->
              Forall (fun c => c !! k = Some v)
                     (fo1 :: entryContexts fo1 (AreaFiles.files r)
                          ++ [afterEntries fo1 (AreaFiles.files r)])).
    { intros k v Hk Hv. constructor; [done|]. apply Forall_app. split.
      - eapply Forall_impl; [by apply entryContexts_other|]. simpl. by intros c ->.
      - constructor; [|done]. by rewrite afterEntries_other. }
    assert (Hname : fo1 !! "areaName" = Some (VStr (Area.name (AreaFiles.areaInfo r)))).
    { unfold fo1, setAreaFields. rewrite lookup_insert_ne by done. apply lookup_insert_eq. }
    assert (Hdesc : fo1 !! "areaDesc" = Some (VStr (Area.desc (AreaFiles.areaInfo r))))
      by apply lookup_insert_eq.
    assert (Hcount : fo1 !! "areaFileCount"
                     = Some (VNum (Z.of_nat (length (AreaFiles.files r))))).
    { unfold fo1, setAreaFields. rewrite !lookup_insert_ne by done.
      rewrite !plus_assign_ne by done. rewrite !lookup_insert_ne by done.
      apply lookup_insert_eq. }
    assert (Hbytes : fo1 !! "areaFileBytes" = Some (VNum (AreaFiles.areaFileBytes r))).
    { unfold fo1, setAreaFields. rewrite !lookup_insert_ne by done.
      rewrite !plus_assign_ne by done. apply lookup_insert_eq. }
    apply Forall_and. split; [by apply Hkeys|].
    apply Forall_and. split; [by apply Hkeys|].
    apply Forall_and. split; by apply Hkeys.
Qed.

Lemma X18_area_block_contexts_witness :
  let E := Demo.board Demo.threeInGames None "" "" in
  let r := AreaFiles.mk (Area.mk "games" "Games" "DOS games")
                        [Demo.file 1; Demo.file 2] 300 0 in
  exists (hdr : FormatObj) (entries : list FormatObj) (ftr : FormatObj),
    formatted (events_of (renderArea E ["H"; "AH"; "E"; "AF"; "F"] (∅, "") r
                                     Demo.seasoned))
    = ("AH", hdr) :: map (pair "E") entries ++ [("AF", ftr)]
    /\ length entries = 2%nat
    /\ last entries = Some ftr.
Proof.
  destruct (X18_area_block_contexts (Demo.board Demo.threeInGames None "" "")
              ["H"; "AH"; "E"; "AF"; "F"] ∅ ""
              (AreaFiles.mk (Area.mk "games" "Games" "DOS games")
                            [Demo.file 1; Demo.file 2] 300 0)
              Demo.seasoned ltac:(discriminate))
    as (hdr & entries & ftr & Hcalls & Hlen & Hlast & _).
  exists hdr, entries, ftr. split; [exact Hcalls|]. split; [exact Hlen | exact Hlast].
Defined.

(** X19.  Through a whole report the board name, the run's own timestamp and
    the start of the reporting window stay what they were at the start:
    every [stringFormat] call of [buildMessages], the subject included, sees
    [boardName] from the board's configuration, [nowTs] as computed when the
    options were loaded, and [sinceTs] as the checkpoint found by the scan,
    in the configured timestamp format. *)
Theorem X19_report_window_fields (E : Env) (args : list string)
        (options0 : Options.t) (T0 : list string) (d0 : Z) (s0 : Store)
        (options : Options.t) (T : list string) (rs : list AreaFiles.t) (d : Z)
        (s : Store) :
  result_of (findNewFiles E options0 T0 d0 s0) = Ok (options, T, rs, d) ->
  exists lastTimestamp,
    systemStats s0 !! STAT_KEY_LAST_TS = Some lastTimestamp
    /\ Forall (fun e =>
                 match e with
                 | EvStringFormat _ c =>
                     c !! "boardName" = Some (VStr (boardName E))
                     /\ c !! "nowTs" = Some (VStr (Options.nowTs options0))
                     /\ c !! "sinceTs"
                        = Some (VStr (moment_format E lastTimestamp
                                                    (Options.tsFormat options0)))
                 | _ => True
                 end)
              (events_of (buildMessages E args options T rs d s)).
Proof.
  intros (ts & Hts & _ & -> & -> & -> & _)%findNewFiles_Ok.
  exists ts. split; [done|].
  set (options := Options.set_sinceTs _ options0).
  destruct (buildMessages_shape E args options T0 rs d0 s)
    as (fo & evs & _ & _ & Hkeys & -> & _).
  cbn zeta. unfold events_of at 1. cbn [snd].
  set (fo0 := initialFormatObj E options) in *.
  assert (Hboard : fo0 !! "boardName" = Some (VStr (boardName E))).
  { unfold fo0, initialFormatObj. rewrite !lookup_insert_ne by done.
    apply lookup_insert_eq. }
  assert (Hnow : fo0 !! "nowTs" = Some (VStr (Options.nowTs options0))).
  { unfold fo0, initialFormatObj. rewrite !lookup_insert_ne by done.
    apply lookup_insert_eq. }
  assert (Hsince : fo0 !! "sinceTs"
                   = Some (VStr (moment_format E ts (Options.tsFormat options0)))).
  { unfold fo0, initialFormatObj. rewrite !lookup_insert_ne by done.
    apply lookup_insert_eq. }
  destruct (Hkeys "boardName" _ eq_refl eq_refl Hboard) as [Hboard' Hboards].
  destruct (Hkeys "nowTs" _ eq_refl eq_refl Hnow) as [Hnow' Hnows].
  destruct (Hkeys "sinceTs" _ eq_refl eq_refl Hsince) as [Hsince' Hsinces].
  apply Forall_app. split.
  - constructor; [done|]. apply Forall_app. split; [|by repeat constructor].
    rewrite Forall_forall in Hboards, Hnows, Hsinces. apply Forall_forall.
    intros e He. specialize (Hboards e He). specialize (Hnows e He).
    specialize (Hsinces e He). by destruct e.
  - destruct (num_gt0 "totalFileCount" fo); [|constructor].
    eapply Forall_impl; [apply delivery_calls|].
    intros [] He; try done. by destruct He as [_ ->].
Qed.

Lemma X19_report_window_fields_witness :
  let E := Demo.board Demo.threeInGames None "" "" in
  let options0 := withDefaults E RawOptions.empty in
  let T := ["H"; "AH"; "E"; "AF"; "F"] in
  exists options rs,
    result_of (findNewFiles E options0 T 0 Demo.seasoned) = Ok (options, T, rs, 0)
    /\ Forall (fun e =>
                 match e with
                 | EvStringFormat _ c =>
                     c !! "boardName" = Some (VStr "Demo BBS")
                     /\ c !! "nowTs" = Some (VStr "Thu, February 2nd, 2017")
                     /\ c !! "sinceTs" = Some (VStr Demo.LAST)
                 | _ => True
                 end)
              (events_of (buildMessages E ["fsx_bot"] options T rs 0 Demo.seasoned)).
Proof.
  do 2 eexists. split; [reflexivity|].
  edestruct (X19_report_window_fields (Demo.board Demo.threeInGames None "" "")
               ["fsx_bot"]
               (withDefaults (Demo.board Demo.threeInGames None "" "") RawOptions.empty)
               ["H"; "AH"; "E"; "AF"; "F"] 0 Demo.seasoned) as (ts & Hts & Hev);
    [reflexivity|].
  injection Hts as <-. exact Hev.
Defined.

(** ** What a run leaves behind *)

Lemma bind_Err_run {A B} (m : M A) (k : A -> M B) s e s1 ev1 :
  m s = (Err e, s1, ev1) -> bind m k s = (Err e, s1, ev1).
Proof. intros Hm. unfold bind. by rewrite Hm. Qed.

Lemma result_of_mk {A} (r : Result A) (s : Store) (evs : list Event) :
  result_of (r, s, evs) = r.
Proof. reflexivity. Qed.

Lemma store_of_mk {A} (r : Result A) (s : Store) (evs : list Event) :
  store_of (r, s, evs) = s.
Proof. reflexivity. Qed.

Lemma events_of_mk {A} (r : Result A) (s : Store) (evs : list Event) :
  events_of (r, s, evs) = evs.
Proof. reflexivity. Qed.

(** X20.  Of the stat log a run changes at most one entry, its own: after a
    run that got as far as the scan stage the log is the old log with the
    checkpoint key set to the run time, after any other run it is the old
    log; every other stat is left as it was in either case. *)
Theorem X20_only_the_checkpoint_stat_changes (E : Env) (args : list string) (s : Store) :
  let run := latestFilesAnnounceEvent E args s in
  systemStats (store_of run)
  = (if reaches_scan E args s
     then <[STAT_KEY_LAST_TS := getISOTimestampString E]> (systemStats s)
     else systemStats s)
  /\ forall key, key <> STAT_KEY_LAST_TS ->
                 systemStats (store_of run) !! key = systemStats s !! key.
Proof.
  cbn zeta.
  assert (Hstats : systemStats (store_of (latestFilesAnnounceEvent E args s))
                   = (if reaches_scan E args s
                      then <[STAT_KEY_LAST_TS := getISOTimestampString E]> (systemStats s)
                      else systemStats s)).
  { destruct (reaches_scan E args s) eqn:Hreach.
    - destruct (goes_on_to_scan E args s Hreach)
        as (options & T & d & setup & _ & _ & _ & ->).
      destruct (findNewFiles_run E options T d s) as (scan & _ & _ & Hs & _).
      cbn zeta in *.
      destruct (result_of (findNewFiles E options T d s)) as [[[[o' T'] rs] d']|e].
      + destruct (frame_buildMessages E args o' T' rs d'
                    (store_of (findNewFiles E options T d s))) as [Hs4 _].
        unfold store_of, same_stats in *. cbn [fst snd]. by rewrite Hs4, Hs.
      + unfold store_of in *. cbn [fst snd]. by rewrite Hs.
    - destruct (stops_before_scan E args s Hreach) as (-> & _). done. }
  split; [done|]. intros key Hkey. rewrite Hstats.
  destruct (reaches_scan E args s); [|done]. by rewrite lookup_insert_ne.
Qed.

Section Growth.

Variable E : Env.

Lemma deliver_grows options fo body (tags : list string) :
  forall s,
    let r := async_eachSeries (postTo E options fo body) tags s in
    exists kept,
      msgBase (store_of r) = msgBase s ++ kept
      /\ (result_of r = Ok tt /\ attempted (events_of r) = kept
          \/ exists msg e,
               result_of r = Err e
               /\ attempted (events_of r) = kept ++ [msg]
               /\ persistMessage E (msgBase s ++ kept) msg = Some e).
Proof.
  induction tags as [|tag tags IH]; intros s; cbn zeta.
  - exists []. simpl. rewrite app_nil_r. split; [done|]. by left.
  - cbn [async_eachSeries]. unfold bind. rewrite postTo_run. cbn zeta.
    set (msg := mkMessage options body _ tag).
    destruct (persistMessage E (msgBase s) msg) as [e|] eqn:Hpersist.
    + exists []. unfold result_of, store_of, events_of. cbn [fst snd].
      rewrite !app_nil_r. split; [done|]. right. by exists msg, e.
    + destruct (IH (mkStore (systemStats s) (msgBase s ++ [msg]))) as (kept & Hbase & Hcase).
      cbn zeta in *. unfold result_of, store_of, events_of in *.
      destruct (async_eachSeries _ tags _) as [[r s2] ev2]. cbn [fst snd msgBase] in *.
      exists (msg :: kept). rewrite Hbase, <- app_assoc. split; [done|].
      destruct Hcase as [[-> Hatt]|(m & e & -> & Hatt & Hrefused)].
      * left. split; [done|]. change (attempted ([_; _] ++ ev2)) with (msg :: attempted ev2).
        by rewrite Hatt.
      * right. exists m, e. split; [done|].
        change (attempted ([_; _] ++ ev2)) with (msg :: attempted ev2).
        rewrite Hatt. split; [done|]. by rewrite <- app_assoc in Hrefused.
Qed.

End Growth.

(** X21.  A run only ever adds to the message base: the messages that were
    there stay, in place, and what is appended are the messages the run
    handed over, in the order it handed them over.  Either all of them were
    kept, or all but the last one, which the message base refused, and then
    the run ends with that refusal as its error. *)
Theorem X21_message_base_only_grows (E : Env) (args : list string) (s : Store) :
  let run := latestFilesAnnounceEvent E args s in
  exists kept,
    msgBase (store_of run) = msgBase s ++ kept
    /\ (attempted (events_of run) = kept
        \/ exists msg e,
             attempted (events_of run) = kept ++ [msg]
             /\ result_of run = Err e
             /\ persistMessage E (msgBase s ++ kept) msg = Some e).
Proof.
  cbn zeta. destruct (reaches_scan E args s) eqn:Hreach.
  2:{ destruct (stops_before_scan E args s Hreach) as (-> & _ & Hev).
      exists []. rewrite app_nil_r. split; [done|]. left.
      apply attempted_none. eapply Forall_impl; [exact Hev|]. by intros []. }
  destruct (goes_on_to_scan E args s Hreach)
    as (options & T & d & setup & Hsetup & _ & _ & ->).
  destruct (findNewFiles_run E options T d s) as (scan & Hev3 & Hscan & Hs3 & _).
  cbn zeta in *.
  assert (Hquiet : attempted (setup ++ events_of (findNewFiles E options T d s)) = []).
  { apply attempted_none. apply Forall_app. split.
    - eapply Forall_impl; [exact Hsetup|]. by intros [].
    - rewrite Hev3. do 2 (constructor; [done|]).
      eapply Forall_impl; [exact Hscan|]. by intros []. }
  destruct (result_of (findNewFiles E options T d s)) as [[[[o' T'] rs] d']|e].
  2:{ exists []. unfold store_of, events_of in *. cbn [fst snd].
      rewrite Hs3, app_nil_r. split; [done|]. by left. }
  rewrite Hs3.
  destruct (buildMessages_shape E args o' T' rs d' (advanced E s))
    as (fo & evs & _ & Hrender & _ & Hrun & _).
  cbn zeta in Hrun. rewrite Hrun.
  set (rendering := EvStringFormat _ _ :: evs ++ [_]) in *.
  assert (Hrendering : attempted rendering = []).
  { apply attempted_none. unfold rendering. constructor; [done|].
    apply Forall_app. split; [|by repeat constructor].
    eapply Forall_impl; [exact Hrender|]. by intros []. }
  rewrite !result_of_mk, !store_of_mk, !events_of_mk.
  rewrite app_assoc, attempted_app, Hquiet, attempted_app, Hrendering. cbn [app].
  destruct (num_gt0 "totalFileCount" fo).
  - destruct (deliver_grows E o' fo (textOf E (formatted rendering))
                (js_split "," (args !!! 0%nat)) (advanced E s)) as (kept & Hbase & Hcase).
    cbn zeta in *. exists kept. split; [exact Hbase|].
    destruct Hcase as [[_ Hatt]|(msg & e & Hres & Hatt & Hrefused)]; [by left|].
    right. by exists msg, e.
  - exists []. unfold ret, store_of, events_of. cbn [fst snd]. rewrite app_nil_r.
    split; [done|]. by left.
Qed.

Lemma deliver_first_attempt (E : Env) options fo body tag (tags : list string) s :
  exists rest,
    events_of (async_eachSeries (postTo E options fo body) (tag :: tags) s)
    = EvStringFormat (Options.subjectFormat options) fo
        :: EvPersistMessage
             (mkMessage options body (stringFormat E (Options.subjectFormat options) fo) tag)
        :: rest.
Proof.
  cbn [async_eachSeries]. unfold bind. rewrite postTo_run. cbn zeta.
  destruct (persistMessage E (msgBase s) _); [by eexists|].
  destruct (async_eachSeries _ tags _) as [[r s2] ev2]. by eexists.
Qed.

(** X22.  When the scan succeeds and some matching area has at least one new
    file, under a positive cap, the report is not dropped: [buildMessages]
    hands a message to the message base, and the first one it hands over is
    for the first destination of [args[0]]. *)
Theorem X22_new_files_are_announced (E : Env) (args : list string)
        (options0 : Options.t) (T0 : list string) (d0 : Z) (s0 : Store)
        (options : Options.t) (T : list string) (rs : list AreaFiles.t) (d : Z)
        (s : Store) (lastTimestamp : string) (area : Area.t) (fileIds : list Z) :
  result_of (findNewFiles E options0 T0 d0 s0) = Ok (options, T, rs, d) ->
  0 < Options.maxFilesPerArea options0 ->
  systemStats s0 !! STAT_KEY_LAST_TS = Some lastTimestamp ->
  area ∈ scannedAreas E options0 ->
  findFiles E lastTimestamp (Area.areaTag area) = Ok fileIds ->
  fileIds <> [] ->
  exists tag msg,
    head (js_split "," (args !!! 0%nat)) = Some tag
    /\ head (attempted (events_of (buildMessages E args options T rs d s))) = Some msg
    /\ Message.areaTag msg = tag.
Proof.
  intros Hscan Hcap Hlast Harea Hfind Hnew.
  apply findNewFiles_Ok in Hscan as (ts & Hts & _ & -> & -> & -> & HF).
  assert (ts = lastTimestamp) as -> by congruence.
  set (options := Options.set_sinceTs _ options0) in *.
  assert (Hsome : Exists lists_files rs).
  { change (scannedAreas E options) with (scannedAreas E options0) in HF.
    apply list_elem_of_lookup in Harea as [i Hi].
    destruct (Forall2_lookup_l _ _ _ _ _ HF Hi) as (r & Hr & Hrun).
    apply scanArea_Ok in Hrun as (ids & Hids & _ & Hfiles & _).
    assert (ids = fileIds) as -> by congruence.
    change (Options.maxFilesPerArea options) with (Options.maxFilesPerArea options0)
      in Hfiles.
    rewrite js_slice0_nonneg in Hfiles by lia.
    apply Forall2_length in Hfiles. rewrite length_take in Hfiles.
    apply Exists_exists. exists r. split; [apply list_elem_of_lookup; by exists i|].
    intros Hnil. rewrite Hnil in Hfiles.
    destruct fileIds as [|x l]; [done|]. simpl length in *. lia. }
  destruct (buildMessages_shape E args options T0 rs d0 s)
    as (fo & evs & _ & Hrender & _ & Hrun & _ & Hgt).
  cbn zeta in Hrun. rewrite (Hgt Hsome) in Hrun. rewrite Hrun.
  rewrite events_of_mk.
  destruct (js_join_split_char "," (args !!! 0%nat)) as [Hne _].
  destruct (js_split "," (args !!! 0%nat)) as [|tag tags]; [done|].
  destruct (deliver_first_attempt E options fo
              (textOf E (formatted (EvStringFormat (T0 !!! 0%nat)
                                      (initialFormatObj E options)
                                      :: evs ++ [EvStringFormat (T0 !!! 4%nat) fo])))
              tag tags s) as [rest ->].
  exists tag. eexists. split; [done|].
  rewrite attempted_app, (attempted_none (_ :: _)).
  - cbn [app]. split; reflexivity.
  - constructor; [done|]. apply Forall_app. split; [|by repeat constructor].
    eapply Forall_impl; [exact Hrender|]. by intros [].
Qed.

Lemma X22_new_files_are_announced_witness :
  let E := Demo.board Demo.threeInGames None "" "" in
  let options0 := withDefaults E RawOptions.empty in
  let options := Options.set_sinceTs Demo.LAST options0 in
  let T := ["H"; "AH"; "E"; "AF"; "F"] in
  let rs := [ AreaFiles.mk (Area.mk "games" "Games" "DOS games")
                           [Demo.file 1; Demo.file 2; Demo.file 3] 600 0;
              AreaFiles.mk (Area.mk "utils" "Utilities" "Tools") [] 0 0 ] in
  result_of (findNewFiles E options0 T 0 Demo.seasoned) = Ok (options, T, rs, 0)
  /\ findFiles E Demo.LAST "games" = Ok [1; 2; 3]
  /\ exists msg,
       head (attempted (events_of (buildMessages E ["fsx_bot,agn_ads"] options T rs 0
                                                 Demo.seasoned))) = Some msg
       /\ Message.areaTag msg = "fsx_bot".
Proof.
  split; [reflexivity|]. split; [reflexivity|].
  destruct (X22_new_files_are_announced (Demo.board Demo.threeInGames None "" "")
              ["fsx_bot,agn_ads"]
              (withDefaults (Demo.board Demo.threeInGames None "" "") RawOptions.empty)
              ["H"; "AH"; "E"; "AF"; "F"] 0 Demo.seasoned
              (Options.set_sinceTs Demo.LAST
                 (withDefaults (Demo.board Demo.threeInGames None "" "") RawOptions.empty))
              ["H"; "AH"; "E"; "AF"; "F"]
              [ AreaFiles.mk (Area.mk "games" "Games" "DOS games")
                             [Demo.file 1; Demo.file 2; Demo.file 3] 600 0;
                AreaFiles.mk (Area.mk "utils" "Utilities" "Tools") [] 0 0 ]
              0 Demo.seasoned Demo.LAST (Area.mk "games" "Games" "DOS games")
              [1; 2; 3])
    as (tag & msg & Htag & Hmsg & Harea);
    [reflexivity | reflexivity | reflexivity | | reflexivity | discriminate |].
  - apply list_elem_of_lookup. exists 0%nat. reflexivity.
  - exists msg. split; [exact Hmsg|]. injection Htag as <-. exact Harea.
Defined.

(** X23.  Which error the caller gets from the first stage.  Without any
    argument the run fails with the MissingParam error before making a
    single call.  With arguments, an options file that cannot be read (for a
    reason other than its absence) fails the run with that very read error,
    and an options file whose content does not parse fails it with the
    parser's error, both handed on as they are; nothing but the options file
    has been read by then. *)
Theorem X23_first_stage_errors (E : Env) (args : list string) (s : Store) :
  (args = [] ->
   latestFilesAnnounceEvent E args s
   = (Err (MissingParam "At least [areaTag] required in args"), s, []))
  /\ (args <> [] ->
      forall err,
        fs_readFile E (optionsPath E args) = Err err ->
        err_code err <> "ENOENT" ->
        latestFilesAnnounceEvent E args s
        = (Err err, s, [EvReadFile (optionsPath E args)]))
  /\ (args <> [] ->
      forall data e,
        fs_readFile E (optionsPath E args) = Ok data ->
        truthy_str data = true ->
        hjson_parse E data = Err e ->
        latestFilesAnnounceEvent E args s
        = (Err e, s, [EvReadFile (optionsPath E args)])).
Proof.
  split; [by intros ->|].
  assert (Hlen : args <> [] -> (Z.of_nat (length args) <? 1) = false).
  { intros Hne. destruct args; [done|]. apply Z.ltb_ge. simpl. lia. }
  split.
  - intros Hne err Hread Hcode. unfold latestFilesAnnounceEvent. rewrite Hlen by done.
    apply bind_Err_run. unfold loadOptions. rewrite Hread.
    by destruct (String.eqb_spec "ENOENT" (err_code err)).
  - intros Hne data e Hread Hdata Hparse. unfold latestFilesAnnounceEvent.
    rewrite Hlen by done. apply bind_Err_run. unfold loadOptions.
    by rewrite Hread, Hdata, Hparse.
Qed.

Lemma X23_first_stage_errors_witness :
  let E := withBrokenOptions (Demo.board Demo.threeInGames None "" "") in
  latestFilesAnnounceEvent E [] Demo.seasoned
  = (Err (MissingParam "At least [areaTag] required in args"), Demo.seasoned, [])
  /\ latestFilesAnnounceEvent E ["fsx_bot"] Demo.seasoned
     = (Err (HostError "" "End of input while parsing a value"), Demo.seasoned,
        [EvReadFile "/mods/lfa/options.hjson"]).
Proof.
  destruct (X23_first_stage_errors
              (withBrokenOptions (Demo.board Demo.threeInGames None "" ""))
              [] Demo.seasoned) as (Hnone & _).
  destruct (X23_first_stage_errors
              (withBrokenOptions (Demo.board Demo.threeInGames None "" ""))
              ["fsx_bot"] Demo.seasoned) as (_ & _ & Hbad).
  split; [exact (Hnone eq_refl)|].
  exact (Hbad ltac:(discriminate) "{ maxFilesPerArea: "
              (HostError "" "End of input while parsing a value")
              eq_refl eq_refl eq_refl).
Defined.
